(** * Zatacka-TS: player simulation and round lifecycle

    A shallow embedding of [src/game/entities/Player.ts] and
    [src/game/managers/PlayerManager.ts], and the properties of the round
    state machine, the startup window, the hole generator and the death
    grace period that follow from the code.

    Conventions of the embedding.
    - A JavaScript [number] that only ever holds a frame or round count
      (it starts at 0 and is changed by [++]) is a [Z]; every other
      [number] is an exact rational [Q].  Rounding of IEEE doubles is
      modelled where the code turns a quotient into an integer, in the FPS
      counter (module [Double]), and not elsewhere.
    - [Math.cos], [Math.sin], [Math.PI], [Math.random] and the pixel
      read-back of the canvas are external: they are fields of [Env].
    - The objects shared by reference (the pool of players, the canvas,
      the random source) live in one store, [World]; a player's [this] is
      its index in the pool.
    - [canvas] and [log] are histories, newest entry first.

    The second half embeds the components around the two: the keyboard
    manager, the FPS counter, the score board, the splash screen, the end
    screen, the player selector, the game configurations and the settings
    panel, each in a module of its own, with the properties of each and
    of their use together with the player manager.  For these:
    - the value of [performance.now()] is an argument of the call that
      reads it;
    - a callback that a method calls as its last action ([onDismiss],
      [onStart]) is a boolean the method returns, and
      [e.preventDefault()] likewise;
    - a thrown [Error] is the left summand of a sum, with its message;
    - the text of a form input, [parseFloat] on it and [toString] of a
      number are parameters; a parsed number is a [JsNumber], which tells
      NaN and the infinities from the finite values. *)

From Stdlib Require Import ZArith QArith Qround Qpower Bool String Lia Lqa.
From Stdlib Require Import PrimFloat SpecFloat FloatOps.
From stdpp Require Import base list gmap strings pretty.

Local Open Scope string_scope.
Local Open Scope Z_scope.

(** ** Numbers *)

Definition Qltb (a b : Q) : bool := negb (Qle_bool b a).

(** [Math.round]: nearest integer, ties towards plus infinity. *)
Definition Math_round (q : Q) : Z := Qfloor (q + (1 # 2))%Q.

(** ** Types of [player.types.ts] and [input.types.ts] *)

Inductive PlayerName := red | yellow | orange | green | pink | blue.

Definition PlayerName_eqb (a b : PlayerName) : bool :=
  match a, b with
  | red, red | yellow, yellow | orange, orange
  | green, green | pink, pink | blue, blue => true
  | _, _ => false
  end.

Definition KeyName := string.

Module Template.
Record t := {
    name : PlayerName;
    color : string;
    left_ : KeyName;
    right_ : KeyName;
    ready : bool;
    count : Z
}.
End Template.
Abbreviation PlayerTemplate := Template.t.

Module Physics.
Record t := {
    size_ : Q;
    speed : Q;
    curveSpeed : Q;
    holeRate : Q;
    holeRateRnd : Q;
    holeSize : Q;
    holeSizeRnd : Q
}.
End Physics.
Abbreviation PlayerPhysicsConfig := Physics.t.

(** [PlayerConstants]: every property is optional. *)
Module Constants.
Record t := {
    afterDieTime : option Q;
    collisionTolerance : option Q;
    startTime : option Q
}.
End Constants.
Abbreviation PlayerConstants := Constants.t.

Module Dimensions.
Record t := { width : Q; height : Q; scoreWidth : Q }.
End Dimensions.

Module Config.
Record t := { maxRounds : Z; physics : PlayerPhysicsConfig }.
End Config.
Abbreviation PlayerManagerConfig := Config.t.

(** The death callback a player holds.  [CheckRoundOverCb] is the closure
    [() => this.checkRoundOver()] that [PlayerManager.init] builds;
    [DeathSpy] is any callback of the host that does not touch the core. *)
Inductive OnPlayerDeath := CheckRoundOverCb | DeathSpy.

(** What the host does in [onNewRound] / [onFinish]: nothing the core can
    see ([HostSpy]), or a synchronous call of [startRound()] as
    [Game.newRound] makes ([HostStartRound]). *)
Inductive HostCallback := HostSpy | HostStartRound.

Record RGBA := { chR : Z; chG : Z; chB : Z; chA : Z }.

(** Calls that change the raster: [clearRect(x, y, w, h)] and
    [beginPath(); fillStyle = c; arc(x, y, r, 0, 2 * Math.PI); fill()]. *)
Inductive CanvasOp :=
| ClearRect (x y w h : Q)
| FillArc (fillStyle : string) (x y r : Q).

(** Observation points: an invocation of [#isColliding] and the firing of
    each callback. *)
Inductive Event :=
| EvIsColliding (who : PlayerName)
| EvOnDeath (who : PlayerName)
| EvOnNewRound
| EvOnFinish.

(** The collaborators the core reads from. *)
Record Env := {
  isKeyPressed : KeyName -> bool;
  currentFps : option Q;
  dimensions : Dimensions.t;
  Math_cos : Q -> Q;
  Math_sin : Q -> Q;
  Math_PI : Q;
  Math_random : nat -> Q;
  getImageData : list CanvasOp -> Z -> Z -> RGBA
}.

(** ** The [Player] class: fields *)

Record Player := {
  name : PlayerName;
  color : string;
  left_ : KeyName;
  right_ : KeyName;
  score : Z;
  dead : bool;
  size_ : Q;
  speed : Q;
  curveSpeed : Q;
  holeRate : Q;
  holeRateRnd : Q;
  holeSize : Q;
  holeSizeRnd : Q;
  afterDieTime : Q;
  collisionTolerance : Q;
  startTime : Q;
  x_ : Q;
  y_ : Q;
  angle : Q;
  dying : bool;
  afterDieCount : Z;
  counter : Z;
  hole : bool;
  holeCounter : Z;
  nextHole : Q;
  nextHoleSize : Q;
  onDeath : option OnPlayerDeath
}.

(** ** The [PlayerManager] and the objects it shares with its players *)

Record World := {
  running : bool;
  roundCount : Z;
  maxRounds : Z;
  playerTemplates : list PlayerTemplate;
  pool : list Player;
  playerConstants : option PlayerConstants;
  onNewRound : option HostCallback;
  onFinish : option HostCallback;
  canvas : list CanvasOp;
  log : list Event;
  rng : nat
}.

(** Field assignments. *)

Definition set_score (v : Z) (p : Player) : Player :=
  {| name := name p; color := color p; left_ := left_ p; right_ := right_ p;
     score := v; dead := dead p; size_ := size_ p; speed := speed p;
     curveSpeed := curveSpeed p; holeRate := holeRate p;
     holeRateRnd := holeRateRnd p; holeSize := holeSize p;
     holeSizeRnd := holeSizeRnd p; afterDieTime := afterDieTime p;
     collisionTolerance := collisionTolerance p; startTime := startTime p;
     x_ := x_ p; y_ := y_ p; angle := angle p; dying := dying p;
     afterDieCount := afterDieCount p; counter := counter p; hole := hole p;
     holeCounter := holeCounter p; nextHole := nextHole p;
     nextHoleSize := nextHoleSize p; onDeath := onDeath p |}.

Definition set_dead (v : bool) (p : Player) : Player :=
  {| name := name p; color := color p; left_ := left_ p; right_ := right_ p;
     score := score p; dead := v; size_ := size_ p; speed := speed p;
     curveSpeed := curveSpeed p; holeRate := holeRate p;
     holeRateRnd := holeRateRnd p; holeSize := holeSize p;
     holeSizeRnd := holeSizeRnd p; afterDieTime := afterDieTime p;
     collisionTolerance := collisionTolerance p; startTime := startTime p;
     x_ := x_ p; y_ := y_ p; angle := angle p; dying := dying p;
     afterDieCount := afterDieCount p; counter := counter p; hole := hole p;
     holeCounter := holeCounter p; nextHole := nextHole p;
     nextHoleSize := nextHoleSize p; onDeath := onDeath p |}.

Definition set_x_ (v : Q) (p : Player) : Player :=
  {| name := name p; color := color p; left_ := left_ p; right_ := right_ p;
     score := score p; dead := dead p; size_ := size_ p; speed := speed p;
     curveSpeed := curveSpeed p; holeRate := holeRate p;
     holeRateRnd := holeRateRnd p; holeSize := holeSize p;
     holeSizeRnd := holeSizeRnd p; afterDieTime := afterDieTime p;
     collisionTolerance := collisionTolerance p; startTime := startTime p;
     x_ := v; y_ := y_ p; angle := angle p; dying := dying p;
     afterDieCount := afterDieCount p; counter := counter p; hole := hole p;
     holeCounter := holeCounter p; nextHole := nextHole p;
     nextHoleSize := nextHoleSize p; onDeath := onDeath p |}.

Definition set_y_ (v : Q) (p : Player) : Player :=
  {| name := name p; color := color p; left_ := left_ p; right_ := right_ p;
     score := score p; dead := dead p; size_ := size_ p; speed := speed p;
     curveSpeed := curveSpeed p; holeRate := holeRate p;
     holeRateRnd := holeRateRnd p; holeSize := holeSize p;
     holeSizeRnd := holeSizeRnd p; afterDieTime := afterDieTime p;
     collisionTolerance := collisionTolerance p; startTime := startTime p;
     x_ := x_ p; y_ := v; angle := angle p; dying := dying p;
     afterDieCount := afterDieCount p; counter := counter p; hole := hole p;
     holeCounter := holeCounter p; nextHole := nextHole p;
     nextHoleSize := nextHoleSize p; onDeath := onDeath p |}.

Definition set_angle (v : Q) (p : Player) : Player :=
  {| name := name p; color := color p; left_ := left_ p; right_ := right_ p;
     score := score p; dead := dead p; size_ := size_ p; speed := speed p;
     curveSpeed := curveSpeed p; holeRate := holeRate p;
     holeRateRnd := holeRateRnd p; holeSize := holeSize p;
     holeSizeRnd := holeSizeRnd p; afterDieTime := afterDieTime p;
     collisionTolerance := collisionTolerance p; startTime := startTime p;
     x_ := x_ p; y_ := y_ p; angle := v; dying := dying p;
     afterDieCount := afterDieCount p; counter := counter p; hole := hole p;
     holeCounter := holeCounter p; nextHole := nextHole p;
     nextHoleSize := nextHoleSize p; onDeath := onDeath p |}.

Definition set_dying (v : bool) (p : Player) : Player :=
  {| name := name p; color := color p; left_ := left_ p; right_ := right_ p;
     score := score p; dead := dead p; size_ := size_ p; speed := speed p;
     curveSpeed := curveSpeed p; holeRate := holeRate p;
     holeRateRnd := holeRateRnd p; holeSize := holeSize p;
     holeSizeRnd := holeSizeRnd p; afterDieTime := afterDieTime p;
     collisionTolerance := collisionTolerance p; startTime := startTime p;
     x_ := x_ p; y_ := y_ p; angle := angle p; dying := v;
     afterDieCount := afterDieCount p; counter := counter p; hole := hole p;
     holeCounter := holeCounter p; nextHole := nextHole p;
     nextHoleSize := nextHoleSize p; onDeath := onDeath p |}.

Definition set_afterDieCount (v : Z) (p : Player) : Player :=
  {| name := name p; color := color p; left_ := left_ p; right_ := right_ p;
     score := score p; dead := dead p; size_ := size_ p; speed := speed p;
     curveSpeed := curveSpeed p; holeRate := holeRate p;
     holeRateRnd := holeRateRnd p; holeSize := holeSize p;
     holeSizeRnd := holeSizeRnd p; afterDieTime := afterDieTime p;
     collisionTolerance := collisionTolerance p; startTime := startTime p;
     x_ := x_ p; y_ := y_ p; angle := angle p; dying := dying p;
     afterDieCount := v; counter := counter p; hole := hole p;
     holeCounter := holeCounter p; nextHole := nextHole p;
     nextHoleSize := nextHoleSize p; onDeath := onDeath p |}.

Definition set_counter (v : Z) (p : Player) : Player :=
  {| name := name p; color := color p; left_ := left_ p; right_ := right_ p;
     score := score p; dead := dead p; size_ := size_ p; speed := speed p;
     curveSpeed := curveSpeed p; holeRate := holeRate p;
     holeRateRnd := holeRateRnd p; holeSize := holeSize p;
     holeSizeRnd := holeSizeRnd p; afterDieTime := afterDieTime p;
     collisionTolerance := collisionTolerance p; startTime := startTime p;
     x_ := x_ p; y_ := y_ p; angle := angle p; dying := dying p;
     afterDieCount := afterDieCount p; counter := v; hole := hole p;
     holeCounter := holeCounter p; nextHole := nextHole p;
     nextHoleSize := nextHoleSize p; onDeath := onDeath p |}.

Definition set_hole (v : bool) (p : Player) : Player :=
  {| name := name p; color := color p; left_ := left_ p; right_ := right_ p;
     score := score p; dead := dead p; size_ := size_ p; speed := speed p;
     curveSpeed := curveSpeed p; holeRate := holeRate p;
     holeRateRnd := holeRateRnd p; holeSize := holeSize p;
     holeSizeRnd := holeSizeRnd p; afterDieTime := afterDieTime p;
     collisionTolerance := collisionTolerance p; startTime := startTime p;
     x_ := x_ p; y_ := y_ p; angle := angle p; dying := dying p;
     afterDieCount := afterDieCount p; counter := counter p; hole := v;
     holeCounter := holeCounter p; nextHole := nextHole p;
     nextHoleSize := nextHoleSize p; onDeath := onDeath p |}.

Definition set_holeCounter (v : Z) (p : Player) : Player :=
  {| name := name p; color := color p; left_ := left_ p; right_ := right_ p;
     score := score p; dead := dead p; size_ := size_ p; speed := speed p;
     curveSpeed := curveSpeed p; holeRate := holeRate p;
     holeRateRnd := holeRateRnd p; holeSize := holeSize p;
     holeSizeRnd := holeSizeRnd p; afterDieTime := afterDieTime p;
     collisionTolerance := collisionTolerance p; startTime := startTime p;
     x_ := x_ p; y_ := y_ p; angle := angle p; dying := dying p;
     afterDieCount := afterDieCount p; counter := counter p; hole := hole p;
     holeCounter := v; nextHole := nextHole p;
     nextHoleSize := nextHoleSize p; onDeath := onDeath p |}.

Definition set_nextHole (v : Q) (p : Player) : Player :=
  {| name := name p; color := color p; left_ := left_ p; right_ := right_ p;
     score := score p; dead := dead p; size_ := size_ p; speed := speed p;
     curveSpeed := curveSpeed p; holeRate := holeRate p;
     holeRateRnd := holeRateRnd p; holeSize := holeSize p;
     holeSizeRnd := holeSizeRnd p; afterDieTime := afterDieTime p;
     collisionTolerance := collisionTolerance p; startTime := startTime p;
     x_ := x_ p; y_ := y_ p; angle := angle p; dying := dying p;
     afterDieCount := afterDieCount p; counter := counter p; hole := hole p;
     holeCounter := holeCounter p; nextHole := v;
     nextHoleSize := nextHoleSize p; onDeath := onDeath p |}.

Definition set_nextHoleSize (v : Q) (p : Player) : Player :=
  {| name := name p; color := color p; left_ := left_ p; right_ := right_ p;
     score := score p; dead := dead p; size_ := size_ p; speed := speed p;
     curveSpeed := curveSpeed p; holeRate := holeRate p;
     holeRateRnd := holeRateRnd p; holeSize := holeSize p;
     holeSizeRnd := holeSizeRnd p; afterDieTime := afterDieTime p;
     collisionTolerance := collisionTolerance p; startTime := startTime p;
     x_ := x_ p; y_ := y_ p; angle := angle p; dying := dying p;
     afterDieCount := afterDieCount p; counter := counter p; hole := hole p;
     holeCounter := holeCounter p; nextHole := nextHole p; nextHoleSize := v;
     onDeath := onDeath p |}.



Definition set_running (v : bool) (w : World) : World :=
  {| running := v; roundCount := roundCount w; maxRounds := maxRounds w;
     playerTemplates := playerTemplates w; pool := pool w;
     playerConstants := playerConstants w; onNewRound := onNewRound w;
     onFinish := onFinish w; canvas := canvas w; log := log w;
     rng := rng w |}.

Definition set_roundCount (v : Z) (w : World) : World :=
  {| running := running w; roundCount := v; maxRounds := maxRounds w;
     playerTemplates := playerTemplates w; pool := pool w;
     playerConstants := playerConstants w; onNewRound := onNewRound w;
     onFinish := onFinish w; canvas := canvas w; log := log w;
     rng := rng w |}.

Definition set_maxRounds (v : Z) (w : World) : World :=
  {| running := running w; roundCount := roundCount w; maxRounds := v;
     playerTemplates := playerTemplates w; pool := pool w;
     playerConstants := playerConstants w; onNewRound := onNewRound w;
     onFinish := onFinish w; canvas := canvas w; log := log w;
     rng := rng w |}.

Definition set_pool (v : list Player) (w : World) : World :=
  {| running := running w; roundCount := roundCount w;
     maxRounds := maxRounds w; playerTemplates := playerTemplates w;
     pool := v; playerConstants := playerConstants w;
     onNewRound := onNewRound w; onFinish := onFinish w; canvas := canvas w;
     log := log w; rng := rng w |}.

Definition set_canvas (v : list CanvasOp) (w : World) : World :=
  {| running := running w; roundCount := roundCount w;
     maxRounds := maxRounds w; playerTemplates := playerTemplates w;
     pool := pool w; playerConstants := playerConstants w;
     onNewRound := onNewRound w; onFinish := onFinish w; canvas := v;
     log := log w; rng := rng w |}.

Definition set_log (v : list Event) (w : World) : World :=
  {| running := running w; roundCount := roundCount w;
     maxRounds := maxRounds w; playerTemplates := playerTemplates w;
     pool := pool w; playerConstants := playerConstants w;
     onNewRound := onNewRound w; onFinish := onFinish w; canvas := canvas w;
     log := v; rng := rng w |}.

Definition set_rng (v : nat) (w : World) : World :=
  {| running := running w; roundCount := roundCount w;
     maxRounds := maxRounds w; playerTemplates := playerTemplates w;
     pool := pool w; playerConstants := playerConstants w;
     onNewRound := onNewRound w; onFinish := onFinish w; canvas := canvas w;
     log := log w; rng := v |}.

(** [this.#pool[i] = p] for the object the loop variable is bound to. *)
Definition store (i : nat) (p : Player) (w : World) : World :=
  set_pool (<[i := p]> (pool w)) w.

(** ** [Player]: constructor and private methods *)

Definition DEFAULT_afterDieTime : Q := 0%Q.
Definition DEFAULT_collisionTolerance : Q := 30%Q.
Definition DEFAULT_startTime : Q := 40%Q.

(** One property of [{ ...DEFAULT_CONSTANTS, ...constants }]. *)
Definition finalConstant (constants : option PlayerConstants)
    (prop : PlayerConstants -> option Q) (dflt : Q) : Q :=
  match constants with
  | Some c => match prop c with Some v => v | None => dflt end
  | None => dflt
  end.

Definition createPlayer (template : PlayerTemplate)
    (physics : PlayerPhysicsConfig) (constants : option PlayerConstants)
    (onDeath : option OnPlayerDeath) : Player :=
  {| name := Template.name template;
     color := Template.color template;
     left_ := Template.left_ template;
     right_ := Template.right_ template;
     score := 0;
     dead := false;
     size_ := Physics.size_ physics;
     speed := Physics.speed physics;
     curveSpeed := Physics.curveSpeed physics;
     holeRate := Physics.holeRate physics;
     holeRateRnd := Physics.holeRateRnd physics;
     holeSize := Physics.holeSize physics;
     holeSizeRnd := Physics.holeSizeRnd physics;
     afterDieTime :=
       finalConstant constants Constants.afterDieTime DEFAULT_afterDieTime;
     collisionTolerance :=
       finalConstant constants Constants.collisionTolerance
         DEFAULT_collisionTolerance;
     startTime :=
       finalConstant constants Constants.startTime DEFAULT_startTime;
     x_ := 0%Q; y_ := 0%Q; angle := 0%Q;
     dying := false; afterDieCount := 0; counter := 0;
     hole := false; holeCounter := 0; nextHole := 0%Q; nextHoleSize := 0%Q;
     onDeath := onDeath |}.

(** The private methods mutate [this] and consume [Math.random()] values:
    they map the pair of the player and the position in the random
    sequence to the new pair. *)

Definition Player_getNextHole (env : Env) (s : Player * nat) : Player * nat :=
  let '(this, r) := s in
  (set_nextHole
     (holeRate this + (Math_random env r * 2 - 1) * holeRateRnd this)%Q this,
   S r).

Definition Player_getNextHoleSize (env : Env) (s : Player * nat)
    : Player * nat :=
  let '(this, r) := s in
  (set_nextHoleSize
     (holeSize this + (Math_random env r * 2 - 1) * holeSizeRnd this)%Q this,
   S r).

Definition Player_init (env : Env) (s : Player * nat) : Player * nat :=
  let '(this, r) := s in
  let this := set_counter 0 this in
  let this := set_holeCounter 0 this in
  let this := set_afterDieCount 0 this in
  let this := set_dying false this in
  let this := set_hole false this in
  let this := set_dead false this in
  let gameWidth :=
    (Dimensions.width (dimensions env)
     - Dimensions.scoreWidth (dimensions env))%Q in
  let this := set_x_ ((gameWidth - 100) * Math_random env r + 50)%Q this in
  let this :=
    set_y_ ((Dimensions.height (dimensions env) - 100)
            * Math_random env (S r) + 50)%Q this in
  let this := set_angle (Math_random env (S (S r)) * 360)%Q this in
  Player_getNextHoleSize env (Player_getNextHole env (this, S (S (S r)))).

Definition Player_drawStroke (this : Player) (cv : list CanvasOp)
    : list CanvasOp :=
  FillArc (color this) (x_ this) (y_ this) (size_ this) :: cv.

Definition Player_createHole (env : Env) (s : Player * nat) : Player * nat :=
  let '(this, r) := s in
  let this := set_holeCounter (holeCounter this + 1) this in
  if Qltb (nextHole this) (inject_Z (holeCounter this)) || hole this then
    let this := set_hole true this in
    if Qltb (nextHole this + nextHoleSize this)%Q
            (inject_Z (holeCounter this)) then
      let '(this, r) :=
        Player_getNextHoleSize env (Player_getNextHole env (this, r)) in
      (set_holeCounter 0 (set_hole false this), r)
    else (this, r)
  else (this, r).

(** The boundary test that opens [#isColliding]. *)
Definition outOfBounds (env : Env) (this : Player) : bool :=
  let gameWidth :=
    (Dimensions.width (dimensions env)
     - Dimensions.scoreWidth (dimensions env))%Q in
  Qltb (x_ this) 0 || Qltb gameWidth (x_ this)
  || Qltb (y_ this) 0 || Qltb (Dimensions.height (dimensions env)) (y_ this).

(** The pixel [getImageData(x, y, 1, 1).data] sampled at distance
    [size + 2] in direction [angle + offset] degrees. *)
Definition samplePixel (env : Env) (cv : list CanvasOp) (this : Player)
    (offset : Q) : RGBA :=
  let rcol := (size_ this + 2)%Q in
  let rad := ((angle this + offset) * Math_PI env / 180)%Q in
  let ys := Math_round (y_ this + rcol * Math_cos env rad)%Q in
  let xs := Math_round (x_ this + rcol * Math_sin env rad)%Q in
  getImageData env cv xs ys.

Definition nonBlack (p : RGBA) : bool :=
  negb (chR p =? 0) || negb (chG p =? 0) || negb (chB p =? 0).

Definition Player_isColliding (env : Env) (cv : list CanvasOp)
    (this : Player) : bool :=
  if outOfBounds env this then true
  else
    let p1 := samplePixel env cv this (collisionTolerance this) in
    let p2 := samplePixel env cv this (- collisionTolerance this)%Q in
    if nonBlack p1 || nonBlack p2 then true else false.

(** ** [PlayerManager.checkRoundOver] *)

(** The loop of [checkRoundOver]: [true] when it reaches the [break]. *)
Fixpoint roundOverLoop (poolLength deadCount : Z) (players : list Player)
    : bool :=
  match players with
  | [] => false
  | player :: rest =>
      let deadCount := if dead player then deadCount + 1 else deadCount in
      if poolLength - 1 <=? deadCount then true
      else roundOverLoop poolLength deadCount rest
  end.

Definition PlayerManager_checkRoundOver (w : World) : World :=
  if roundOverLoop (Z.of_nat (length (pool w))) 0 (pool w) then
    set_roundCount (roundCount w + 1) (set_running false w)
  else w.

(** ** [Player.draw] *)

Definition fireOnDeath (cb : OnPlayerDeath) (who : PlayerName) (w : World)
    : World :=
  let w := set_log (EvOnDeath who :: log w) w in
  match cb with
  | CheckRoundOverCb => PlayerManager_checkRoundOver w
  | DeathSpy => w
  end.

(** The frames of the startup delay that return at once. *)
Definition inStartupSkip (this : Player) : bool :=
  Qltb (inject_Z (counter this)) (startTime this) && (2 <? counter this).

(** [fps && fps > 20 ? 60 / fps : 1] *)
Definition speedMultiplier (env : Env) : Q :=
  match currentFps env with
  | Some fps => if Qltb 20 fps then (60 / fps)%Q else 1%Q
  | None => 1%Q
  end.

(** Steering and integration of the position, as written inline in
    [draw()]. *)
Definition steer (env : Env) (this : Player) : Player :=
  let adjustedAngSpeed := (curveSpeed this * speedMultiplier env)%Q in
  if isKeyPressed env (left_ this) then
    set_angle (angle this + adjustedAngSpeed)%Q this
  else if isKeyPressed env (right_ this) then
    set_angle (angle this - adjustedAngSpeed)%Q this
  else this.

Definition advance (env : Env) (this : Player) : Player :=
  let adjustedSpeed := (speed this * speedMultiplier env)%Q in
  let angleRad := (angle this * Math_PI env / 180)%Q in
  let this :=
    set_y_ (y_ this + adjustedSpeed * Math_cos env angleRad)%Q this in
  set_x_ (x_ this + adjustedSpeed * Math_sin env angleRad)%Q this.

Definition Player_draw (env : Env) (i : nat) (w : World) : World :=
  match pool w !! i with
  | None => w
  | Some this =>
      let this := set_counter (counter this + 1) this in
      if inStartupSkip this then store i this w
      else if dying this
              && Qltb (afterDieTime this) (inject_Z (afterDieCount this))
      then
        let w := store i (set_dead true this) w in
        match onDeath this with
        | Some cb => fireOnDeath cb (name this) w
        | None => w
        end
      else
        let this :=
          if dying this
          then set_afterDieCount (afterDieCount this + 1) this
          else this in
        let this := advance env (steer env this) in
        let '(this, r) := Player_createHole env (this, rng w) in
        let w := set_rng r w in
        if hole this then store i this w
        else
          let w := set_log (EvIsColliding (name this) :: log w) w in
          let this :=
            if Player_isColliding env (canvas w) this
            then set_dying true this
            else this in
          store i this (set_canvas (Player_drawStroke this (canvas w)) w)
  end.

(** ** [PlayerManager]: constructor, [init], [startRound], [animate] *)

Definition DEFAULT_PLAYER_TEMPLATES : list PlayerTemplate :=
  [ {| Template.name := red; Template.color := "#f82801";
       Template.left_ := "1"; Template.right_ := "q";
       Template.ready := false; Template.count := 1 |};
    {| Template.name := yellow; Template.color := "#c0c001";
       Template.left_ := "Shift"; Template.right_ := "Ctrl";
       Template.ready := false; Template.count := 2 |};
    {| Template.name := orange; Template.color := "#f87801";
       Template.left_ := "n"; Template.right_ := "m";
       Template.ready := false; Template.count := 3 |};
    {| Template.name := green; Template.color := "#01c801";
       Template.left_ := "left"; Template.right_ := "down";
       Template.ready := false; Template.count := 4 |};
    {| Template.name := pink; Template.color := "#d850b0";
       Template.left_ := "o"; Template.right_ := "p";
       Template.ready := false; Template.count := 5 |};
    {| Template.name := blue; Template.color := "#02a0c8";
       Template.left_ := "mouse1"; Template.right_ := "mouse2";
       Template.ready := false; Template.count := 6 |} ].

Definition PlayerManager_new (playerTemplates : option (list PlayerTemplate))
    (constants : option PlayerConstants)
    (onNewRound onFinish : option HostCallback) : World :=
  {| running := false; roundCount := 0; maxRounds := 0;
     playerTemplates := default DEFAULT_PLAYER_TEMPLATES playerTemplates;
     pool := [];
     playerConstants := constants;
     onNewRound := onNewRound; onFinish := onFinish;
     canvas := []; log := []; rng := 0%nat |}.

(** One turn of the loop over the templates in [init]. *)
Definition initTemplate (config : PlayerManagerConfig) (w : World)
    (template : PlayerTemplate) : World :=
  if Template.ready template then
    let player :=
      createPlayer template (Config.physics config) (playerConstants w)
        (Some CheckRoundOverCb) in
    let existing :=
      find (fun p => PlayerName_eqb (name p) (Template.name template))
        (pool w) in
    let player :=
      match existing with
      | Some e => set_score (score e) player
      | None => player
      end in
    set_pool (pool w ++ [player])%list w
  else w.

Definition PlayerManager_init (config : PlayerManagerConfig) (w : World)
    : World :=
  let w := set_maxRounds (Config.maxRounds config) w in
  let w := set_roundCount 0 w in
  let w := set_pool [] w in
  fold_left (initTemplate config) (playerTemplates w) w.

(** One turn of the loop over the pool in [startRound]. *)
Definition initPlayer (env : Env) (w : World) (i : nat) : World :=
  match pool w !! i with
  | None => w
  | Some player =>
      let '(player, r) := Player_init env (player, rng w) in
      store i player (set_rng r w)
  end.

Definition PlayerManager_startRound (env : Env) (w : World) : World :=
  let w := set_running true w in
  let w :=
    set_canvas
      (ClearRect 0 0 (Dimensions.width (dimensions env))
         (Dimensions.height (dimensions env)) :: canvas w) w in
  fold_left (initPlayer env) (seq 0 (length (pool w))) w.

(** One turn of the loop over the pool in [animate]. *)
Definition drawIfAlive (env : Env) (w : World) (i : nat) : World :=
  match pool w !! i with
  | None => w
  | Some player => if dead player then w else Player_draw env i w
  end.

Definition fireHost (env : Env) (ev : Event) (cb : option HostCallback)
    (w : World) : World :=
  match cb with
  | None => w
  | Some HostSpy => set_log (ev :: log w) w
  | Some HostStartRound =>
      PlayerManager_startRound env (set_log (ev :: log w) w)
  end.

Definition PlayerManager_animate (env : Env) (w : World) : World :=
  if running w then
    fold_left (drawIfAlive env) (seq 0 (length (pool w))) w
  else if isKeyPressed env "space" then
    if roundCount w <? maxRounds w then
      fireHost env EvOnNewRound (onNewRound w) w
    else
      fireHost env EvOnFinish (onFinish w) (set_running false w)
  else w.

(** ** Fixtures of the repository's test suites *)

Definition TEST_PLAYER_TEMPLATES : list PlayerTemplate :=
  [ {| Template.name := red; Template.color := "#f82801";
       Template.left_ := "1"; Template.right_ := "q";
       Template.ready := true; Template.count := 1 |};
    {| Template.name := yellow; Template.color := "#c0c001";
       Template.left_ := "Shift"; Template.right_ := "Ctrl";
       Template.ready := true; Template.count := 2 |};
    {| Template.name := orange; Template.color := "#f87801";
       Template.left_ := "n"; Template.right_ := "m";
       Template.ready := false; Template.count := 3 |} ].

Definition TEST_PHYSICS : PlayerPhysicsConfig :=
  {| Physics.size_ := 2; Physics.speed := 3; Physics.curveSpeed := 9 # 2;
     Physics.holeRate := 100; Physics.holeRateRnd := 20;
     Physics.holeSize := 10; Physics.holeSizeRnd := 5 |}.

Definition TEST_CONFIG : PlayerManagerConfig :=
  {| Config.maxRounds := 5; Config.physics := TEST_PHYSICS |}.

Definition TEST_DIMENSIONS : Dimensions.t :=
  {| Dimensions.width := 800; Dimensions.height := 600;
     Dimensions.scoreWidth := 150 |}.

(** An environment in the manner of the mocks: no frame rate is reported,
    the pixel read-back returns the same colour everywhere, and
    [Math.random()] is constantly one half.  Every player then starts at
    heading 180 degrees and, with no key held, keeps it; the cosine and
    the sine are the ones of that heading, -1 and 0. *)
Definition mockEnv (pressed : KeyName -> bool) (pixel : RGBA) : Env :=
  {| isKeyPressed := pressed;
     currentFps := None;
     dimensions := TEST_DIMENSIONS;
     Math_cos := fun _ => (-1)%Q;
     Math_sin := fun _ => 0%Q;
     Math_PI := (355 # 113)%Q;
     Math_random := fun _ => (1 # 2)%Q;
     getImageData := fun _ _ _ => pixel |}.

Definition blackPixel : RGBA := {| chR := 0; chG := 0; chB := 0; chA := 0 |}.
Definition redPixel : RGBA :=
  {| chR := 255; chG := 0; chB := 0; chA := 255 |}.

Definition noKeys : KeyName -> bool := fun _ => false.
Definition spaceHeld : KeyName -> bool := fun k => String.eqb k "space".

(** [n] consecutive frames. *)
Fixpoint frames (env : Env) (n : nat) (w : World) : World :=
  match n with
  | O => w
  | S n' => frames env n' (PlayerManager_animate env w)
  end.

(** The templates of the test "should handle single player game". *)
Definition singleTemplate : list PlayerTemplate :=
  [ {| Template.name := red; Template.color := "#f82801";
       Template.left_ := "1"; Template.right_ := "q";
       Template.ready := true; Template.count := 1 |} ].

(** A manager over the test templates, initialised and with its first
    round started. *)
Definition testManager (onNewRound onFinish : option HostCallback) : World :=
  PlayerManager_init TEST_CONFIG
    (PlayerManager_new (Some TEST_PLAYER_TEMPLATES) None onNewRound onFinish).

Definition testRound (env : Env) : World :=
  PlayerManager_startRound env (testManager None None).

(** The player at index [i], for reading a field of a computed state. *)
Definition playerAt (i : nat) (w : World) : Player :=
  default (createPlayer
             {| Template.name := red; Template.color := "";
                Template.left_ := ""; Template.right_ := "";
                Template.ready := false; Template.count := 0 |}
             TEST_PHYSICS None None)
          (pool w !! i).

(** ** Vocabulary of the statements *)

(** The frame on which a pending death is carried out. *)
Definition deathDue (p : Player) : bool :=
  dying p && Qltb (afterDieTime p) (inject_Z (afterDieCount p)).

(** The part of a player that [#createHole] reads and writes. *)
Definition holeView (p : Player) : bool * Z * Q * Q :=
  (hole p, holeCounter p, nextHole p, nextHoleSize p).

(** What an ordinary frame does to the player at index [i] and to the
    shared canvas and log. *)
Record updated (env : Env) (w w' : World) (p q : Player) : Prop := {
  upd_counter : counter q = counter p + 1;
  upd_afterDie :
    afterDieCount q
    = if dying p then afterDieCount p + 1 else afterDieCount p;
  upd_dead : dead q = dead p;
  upd_angle : angle q = angle (steer env p);
  upd_x :
    x_ q = (x_ p + speed p * speedMultiplier env
                   * Math_sin env (angle q * Math_PI env / 180))%Q;
  upd_y :
    y_ q = (y_ p + speed p * speedMultiplier env
                   * Math_cos env (angle q * Math_PI env / 180))%Q;
  upd_in_hole :
    hole q = true ->
    dying q = dying p /\ log w' = log w /\ canvas w' = canvas w;
  upd_out_of_hole :
    hole q = false ->
    dying q = (dying p || Player_isColliding env (canvas w) q)
    /\ log w' = EvIsColliding (name p) :: log w
    /\ canvas w' = FillArc (color p) (x_ q) (y_ q) (size_ p) :: canvas w;
  upd_round : running w' = running w /\ roundCount w' = roundCount w;
  upd_config :
    name q = name p /\ score q = score p /\ startTime q = startTime p
    /\ afterDieTime q = afterDieTime p /\ onDeath q = onDeath p
    /\ holeRate q = holeRate p /\ holeRateRnd q = holeRateRnd p
    /\ holeSize q = holeSize p /\ holeSizeRnd q = holeSizeRnd p;
  upd_hole :
    holeView q = holeView (fst (Player_createHole env (p, rng w)))
    /\ rng w' = snd (Player_createHole env (p, rng w))
}.

(** The hole flag of draw-frame [k >= 1] if trail runs of [holeRate]
    frames alternated with gaps of [holeSize] frames. *)
Definition spec_inHole (holeRate holeSize k : Z) : bool :=
  holeRate <=? (k - 1) mod (holeRate + holeSize).

(** The hole state of a player without jitter whose base interval is [R]
    and whose base duration is [G], when its hole counter stands at [j]. *)
Record holeState (R G : Z) (q : Player) (j : Z) : Prop := {
  hs_rate : (holeRate q == inject_Z R)%Q;
  hs_size : (holeSize q == inject_Z G)%Q;
  hs_rateRnd : (holeRateRnd q == 0)%Q;
  hs_sizeRnd : (holeSizeRnd q == 0)%Q;
  hs_next : (nextHole q == inject_Z R)%Q;
  hs_nextSize : (nextHoleSize q == inject_Z G)%Q;
  hs_counter : holeCounter q = j;
  hs_hole : hole q = (R <? j);
  hs_range : 0 <= j <= R + G
}.

(** The calls of [draw()] on one player.  [callsOfDraw n p q]: a sequence
    of calls leads from [p] to [q], and [n] of them were draw-frames.  A
    call is either skipped by the startup delay, or the call at which a
    death is due, or a draw-frame (it reaches [#createHole]); the three
    tests are those of [draw()], in its order.  Each call is made in a
    world that holds the player as the call before left it, with whatever
    else in it. *)
Inductive callsOfDraw : nat -> Player -> Player -> Prop :=
| calls_none p : callsOfDraw 0 p p
| calls_skipped n p q q' env i w :
    callsOfDraw n p q ->
    pool w !! i = Some q ->
    inStartupSkip (set_counter (counter q + 1) q) = true ->
    pool (Player_draw env i w) !! i = Some q' ->
    callsOfDraw n p q'
| calls_death n p q q' env i w :
    callsOfDraw n p q ->
    pool w !! i = Some q ->
    inStartupSkip (set_counter (counter q + 1) q) = false ->
    deathDue q = true ->
    pool (Player_draw env i w) !! i = Some q' ->
    callsOfDraw n p q'
| calls_drawFrame n p q q' env i w :
    callsOfDraw n p q ->
    pool w !! i = Some q ->
    inStartupSkip (set_counter (counter q + 1) q) = false ->
    deathDue q = false ->
    pool (Player_draw env i w) !! i = Some q' ->
    callsOfDraw (S n) p q'.

(** The player and the round of the test "should create holes in the
    trail": [holeRate = 10], [holeSize = 5], no jitter, no startup
    delay. *)
Definition holeTestConfig : PlayerManagerConfig :=
  {| Config.maxRounds := 5;
     Config.physics :=
       {| Physics.size_ := 2; Physics.speed := 3;
          Physics.curveSpeed := 9 # 2;
          Physics.holeRate := 10; Physics.holeRateRnd := 0;
          Physics.holeSize := 5; Physics.holeSizeRnd := 0 |} |}.

Definition noStartupDelay : PlayerConstants :=
  {| Constants.afterDieTime := None; Constants.collisionTolerance := None;
     Constants.startTime := Some 0%Q |}.

Definition holeTestManager : World :=
  PlayerManager_init holeTestConfig
    (PlayerManager_new (Some singleTemplate) (Some noStartupDelay) None None).

Definition holeTestRound (env : Env) : World :=
  PlayerManager_startRound env holeTestManager.

(** The same player with the default constants: the startup delay of 40
    frames skips the calls 3 to 39. *)
Definition delayedHoleManager : World :=
  PlayerManager_init holeTestConfig
    (PlayerManager_new (Some singleTemplate) None None None).

Definition delayedHoleRound (env : Env) : World :=
  PlayerManager_startRound env delayedHoleManager.

Definition isStroke (op : CanvasOp) : bool :=
  match op with
  | FillArc _ _ _ _ => true
  | ClearRect _ _ _ _ => false
  end.

(** Whether frame [k >= 1] of the round [w] put a circle on the canvas. *)
Definition drewOnFrame (env : Env) (w : World) (k : nat) : bool :=
  (length (List.filter isStroke (canvas (frames env (k - 1) w)))
   <? length (List.filter isStroke (canvas (frames env k w))))%nat.

(** The templates of the test "should handle zero ready players". *)
Definition noReadyTemplates : list PlayerTemplate :=
  [ {| Template.name := red; Template.color := "#f82801";
       Template.left_ := "1"; Template.right_ := "q";
       Template.ready := false; Template.count := 1 |} ].

(** The host writes a player's public [score]. *)
Definition setScore (i : nat) (v : Z) (w : World) : World :=
  match pool w !! i with
  | Some p => store i (set_score v p) w
  | None => w
  end.

Definition isHostEvent (e : Event) : bool :=
  match e with
  | EvOnNewRound | EvOnFinish => true
  | _ => false
  end.

(** The number of firings of [onNewRound] and [onFinish] on record. *)
Definition hostFirings (l : list Event) : nat :=
  length (List.filter isHostEvent l).

(** What a draw call of the player at index [i] leaves alone. *)
Record drawFrame (i : nat) (w w' : World) : Prop := {
  df_length : length (pool w') = length (pool w);
  df_others : forall j, j <> i -> pool w' !! j = pool w !! j;
  df_rounds : roundCount w <= roundCount w';
  df_max : maxRounds w' = maxRounds w;
  df_host : hostFirings (log w') = hostFirings (log w)
}.

(** The public operations of the manager. *)
Inductive Call :=
| CallInit (config : PlayerManagerConfig)
| CallStartRound (env : Env)
| CallAnimate (env : Env)
| CallCheckRoundOver.

Definition call (c : Call) (w : World) : World :=
  match c with
  | CallInit config => PlayerManager_init config w
  | CallStartRound env => PlayerManager_startRound env w
  | CallAnimate env => PlayerManager_animate env w
  | CallCheckRoundOver => PlayerManager_checkRoundOver w
  end.

Definition calls (cs : list Call) (w : World) : World :=
  fold_left (fun w c => call c w) cs w.

(** The states a manager can be in: those of a new manager, and those
    reached from one by a public operation. *)
Inductive reachable : World -> Prop :=
| reach_new templates constants onNewRound onFinish :
    reachable (PlayerManager_new templates constants onNewRound onFinish)
| reach_call c w : reachable w -> reachable (call c w).

Definition oneRoundConfig : PlayerManagerConfig :=
  {| Config.maxRounds := 1; Config.physics := TEST_PHYSICS |}.

(** A single-player manager for a match of one round, on which
    [checkRoundOver()] is called twice after the round was started. *)
Definition overCheckedTwice : World :=
  calls [ CallInit oneRoundConfig;
          CallStartRound (mockEnv noKeys blackPixel);
          CallCheckRoundOver; CallCheckRoundOver ]
        (PlayerManager_new (Some singleTemplate) None None None).

(** The player at index [i] exists and its dead flag is unset. *)
Definition alive (w : World) (i : nat) : bool :=
  match pool w !! i with
  | Some player => negb (dead player)
  | None => false
  end.

(** A manager between rounds: initialised over the test templates, with
    spies for both callbacks, and not running. *)
Definition idleManager : World := testManager (Some HostSpy) (Some HostSpy).

(** ** [KeyboardManager] ([core/KeyboardManager.ts]) *)

Module Keyboard.

(** The table [keyCodes], as it is written in the constructor. *)
Definition keyCodes : list (Z * KeyName) :=
  [ (1, "mouse1"); (2, "mouse2"); (32, "space"); (37, "left"); (38, "up");
    (39, "right"); (40, "down"); (17, "Ctrl"); (16, "Shift"); (49, "1");
    (81, "q"); (77, "m"); (78, "n"); (79, "o"); (80, "p") ].

(** [this.keyCodes[keyCode]] *)
Definition keyName (keyCode : Z) : option KeyName :=
  (list_to_map keyCodes : gmap Z KeyName) !! keyCode.

Record t := { keyStatus : gmap KeyName bool }.

(** [createInitialKeyStatus]: every name of the table is set to [false]
    (the order of the visits does not show in the result). *)
Definition createInitialKeyStatus : gmap KeyName bool :=
  foldl (fun status entry => <[snd entry := false]> status) ∅ keyCodes.

Definition new : t := {| keyStatus := createInitialKeyStatus |}.

(** The handlers return the new state and whether they called
    [e.preventDefault()]. *)
Definition handleKeyDown (km : t) (keyCode : Z) : t * bool :=
  match keyName keyCode with
  | Some k => ({| keyStatus := <[k := true]> (keyStatus km) |}, true)
  | None => (km, false)
  end.

Definition handleKeyUp (km : t) (keyCode : Z) : t * bool :=
  match keyName keyCode with
  | Some k => ({| keyStatus := <[k := false]> (keyStatus km) |}, true)
  | None => (km, false)
  end.

Definition handleMouseDown (km : t) (button : Z) : t * bool :=
  if button =? 2 then
    ({| keyStatus := <["mouse2" := true]> (keyStatus km) |}, true)
  else if button =? 0 then
    ({| keyStatus := <["mouse1" := true]> (keyStatus km) |}, false)
  else (km, false).

Definition handleMouseUp (km : t) (button : Z) : t * bool :=
  if button =? 2 then
    ({| keyStatus := <["mouse2" := false]> (keyStatus km) |}, true)
  else if button =? 0 then
    ({| keyStatus := <["mouse1" := false]> (keyStatus km) |}, false)
  else (km, false).

(** [this.keyStatus[keyName] ?? false] *)
Definition isKeyPressed (km : t) (k : KeyName) : bool :=
  default false (keyStatus km !! k).

Definition reset (km : t) : t :=
  {| keyStatus := (fun _ => false) <$> keyStatus km |}.

(** The events the four listeners receive, and their delivery. *)
Inductive InputEvent :=
| KeyDown (keyCode : Z)
| KeyUp (keyCode : Z)
| MouseDown (button : Z)
| MouseUp (button : Z).

Definition handle (km : t) (e : InputEvent) : t :=
  match e with
  | KeyDown c => fst (handleKeyDown km c)
  | KeyUp c => fst (handleKeyUp km c)
  | MouseDown b => fst (handleMouseDown km b)
  | MouseUp b => fst (handleMouseUp km b)
  end.

End Keyboard.

(** The environment whose input manager is the keyboard manager [km]. *)
Definition withKeyboard (km : Keyboard.t) (env : Env) : Env :=
  {| isKeyPressed := Keyboard.isKeyPressed km;
     currentFps := currentFps env;
     dimensions := dimensions env;
     Math_cos := Math_cos env;
     Math_sin := Math_sin env;
     Math_PI := Math_PI env;
     Math_random := Math_random env;
     getImageData := getImageData env |}.

(** ** Drawing on the other canvas layers *)

Record Image := {
  complete : bool;
  naturalWidth : Q;
  imageWidth : Q;
  imageHeight : Q
}.

(** The calls that draw, with the font, alignment and fill style that are
    in force when they are made. *)
Inductive DrawOp :=
| OpClearRect (x y w h : Q)
| OpFillRect (fillStyle : string) (x y w h : Q)
| OpFillText (font textAlign fillStyle text : string) (x y : Q)
| OpDrawImage (image : Image) (x y : Q).

(** ** Arithmetic on IEEE 754 doubles *)

(** The FPS counter turns a quotient of doubles into an integer, so the
    rounding of [-] and [/] decides its result.  A finite double is the
    rational it stands for; [round] maps a rational to the nearest double
    (binary64: 53 significant bits, ties to the even significand, gradual
    underflow with the least unit [2 ^ -1074]).  A result beyond the
    largest double, which is an infinity in the code, keeps its rational
    value here. *)
Module Double.

Definition pow2 (k : Z) : Q := (2 ^ k)%Q.

(** The integer part of the binary logarithm of [q > 0]. *)
Definition ilog2 (q : Q) : Z :=
  let k := Z.log2 (Qnum q) - Z.log2 (Z.pos (Qden q)) in
  if Qle_bool (pow2 k) q then k else k - 1.

(** The exponent of the unit in the last place of the doubles around
    [q > 0]. *)
Definition ulpExp (q : Q) : Z := Z.max (ilog2 q - 52) (-1074).

(** The nearest integer, ties to even. *)
Definition roundEven (q : Q) : Z :=
  let f := Qfloor q in
  match (q - inject_Z f ?= 1 # 2)%Q with
  | Lt => f
  | Gt => f + 1
  | Eq => if Z.even f then f else f + 1
  end.

Definition roundPos (q : Q) : Q :=
  let e := ulpExp q in
  (inject_Z (roundEven (q / pow2 e)) * pow2 e)%Q.

Definition round (q : Q) : Q :=
  match (q ?= 0)%Q with
  | Eq => 0%Q
  | Gt => roundPos q
  | Lt => (- roundPos (- q))%Q
  end.

(** [a - b] and, for [b] other than 0, [a / b] on doubles. *)
Definition sub (a b : Q) : Q := round (a - b).

Definition div (a b : Q) : Q := round (a / b).

End Double.

(** ** [FpsCounter] ([core/FpsCounter.ts]) *)

Module Fps.

(** [FpsConfig]: every property is optional. *)
Record FpsConfig := {
  cfg_updateThrottle : option Z;
  cfg_offsetX : option Q;
  cfg_offsetY : option Q;
  cfg_fontSize : option Z;
  cfg_fontFamily : option string;
  cfg_color : option string
}.

Record Config := {
  updateThrottle : Z;
  offsetX : Q;
  offsetY : Q;
  fontSize : Z;
  fontFamily : string;
  color : string
}.

Definition DEFAULT_CONFIG : Config :=
  {| updateThrottle := 50; offsetX := 35; offsetY := 10; fontSize := 9;
     fontFamily := "Verdana"; color := "#888" |}.

(** [{ ...DEFAULT_CONFIG, ...config }] *)
Definition finalConfig (config : option FpsConfig) : Config :=
  match config with
  | None => DEFAULT_CONFIG
  | Some c =>
      {| updateThrottle :=
           default (updateThrottle DEFAULT_CONFIG) (cfg_updateThrottle c);
         offsetX := default (offsetX DEFAULT_CONFIG) (cfg_offsetX c);
         offsetY := default (offsetY DEFAULT_CONFIG) (cfg_offsetY c);
         fontSize := default (fontSize DEFAULT_CONFIG) (cfg_fontSize c);
         fontFamily := default (fontFamily DEFAULT_CONFIG) (cfg_fontFamily c);
         color := default (color DEFAULT_CONFIG) (cfg_color c) |}
  end.

Record t := {
  context : list DrawOp;
  config : Config;
  currentFps : Z;
  lastUpdateTime : Q;
  frameCount : Z
}.

(** [now] is the value of [performance.now()] at the call. *)
Definition new (now : Q) (config : option FpsConfig) : t :=
  {| context := []; config := finalConfig config; currentFps := 0;
     lastUpdateTime := now; frameCount := 0 |}.

(** The clock values are doubles.  When [deltaSeconds] is 0 (a
    [deltaMs] so small that the division underflows) [1 / deltaSeconds] is
    [Infinity], and so is its [Math.round]; [Math.min] then gives 999. *)
Definition calculateFps (fc : t) (currentTime : Q) : Z :=
  let deltaMs := Double.sub currentTime (lastUpdateTime fc) in
  if Qle_bool deltaMs 0 then currentFps fc
  else
    let deltaSeconds := Double.div deltaMs 1000 in
    if Qeq_bool deltaSeconds 0 then 999
    else
      let fps := Double.div 1 deltaSeconds in
      Z.min (Math_round fps) 999.

Definition update (now : Q) (fc : t) : t :=
  {| context := context fc; config := config fc;
     currentFps := calculateFps fc now;
     lastUpdateTime := now; frameCount := frameCount fc |}.

Definition drawFpsText (gameWidth gameHeight : Q) (fc : t) : t :=
  let x := (gameWidth - offsetX (config fc))%Q in
  let y := (gameHeight - offsetY (config fc))%Q in
  {| context :=
       OpFillText
         (pretty (fontSize (config fc)) +:+ "px " +:+ fontFamily (config fc))
         "left" (color (config fc))
         ("fps:" +:+ pretty (currentFps fc)) x y
       :: OpClearRect (x - 2) (y - 10) 40 15 :: context fc;
     config := config fc; currentFps := currentFps fc;
     lastUpdateTime := lastUpdateTime fc; frameCount := frameCount fc |}.

Definition draw (shouldDraw : bool) (gameWidth gameHeight : Q) (fc : t) : t :=
  if negb shouldDraw then fc
  else
    let fc :=
      {| context := context fc; config := config fc;
         currentFps := currentFps fc; lastUpdateTime := lastUpdateTime fc;
         frameCount := frameCount fc + 1 |} in
    if updateThrottle (config fc) <? frameCount fc then
      drawFpsText gameWidth gameHeight
        {| context := context fc; config := config fc;
           currentFps := currentFps fc;
           lastUpdateTime := lastUpdateTime fc; frameCount := 0 |}
    else fc.

Definition reset (now : Q) (fc : t) : t :=
  {| context := context fc; config := config fc; currentFps := 0;
     lastUpdateTime := now; frameCount := 0 |}.

(** A call of [update()] or of [reset()], with the clock value it reads. *)
Inductive Step := Update (now : Q) | Reset (now : Q).

Definition step (fc : t) (s : Step) : t :=
  match s with
  | Update now => update now fc
  | Reset now => reset now fc
  end.

End Fps.

(** The environment whose FPS provider is the counter [fc]. *)
Definition withFps (fc : Fps.t) (env : Env) : Env :=
  {| isKeyPressed := isKeyPressed env;
     currentFps := Some (inject_Z (Fps.currentFps fc));
     dimensions := dimensions env;
     Math_cos := Math_cos env;
     Math_sin := Math_sin env;
     Math_PI := Math_PI env;
     Math_random := Math_random env;
     getImageData := getImageData env |}.

(** ** [ScoreBoard] ([ui/components/ScoreBoard.ts]) *)

Module ScoreBoard.

(** The players as the score board sees them ([types/score.types.ts]). *)
Record Player := {
  name : string;
  color : string;
  score : Z;
  dead : bool
}.

(** [ScoreConfig]: every property is optional. *)
Record ScoreConfig := {
  cfg_width : option Q;
  cfg_fontSize : option Z;
  cfg_fontFamily : option string;
  cfg_fontStyle : option string;
  cfg_backgroundColor : option string;
  cfg_textAlign : option string
}.

Record Config := {
  width : Q;
  fontSize : Z;
  fontFamily : string;
  fontStyle : string;
  backgroundColor : string;
  textAlign : string
}.

Definition MAX_CLEAR_HEIGHT : Q := 1000.

Definition DEFAULT_CONFIG : Config :=
  {| width := 150; fontSize := 75; fontFamily := "Sans-Serif";
     fontStyle := "italic"; backgroundColor := "#3c3c3c";
     textAlign := "right" |}.

(** [{ ...DEFAULT_CONFIG, ...config }] *)
Definition finalConfig (config : option ScoreConfig) : Config :=
  match config with
  | None => DEFAULT_CONFIG
  | Some c =>
      {| width := default (width DEFAULT_CONFIG) (cfg_width c);
         fontSize := default (fontSize DEFAULT_CONFIG) (cfg_fontSize c);
         fontFamily := default (fontFamily DEFAULT_CONFIG) (cfg_fontFamily c);
         fontStyle := default (fontStyle DEFAULT_CONFIG) (cfg_fontStyle c);
         backgroundColor :=
           default (backgroundColor DEFAULT_CONFIG) (cfg_backgroundColor c);
         textAlign := default (textAlign DEFAULT_CONFIG) (cfg_textAlign c) |}
  end.

Record t := {
  context : list DrawOp;
  config : Config
}.

Definition new (config : option ScoreConfig) : t :=
  {| context := []; config := finalConfig config |}.

(** The loop of [incrementScores]: [player.score++] for every player that
    has another name than the dead one and is not dead. *)
Definition incrementScores (deadPlayerName : string) (players : list Player)
  : list Player :=
  (fun player =>
     if negb (String.eqb (name player) deadPlayerName) && negb (dead player)
     then {| name := name player; color := color player;
             score := score player + 1; dead := dead player |}
     else player) <$> players.

Definition clear (sb : t) : t :=
  {| context := OpClearRect 0 0 (width (config sb)) MAX_CLEAR_HEIGHT
                :: context sb;
     config := config sb |}.

Definition drawBackground (gameHeight : Q) (sb : t) : t :=
  {| context :=
       OpFillRect (backgroundColor (config sb)) 0 0 (width (config sb))
         gameHeight :: context sb;
     config := config sb |}.

Definition calculatePlayerPosition (sb : t) (index totalPlayers : nat)
    (gameHeight : Q) : Q * Q :=
  let x := (width (config sb) * 3 / 4 - 10)%Q in
  let y := (gameHeight * (9 # 10) * inject_Z (Z.of_nat index)
            / inject_Z (Z.of_nat totalPlayers) + 80)%Q in
  (x, y).

Definition drawPlayerScores (players : list Player) (gameHeight : Q) (sb : t)
  : t :=
  if (length players =? 0)%nat then sb
  else
    let font :=
      fontStyle (config sb) +:+ " " +:+ pretty (fontSize (config sb))
      +:+ "px " +:+ fontFamily (config sb) in
    let totalPlayers := length players in
    fold_left
      (fun sb i =>
         match players !! i with
         | None => sb
         | Some player =>
             let position :=
               calculatePlayerPosition sb i totalPlayers gameHeight in
             {| context :=
                  OpFillText font (textAlign (config sb)) (color player)
                    (pretty (score player)) (fst position) (snd position)
                  :: context sb;
                config := config sb |}
         end)
      (seq 0 (length players)) sb.

Definition draw (players : list Player) (gameHeight : Q) (sb : t) : t :=
  drawPlayerScores players gameHeight (drawBackground gameHeight (clear sb)).

End ScoreBoard.

(** ** [SplashScreen] ([ui/screens/SplashScreen.ts]) *)

Module Splash.

(** [SplashScreenConfig]: the property is optional. *)
Record SplashScreenConfig := { cfg_timeout : option Z }.

Record Config := { timeout : Z }.

Definition DEFAULT_CONFIG : Config := {| timeout := 100 |}.

Definition finalConfig (config : option SplashScreenConfig) : Config :=
  match config with
  | None => DEFAULT_CONFIG
  | Some c => {| timeout := default (timeout DEFAULT_CONFIG) (cfg_timeout c) |}
  end.

Record t := {
  context : list DrawOp;
  config : Config;
  active : bool;
  counter : Z
}.

Definition new (config : option SplashScreenConfig) : t :=
  {| context := []; config := finalConfig config; active := false;
     counter := 0 |}.

Definition show (image : Image) (gameWidth gameHeight : Q) (s : t) : t :=
  let x := (gameWidth / 2 - imageWidth image / 2)%Q in
  let y := (gameHeight / 2 - imageHeight image / 2)%Q in
  {| context := OpDrawImage image x y :: context s; config := config s;
     active := true; counter := 0 |}.

(** [listen(onDismiss)]: the new state and whether [onDismiss] was
    called (it is the last thing the method does). *)
Definition listen (isKeyPressed : KeyName -> bool) (s : t) : t * bool :=
  if negb (active s) then (s, false)
  else
    let s := {| context := context s; config := config s;
                active := active s; counter := counter s + 1 |} in
    (s, isKeyPressed "mouse1" || isKeyPressed "space"
        || (timeout (config s) <? counter s)).

Definition clear (gameWidth gameHeight : Q) (s : t) : t :=
  {| context := OpClearRect 0 0 gameWidth gameHeight :: context s;
     config := config s; active := false; counter := 0 |}.

End Splash.

(** ** [EndScreen] ([ui/screens/EndScreen.ts]) *)

Module EndScreen.

(** [PlayerScore] ([types/game.types.ts]). *)
Record PlayerScore := {
  name : PlayerName;
  color : string;
  score : Z
}.

(** [EndScreenConfig]: every property is optional. *)
Record EndScreenConfig := {
  cfg_waitTime : option Z;
  cfg_fontSize : option Z;
  cfg_fontFamily : option string;
  cfg_fontWeight : option string
}.

Record Config := {
  waitTime : Z;
  fontSize : Z;
  fontFamily : string;
  fontWeight : string
}.

Definition DEFAULT_CONFIG : Config :=
  {| waitTime := 100; fontSize := 30; fontFamily := "Sans-Serif";
     fontWeight := "bold" |}.

Definition finalConfig (config : option EndScreenConfig) : Config :=
  match config with
  | None => DEFAULT_CONFIG
  | Some c =>
      {| waitTime := default (waitTime DEFAULT_CONFIG) (cfg_waitTime c);
         fontSize := default (fontSize DEFAULT_CONFIG) (cfg_fontSize c);
         fontFamily := default (fontFamily DEFAULT_CONFIG) (cfg_fontFamily c);
         fontWeight := default (fontWeight DEFAULT_CONFIG) (cfg_fontWeight c)
      |}
  end.

Record t := {
  context : list DrawOp;
  config : Config;
  active : bool;
  counter : Z
}.

Definition new (config : option EndScreenConfig) : t :=
  {| context := []; config := finalConfig config; active := false;
     counter := 0 |}.

Definition drawScores (scores : list PlayerScore) (gameWidth gameHeight : Q)
    (s : t) : t :=
  let font :=
    fontWeight (config s) +:+ " " +:+ pretty (fontSize (config s))
    +:+ "px " +:+ fontFamily (config s) in
  let totalPlayers := 6%Q in
  fold_left
    (fun s i =>
       match scores !! i with
       | None => s
       | Some player =>
           let x := (gameWidth / 2)%Q in
           let y := (gameHeight * 4 / 6 / totalPlayers
                     * inject_Z (Z.of_nat i) + 80)%Q in
           {| context :=
                OpFillText font "right" (color player)
                  (pretty (score player)) x y :: context s;
              config := config s; active := active s;
              counter := counter s |}
       end)
    (seq 0 (length scores)) s.

Definition show (image : Image) (scores : list PlayerScore)
    (gameWidth gameHeight : Q) (s : t) : t :=
  let imgX := (gameWidth / 2 - imageWidth image / 2)%Q in
  let imgY := (gameHeight * 5 / 6 - imageHeight image)%Q in
  drawScores scores gameWidth gameHeight
    {| context := OpDrawImage image imgX imgY :: context s;
       config := config s; active := true; counter := 0 |}.

(** [listen(onDismiss)]: the new state and whether [onDismiss] was
    called (it is the last thing the method does). *)
Definition listen (isKeyPressed : KeyName -> bool) (s : t) : t * bool :=
  if negb (active s) then (s, false)
  else
    let s := {| context := context s; config := config s;
                active := active s; counter := counter s + 1 |} in
    (s, isKeyPressed "space" && (waitTime (config s) <? counter s)).

Definition clear (gameWidth gameHeight : Q) (s : t) : t :=
  {| context := OpClearRect 0 0 gameWidth gameHeight :: context s;
     config := config s; active := false; counter := 0 |}.

End EndScreen.

(** ** [PlayerSelector] ([ui/screens/PlayerSelector.ts]) *)

Module Selector.

(** [PlayerSelectorConfig]: every property is optional. *)
Record PlayerSelectorConfig := {
  cfg_keyLabelXRatio : option Q;
  cfg_iconOffsetX : option Q;
  cfg_baseY : option Q;
  cfg_verticalSpacingRatio : option Q;
  cfg_fontSize : option Z;
  cfg_fontFamily : option string;
  cfg_fontWeight : option string;
  cfg_instructionYRatio : option Q;
  cfg_instructionText : option string;
  cfg_instructionColor : option string
}.

Record Config := {
  keyLabelXRatio : Q;
  iconOffsetX : Q;
  baseY : Q;
  verticalSpacingRatio : Q;
  fontSize : Z;
  fontFamily : string;
  fontWeight : string;
  instructionYRatio : Q;
  instructionText : string;
  instructionColor : string
}.

Definition DEFAULT_CONFIG : Config :=
  {| keyLabelXRatio := 1 # 5; iconOffsetX := 220; baseY := 80;
     verticalSpacingRatio := 6 # 10; fontSize := 20; fontFamily := "Courier";
     fontWeight := "bold"; instructionYRatio := 7 # 8;
     instructionText := "Press space to start";
     instructionColor := "white" |}.

Definition finalConfig (config : option PlayerSelectorConfig) : Config :=
  match config with
  | None => DEFAULT_CONFIG
  | Some c =>
      {| keyLabelXRatio :=
           default (keyLabelXRatio DEFAULT_CONFIG) (cfg_keyLabelXRatio c);
         iconOffsetX := default (iconOffsetX DEFAULT_CONFIG) (cfg_iconOffsetX c);
         baseY := default (baseY DEFAULT_CONFIG) (cfg_baseY c);
         verticalSpacingRatio :=
           default (verticalSpacingRatio DEFAULT_CONFIG)
             (cfg_verticalSpacingRatio c);
         fontSize := default (fontSize DEFAULT_CONFIG) (cfg_fontSize c);
         fontFamily := default (fontFamily DEFAULT_CONFIG) (cfg_fontFamily c);
         fontWeight := default (fontWeight DEFAULT_CONFIG) (cfg_fontWeight c);
         instructionYRatio :=
           default (instructionYRatio DEFAULT_CONFIG) (cfg_instructionYRatio c);
         instructionText :=
           default (instructionText DEFAULT_CONFIG) (cfg_instructionText c);
         instructionColor :=
           default (instructionColor DEFAULT_CONFIG) (cfg_instructionColor c)
      |}
  end.

(** [contextFont] is the font of the context outside the methods'
    [save()] / [restore()] pairs; no method changes it. *)
Record t := {
  context : list DrawOp;
  contextFont : string;
  config : Config;
  active : bool
}.

Definition new (contextFont : string) (config : option PlayerSelectorConfig)
  : t :=
  {| context := []; contextFont := contextFont; config := finalConfig config;
     active := false |}.

(** [imageRepo[player.name]] *)
Definition ImageRepository := PlayerName -> option Image.

Definition set_context (v : list DrawOp) (s : t) : t :=
  {| context := v; contextFont := contextFont s; config := config s;
     active := active s |}.

Definition set_active (v : bool) (s : t) : t :=
  {| context := context s; contextFont := contextFont s; config := config s;
     active := v |}.

Definition set_ready (v : bool) (p : PlayerTemplate) : PlayerTemplate :=
  {| Template.name := Template.name p; Template.color := Template.color p;
     Template.left_ := Template.left_ p; Template.right_ := Template.right_ p;
     Template.ready := v; Template.count := Template.count p |}.

Definition isImageValid (image : option Image) : bool :=
  match image with
  | None => false
  | Some image => complete image && Qltb 0 (naturalWidth image)
  end.

Definition calculatePlayerPosition (s : t) (index totalPlayers : nat)
    (gameWidth gameHeight : Q) : Q * Q :=
  let x := (gameWidth * keyLabelXRatio (config s))%Q in
  let y := (gameHeight * verticalSpacingRatio (config s)
            / inject_Z (Z.of_nat totalPlayers) * inject_Z (Z.of_nat index)
            + baseY (config s))%Q in
  (x, y).

Definition showPlayerControls (playerTemplates : list PlayerTemplate)
    (gameWidth gameHeight : Q) (s : t) : t :=
  let font :=
    fontWeight (config s) +:+ " " +:+ pretty (fontSize (config s))
    +:+ "px " +:+ fontFamily (config s) in
  fold_left
    (fun s i =>
       match playerTemplates !! i with
       | None => s
       | Some player =>
           let position :=
             calculatePlayerPosition s i (length playerTemplates)
               gameWidth gameHeight in
           set_context
             (OpFillText font "left" (Template.color player)
                ("(" +:+ Template.left_ player +:+ " "
                 +:+ Template.right_ player +:+ ")")
                (fst position) (snd position) :: context s) s
       end)
    (seq 0 (length playerTemplates)) s.

Definition showInstructions (gameWidth gameHeight : Q) (s : t) : t :=
  set_context
    (OpFillText (contextFont s) "center" (instructionColor (config s))
       (instructionText (config s)) (gameWidth / 2)
       (gameHeight * instructionYRatio (config s)) :: context s) s.

Definition show (playerTemplates : list PlayerTemplate)
    (gameWidth gameHeight : Q) (s : t) : t :=
  showInstructions gameWidth gameHeight
    (showPlayerControls playerTemplates gameWidth gameHeight
       (set_active true s)).

(** One turn of the loop of [handlePlayerInput], on the shared array of
    templates and the selector. *)
Definition handlePlayer (isKeyPressed : KeyName -> bool)
    (imageRepo : ImageRepository) (gameWidth gameHeight : Q)
    (st : list PlayerTemplate * t) (i : nat) : list PlayerTemplate * t :=
  let '(playerTemplates, s) := st in
  match playerTemplates !! i with
  | None => st
  | Some player =>
      let position :=
        calculatePlayerPosition s i (length playerTemplates)
          gameWidth gameHeight in
      match imageRepo (Template.name player) with
      | None => st
      | Some image =>
          if negb (isImageValid (Some image)) then st
          else
            let iconX := (fst position + iconOffsetX (config s))%Q in
            let iconY := (snd position - imageHeight image)%Q in
            if isKeyPressed (Template.left_ player) then
              (<[i := set_ready true player]> playerTemplates,
               set_context (OpDrawImage image iconX iconY :: context s) s)
            else if isKeyPressed (Template.right_ player) then
              (<[i := set_ready false player]> playerTemplates,
               set_context
                 (OpClearRect iconX iconY (imageWidth image)
                    (imageHeight image) :: context s) s)
            else st
      end
  end.

Definition handlePlayerInput (isKeyPressed : KeyName -> bool)
    (playerTemplates : list PlayerTemplate) (imageRepo : ImageRepository)
    (gameWidth gameHeight : Q) (s : t) : list PlayerTemplate * t :=
  fold_left (handlePlayer isKeyPressed imageRepo gameWidth gameHeight)
    (seq 0 (length playerTemplates)) (playerTemplates, s).

(** [handleStartInput]: whether [onStart] is called (at most once). *)
Definition handleStartInput (isKeyPressed : KeyName -> bool)
    (playerTemplates : list PlayerTemplate) : bool :=
  if negb (isKeyPressed "space") then false
  else existsb Template.ready playerTemplates.

(** [listen]: the templates, the selector and whether [onStart] was
    called (it is the last thing the method does). *)
Definition listen (isKeyPressed : KeyName -> bool)
    (playerTemplates : list PlayerTemplate) (imageRepo : ImageRepository)
    (gameWidth gameHeight : Q) (s : t) : list PlayerTemplate * t * bool :=
  let '(playerTemplates, s) :=
    handlePlayerInput isKeyPressed playerTemplates imageRepo
      gameWidth gameHeight s in
  (playerTemplates, s, handleStartInput isKeyPressed playerTemplates).

Definition clear (playerTemplates : list PlayerTemplate)
    (gameWidth gameHeight : Q) (s : t) : list PlayerTemplate * t :=
  (set_ready false <$> playerTemplates,
   set_context (OpClearRect 0 0 gameWidth gameHeight :: context s)
     (set_active false s)).

End Selector.

(** ** Game configurations ([config/gameConfigurations.ts]) *)

(** The values of a JavaScript number that the configuration code tells
    apart. *)
Inductive JsNumber :=
| NaN
| Finite (q : Q)
| PosInfinity
| NegInfinity.

Definition isNaN (n : JsNumber) : bool :=
  match n with NaN => true | _ => false end.

(** [n > 0] and [n >= 0] *)
Definition gt0 (n : JsNumber) : bool :=
  match n with
  | Finite q => Qltb 0 q
  | PosInfinity => true
  | NaN | NegInfinity => false
  end.

Definition ge0 (n : JsNumber) : bool :=
  match n with
  | Finite q => Qle_bool 0 q
  | PosInfinity => true
  | NaN | NegInfinity => false
  end.

Module GameConfiguration.
Record t := {
  maxRounds : JsNumber;
  size : JsNumber;
  speed : JsNumber;
  curveSpeed : JsNumber;
  holeRate : JsNumber;
  holeRateRnd : JsNumber;
  holeSize : JsNumber;
  holeSizeRnd : JsNumber
}.
End GameConfiguration.
Abbreviation GameConfiguration := GameConfiguration.t.

Inductive PresetName := classic | agility | strategy.

Definition configurations (preset : PresetName) : GameConfiguration :=
  match preset with
  | classic =>
      {| GameConfiguration.maxRounds := Finite 15;
         GameConfiguration.size := Finite 3;
         GameConfiguration.speed := Finite (16 # 10);
         GameConfiguration.curveSpeed := Finite 2;
         GameConfiguration.holeRate := Finite 450;
         GameConfiguration.holeRateRnd := Finite 200;
         GameConfiguration.holeSize := Finite 11;
         GameConfiguration.holeSizeRnd := Finite 3 |}
  | agility =>
      {| GameConfiguration.maxRounds := Finite 20;
         GameConfiguration.size := Finite 4;
         GameConfiguration.speed := Finite 3;
         GameConfiguration.curveSpeed := Finite (35 # 10);
         GameConfiguration.holeRate := Finite 400;
         GameConfiguration.holeRateRnd := Finite 200;
         GameConfiguration.holeSize := Finite 9;
         GameConfiguration.holeSizeRnd := Finite 3 |}
  | strategy =>
      {| GameConfiguration.maxRounds := Finite 5;
         GameConfiguration.size := Finite (32 # 10);
         GameConfiguration.speed := Finite 1;
         GameConfiguration.curveSpeed := Finite 2;
         GameConfiguration.holeRate := Finite 220;
         GameConfiguration.holeRateRnd := Finite 100;
         GameConfiguration.holeSize := Finite 14;
         GameConfiguration.holeSizeRnd := Finite 1 |}
  end.

(** The [typeof ... === 'number'] tests hold of every [JsNumber]. *)
Definition validateConfiguration (config : GameConfiguration) : bool :=
  gt0 (GameConfiguration.maxRounds config)
  && gt0 (GameConfiguration.size config)
  && gt0 (GameConfiguration.speed config)
  && gt0 (GameConfiguration.curveSpeed config)
  && gt0 (GameConfiguration.holeRate config)
  && ge0 (GameConfiguration.holeRateRnd config)
  && gt0 (GameConfiguration.holeSize config)
  && ge0 (GameConfiguration.holeSizeRnd config).

(** ** [AdvancedSettings] ([ui/components/AdvancedSettings.ts]) *)

Module AdvancedSettings.

Section Dom.

(** The text of an input's [value], [parseFloat] on it and
    [Number.prototype.toString]. *)
Context {V : Type}.
Variable parseFloat : V -> JsNumber.
Variable toString : JsNumber -> V.

(** [GameConfigurationInputs]: the [value] of each input. *)
Record Inputs := {
  maxRounds : V;
  size : V;
  speed : V;
  curveSpeed : V;
  holeRate : V;
  holeRateRnd : V;
  holeSize : V;
  holeSizeRnd : V
}.

(** The elements, as far as the methods below read or write them. *)
Record Elements := {
  advancedPanelDisplay : string;
  inputs : Inputs
}.

Record t := {
  defaultPreset : PresetName;
  elements : option Elements;
  active : bool
}.

Definition new (defaultPreset : option PresetName) : t :=
  {| defaultPreset := default classic defaultPreset; elements := None;
     active := false |}.

Definition notInitialized : string :=
  "AdvancedSettings not initialized. Call initialize() first.".

Definition set_elements (v : option Elements) (s : t) : t :=
  {| defaultPreset := defaultPreset s; elements := v; active := active s |}.

Definition populateFields (config : GameConfiguration) (s : t) : t :=
  match elements s with
  | None => s
  | Some e =>
      set_elements
        (Some
           {| advancedPanelDisplay := advancedPanelDisplay e;
              inputs :=
                {| maxRounds := toString (GameConfiguration.maxRounds config);
                   size := toString (GameConfiguration.size config);
                   speed := toString (GameConfiguration.speed config);
                   curveSpeed :=
                     toString (GameConfiguration.curveSpeed config);
                   holeRate := toString (GameConfiguration.holeRate config);
                   holeRateRnd :=
                     toString (GameConfiguration.holeRateRnd config);
                   holeSize := toString (GameConfiguration.holeSize config);
                   holeSizeRnd :=
                     toString (GameConfiguration.holeSizeRnd config) |} |}) s
  end.

(** The methods throw an [Error]; its message is the left summand. *)
Definition setPreset (preset : PresetName) (s : t) : string + t :=
  match elements s with
  | None => inl notInitialized
  | Some _ => inr (populateFields (configurations preset) s)
  end.

(** [initialize]: the listeners it adds are not part of the state. *)
Definition initialize (e : Elements) (s : t) : string + t :=
  setPreset (defaultPreset s) (set_elements (Some e) s).

Definition setDisplay (display : string) (s : t) : string + t :=
  match elements s with
  | None => inl notInitialized
  | Some e =>
      inr (set_elements
             (Some {| advancedPanelDisplay := display; inputs := inputs e |})
             s)
  end.

Definition show (s : t) : string + t := setDisplay "block" s.

Definition hide (s : t) : string + t := setDisplay "none" s.

Definition getConfiguration (s : t) : string + GameConfiguration :=
  match elements s with
  | None => inl notInitialized
  | Some e =>
      let inputs := inputs e in
      let maxRounds := parseFloat (maxRounds inputs) in
      let size := parseFloat (size inputs) in
      let speed := parseFloat (speed inputs) in
      let curveSpeed := parseFloat (curveSpeed inputs) in
      let holeRate := parseFloat (holeRate inputs) in
      let holeRateRnd := parseFloat (holeRateRnd inputs) in
      let holeSize := parseFloat (holeSize inputs) in
      let holeSizeRnd := parseFloat (holeSizeRnd inputs) in
      if isNaN maxRounds then inl "Invalid value for maxRounds"
      else if isNaN size then inl "Invalid value for size"
      else if isNaN speed then inl "Invalid value for speed"
      else if isNaN curveSpeed then inl "Invalid value for curveSpeed"
      else if isNaN holeRate then inl "Invalid value for holeRate"
      else if isNaN holeRateRnd then inl "Invalid value for holeRateRnd"
      else if isNaN holeSize then inl "Invalid value for holeSize"
      else if isNaN holeSizeRnd then inl "Invalid value for holeSizeRnd"
      else
        let config :=
          {| GameConfiguration.maxRounds := maxRounds;
             GameConfiguration.size := size;
             GameConfiguration.speed := speed;
             GameConfiguration.curveSpeed := curveSpeed;
             GameConfiguration.holeRate := holeRate;
             GameConfiguration.holeRateRnd := holeRateRnd;
             GameConfiguration.holeSize := holeSize;
             GameConfiguration.holeSizeRnd := holeSizeRnd |} in
        if negb (validateConfiguration config) then
          inl "Invalid configuration values (out of valid range)"
        else inr config
  end.

End Dom.

End AdvancedSettings.

(** ** Vocabulary of the further properties *)

(** Every value of [Math.random()] lies in [0, 1). *)
Definition unitRandom (env : Env) : Prop :=
  forall n, (0 <= Math_random env n < 1)%Q.

(** The width of the play rectangle. *)
Definition gameWidth (env : Env) : Q :=
  (Dimensions.width (dimensions env)
   - Dimensions.scoreWidth (dimensions env))%Q.


(** Every key is held down. *)
Definition allKeys : KeyName -> bool := fun _ => true.

(** The number of players whose dead flag is set. *)
Definition deadCount (players : list Player) : Z :=
  Z.of_nat (length (List.filter dead players)).

(** The names and the scores of the roster. *)
Definition identities (w : World) : list (PlayerName * Z) :=
  (fun p => (name p, score p)) <$> pool w.

(** A player as [startRound()] leaves it: alive, at frame 0, outside a
    hole. *)
Definition atRoundStart (p : Player) : Prop :=
  dead p = false /\ dying p = false /\ afterDieCount p = 0
  /\ counter p = 0 /\ hole p = false /\ holeCounter p = 0.

(** The rational that a finite double of the kernel's own binary64
    arithmetic stands for (0 for the values that are not finite), and
    pairs of doubles on which the operations of [Double] are compared
    with it: among them the operands of the two divisions of
    [#calculateFps] at frames of 48.78048780487805, 48.78048780487806,
    3.2, 16 and 2000.0000000000002 ms, and subnormal ones. *)
Definition valueOf (f : float) : Q :=
  match Prim2SF f with
  | S754_finite s m e =>
      ((if s then -1 else 1) * inject_Z (Z.pos m) * Double.pow2 e)%Q
  | S754_zero _ | S754_infinity _ | S754_nan => 0%Q
  end.

Definition binary64Probes : list (float * float) :=
  [ (0x1.0000000000000p+0, 0x1.8000000000000p+1);
    (0x1.863e7063e7064p+5, 0x1.f400000000000p+9);
    (0x1.0000000000000p+0, 0x1.8f9c18f9c18fap-5);
    (0x1.863e7063e7065p+5, 0x1.f400000000000p+9);
    (0x1.0000000000000p+0, 0x1.8f9c18f9c18fbp-5);
    (0x1.999999999999ap+1, 0x1.f400000000000p+9);
    (0x1.0000000000000p+0, 0x1.a36e2eb1c432dp-9);
    (0x1.f400000000001p+10, 0x1.f400000000000p+9);
    (0x1.0000000000000p+0, 0x1.0000000000001p+1);
    (0x1.f40051eb851ecp+10, 0x1.47ae147ae147bp-8);
    (0x1.0000000000000p+4, 0x1.f400000000000p+9);
    (0x1.0000000000000p+0, 0x1.0624dd2f1a9fcp-6);
    (0x0.0000000000001p-1022, 0x1.8000000000000p+1);
    (0x0.012688b70e62bp-1022, 0x1.c000000000000p+2);
    (0x1.1c37937e08000p+53, 0x1.0000000000000p+0);
    (0x1.3333333333333p-2, 0x1.999999999999ap-4);
    (0x1.e240c9fbe76c9p+16, 0x1.0624dd2f1a9fcp-10) ]%float.

(** The frame rate that [#calculateFps] computes from a positive
    [deltaMs]. *)
Definition rateOf (deltaMs : Q) : Z :=
  let deltaSeconds := Double.div deltaMs 1000 in
  if Qeq_bool deltaSeconds 0 then 999
  else Z.min (Math_round (Double.div 1 deltaSeconds)) 999.

(** The reading of an FPS counter is an integer from 0 to 999. *)
Definition fpsInRange (fc : Fps.t) : Prop := 0 <= Fps.currentFps fc <= 999.

(** The number of times the FPS text was drawn on the context. *)
Definition isFillText (op : DrawOp) : bool :=
  match op with OpFillText _ _ _ _ _ _ => true | _ => false end.

Definition textsDrawn (fc : Fps.t) : Z :=
  Z.of_nat (length (List.filter isFillText (Fps.context fc))).

(** [k] calls of [draw(true, gameWidth, gameHeight)] in a row. *)
Definition drawCalls (k : nat) (gameWidth gameHeight : Q) (fc : Fps.t)
  : Fps.t :=
  Nat.iter k (Fps.draw true gameWidth gameHeight) fc.

(** The sum of the scores on the score board. *)
Definition totalScore (players : list ScoreBoard.Player) : Z :=
  fold_right (fun p acc => ScoreBoard.score p + acc) 0 players.

(** The players that outlive the death of [deadPlayerName]: not dead, and
    of another name. *)
Definition outlives (deadPlayerName : string) (p : ScoreBoard.Player) : bool :=
  negb (String.eqb (ScoreBoard.name p) deadPlayerName)
  && negb (ScoreBoard.dead p).

(** The screen after one call of [listen] per element of [inputs], each
    with the key state of its frame. *)
Definition splashAfter (inputs : list (KeyName -> bool)) (s : Splash.t)
  : Splash.t :=
  fold_left (fun s input => fst (Splash.listen input s)) inputs s.

Definition endScreenAfter (inputs : list (KeyName -> bool)) (s : EndScreen.t)
  : EndScreen.t :=
  fold_left (fun s input => fst (EndScreen.listen input s)) inputs s.

(** What one call of [listen] does to a template: with a loaded sprite,
    the left key sets the ready flag, otherwise the right key clears it. *)
Definition toggled (isKeyPressed : KeyName -> bool)
    (imageRepo : Selector.ImageRepository) (p : PlayerTemplate)
  : PlayerTemplate :=
  if Selector.isImageValid (imageRepo (Template.name p)) then
    if isKeyPressed (Template.left_ p) then Selector.set_ready true p
    else if isKeyPressed (Template.right_ p) then Selector.set_ready false p
    else p
  else p.

(** The manager whose templates are the array the selector has worked
    on (the two share the template objects). *)
Definition set_playerTemplates (v : list PlayerTemplate) (w : World) : World :=
  {| running := running w; roundCount := roundCount w;
     maxRounds := maxRounds w; playerTemplates := v; pool := pool w;
     playerConstants := playerConstants w; onNewRound := onNewRound w;
     onFinish := onFinish w; canvas := canvas w; log := log w;
     rng := rng w |}.

(** The configuration made of the parsed values of the inputs. *)
Definition parsedInputs {V : Type} (parseFloat : V -> JsNumber)
    (i : AdvancedSettings.Inputs (V := V)) : GameConfiguration :=
  {| GameConfiguration.maxRounds := parseFloat (AdvancedSettings.maxRounds i);
     GameConfiguration.size := parseFloat (AdvancedSettings.size i);
     GameConfiguration.speed := parseFloat (AdvancedSettings.speed i);
     GameConfiguration.curveSpeed :=
       parseFloat (AdvancedSettings.curveSpeed i);
     GameConfiguration.holeRate := parseFloat (AdvancedSettings.holeRate i);
     GameConfiguration.holeRateRnd :=
       parseFloat (AdvancedSettings.holeRateRnd i);
     GameConfiguration.holeSize := parseFloat (AdvancedSettings.holeSize i);
     GameConfiguration.holeSizeRnd :=
       parseFloat (AdvancedSettings.holeSizeRnd i) |}.

(** Fixtures: a loaded sprite, a repository that has it for every player,
    and the form of the settings panel before it is filled. *)
Definition loadedSprite : Image :=
  {| complete := true; naturalWidth := 32; imageWidth := 32;
     imageHeight := 32 |}.

Definition allSprites : Selector.ImageRepository := fun _ => Some loadedSprite.

Definition pressing (keys : list KeyName) : KeyName -> bool :=
  fun k => existsb (String.eqb k) keys.

(** The text [draw()] writes for the player at [index] of [totalPlayers]
    on a panel of height [gameHeight]. *)
Definition scoreText (cfg : ScoreBoard.Config) (totalPlayers : nat)
    (gameHeight : Q) (index : nat) (p : ScoreBoard.Player) : DrawOp :=
  OpFillText
    (ScoreBoard.fontStyle cfg +:+ " " +:+ pretty (ScoreBoard.fontSize cfg)
     +:+ "px " +:+ ScoreBoard.fontFamily cfg)
    (ScoreBoard.textAlign cfg) (ScoreBoard.color p)
    (pretty (ScoreBoard.score p))
    (ScoreBoard.width cfg * 3 / 4 - 10)
    (gameHeight * (9 # 10) * inject_Z (Z.of_nat index)
     / inject_Z (Z.of_nat totalPlayers) + 80).

(** * Properties *)

(** ** Comparisons of rationals *)

Lemma Qltb_lt (a b : Q) : Qltb a b = true <-> (a < b)%Q.
Proof.
  unfold Qltb. rewrite negb_true_iff, <- not_true_iff_false, Qle_bool_iff.
  split; [apply Qnot_le_lt | apply Qlt_not_le].
Qed.

Lemma Qltb_ge (a b : Q) : Qltb a b = false <-> (b <= a)%Q.
Proof.
  unfold Qltb. rewrite negb_false_iff. apply Qle_bool_iff.
Qed.

Lemma Qltb_inject_r (a : Q) (r c : Z) :
  (a == inject_Z r)%Q -> Qltb a (inject_Z c) = (r <? c).
Proof.
  intros Ha. destruct (Z.ltb_spec r c) as [H | H].
  - apply Qltb_lt. rewrite Ha. now rewrite <- Zlt_Qlt.
  - apply Qltb_ge. rewrite Ha. now rewrite <- Zle_Qle.
Qed.

(** ** The startup window *)

Lemma inStartupSkip_true (p : Player) :
  2 < counter p -> (inject_Z (counter p) < startTime p)%Q ->
  inStartupSkip p = true.
Proof.
  intros H2 Hs. unfold inStartupSkip.
  apply andb_true_intro. split; [now apply Qltb_lt | now apply Z.ltb_lt].
Qed.

Lemma inStartupSkip_early (p : Player) :
  counter p <= 2 -> inStartupSkip p = false.
Proof.
  intros H. unfold inStartupSkip.
  replace (2 <? counter p) with false; [apply andb_false_r |].
  symmetry. apply Z.ltb_ge. lia.
Qed.

Lemma inStartupSkip_late (p : Player) :
  (startTime p <= inject_Z (counter p))%Q -> inStartupSkip p = false.
Proof.
  intros H. unfold inStartupSkip.
  replace (Qltb (inject_Z (counter p)) (startTime p)) with false; [easy |].
  symmetry. now apply Qltb_ge.
Qed.

(** A frame of the startup delay that returns at once stores the new
    counter and nothing else. *)
Lemma draw_skipped_frame (env : Env) (i : nat) (w : World) (p : Player) :
  pool w !! i = Some p ->
  2 < counter p + 1 ->
  (inject_Z (counter p + 1) < startTime p)%Q ->
  Player_draw env i w = store i (set_counter (counter p + 1) p) w.
Proof.
  intros Hp H2 Hs. unfold Player_draw. rewrite Hp.
  rewrite inStartupSkip_true; [reflexivity | exact H2 | exact Hs].
Qed.

(** C10. A draw call whose incremented frame counter lies in
    [3 .. startTime - 1] changes nothing but that counter: the world after
    the call is the world before it with the counter of this one player
    stored; its position, heading, life flags, hole flag and hole counter,
    the canvas, the log, the random source and the round state are the
    ones from before the call. *)
Theorem draw_in_startup_window_only_counts
    (env : Env) (i : nat) (w : World) (p : Player) :
  pool w !! i = Some p ->
  3 <= counter p + 1 ->
  (inject_Z (counter p + 1) < startTime p)%Q ->
  let w' := Player_draw env i w in
  w' = store i (set_counter (counter p + 1) p) w
  /\ (canvas w' = canvas w /\ log w' = log w /\ rng w' = rng w
      /\ running w' = running w /\ roundCount w' = roundCount w)
  /\ (forall p', pool w' !! i = Some p' ->
        counter p' = counter p + 1
        /\ x_ p' = x_ p /\ y_ p' = y_ p /\ angle p' = angle p
        /\ dying p' = dying p /\ dead p' = dead p
        /\ afterDieCount p' = afterDieCount p
        /\ hole p' = hole p /\ holeCounter p' = holeCounter p
        /\ nextHole p' = nextHole p /\ nextHoleSize p' = nextHoleSize p
        /\ score p' = score p).
Proof.
  intros Hp H3 Hs w'.
  assert (E : w' = store i (set_counter (counter p + 1) p) w)
    by (apply draw_skipped_frame; [exact Hp | lia | exact Hs]).
  split; [exact E |]. rewrite E. split; [easy |].
  intros p' Hp'. unfold store in Hp'. simpl in Hp'.
  rewrite list_lookup_insert_eq in Hp' by (eapply lookup_lt_Some; eauto).
  injection Hp' as <-. easy.
Qed.

Lemma draw_in_startup_window_only_counts_witness :
  let env := mockEnv noKeys blackPixel in
  let w := frames env 2 (testRound env) in
  Player_draw env 0 w = store 0 (set_counter 3 (playerAt 0 w)) w.
Proof.
  intros env w.
  refine (proj1 (draw_in_startup_window_only_counts env 0%nat w
                   (playerAt 0 w) _ _ _)).
  - vm_compute. reflexivity.
  - vm_compute. discriminate.
  - vm_compute. reflexivity.
Defined.

(** ** The ordinary frame of [draw()] *)

Lemma createHole_frame (env : Env) (p : Player) (r : nat) :
  let q := fst (Player_createHole env (p, r)) in
  x_ q = x_ p /\ y_ q = y_ p /\ angle q = angle p
  /\ name q = name p /\ color q = color p /\ size_ q = size_ p
  /\ dying q = dying p /\ dead q = dead p /\ counter q = counter p
  /\ afterDieCount q = afterDieCount p /\ score q = score p
  /\ startTime q = startTime p /\ afterDieTime q = afterDieTime p
  /\ onDeath q = onDeath p
  /\ holeRate q = holeRate p /\ holeRateRnd q = holeRateRnd p
  /\ holeSize q = holeSize p /\ holeSizeRnd q = holeSizeRnd p.
Proof.
  unfold Player_createHole. simpl.
  destruct (Qltb _ _ || hole p); simpl; [| easy].
  destruct (Qltb _ _); simpl; easy.
Qed.

Lemma createHole_holeView (env : Env) (a b : Player) (r : nat) :
  holeView a = holeView b ->
  holeRate a = holeRate b -> holeRateRnd a = holeRateRnd b ->
  holeSize a = holeSize b -> holeSizeRnd a = holeSizeRnd b ->
  holeView (fst (Player_createHole env (a, r)))
  = holeView (fst (Player_createHole env (b, r)))
  /\ snd (Player_createHole env (a, r)) = snd (Player_createHole env (b, r)).
Proof.
  unfold holeView. intros Hv H1 H2 H3 H4.
  injection Hv as Hh Hc Hn Hs.
  unfold Player_createHole. simpl. rewrite Hh, Hc, Hn, Hs, H1, H2, H3, H4.
  destruct (Qltb _ _ || hole b); simpl.
  - destruct (Qltb _ _); simpl; rewrite ?Hn, ?Hs; easy.
  - rewrite Hh, Hn, Hs. easy.
Qed.

Lemma lookup_store (i : nat) (p q : Player) (w : World) :
  pool w !! i = Some p -> pool (store i q w) !! i = Some q.
Proof.
  intros Hp. unfold store. simpl.
  apply list_lookup_insert_eq. eapply lookup_lt_Some; eauto.
Qed.

Lemma draw_ordinary_frame (env : Env) (i : nat) (w : World) (p : Player) :
  pool w !! i = Some p ->
  inStartupSkip (set_counter (counter p + 1) p) = false ->
  deathDue p = false ->
  exists q,
    pool (Player_draw env i w) !! i = Some q
    /\ updated env w (Player_draw env i w) p q.
Proof.
  intros Hp Hskip Hdue. unfold Player_draw. rewrite Hp. cbv zeta.
  rewrite Hskip. unfold deathDue in Hdue. simpl dying. simpl afterDieTime.
  simpl afterDieCount. rewrite Hdue.
  set (p2 := if dying p then _ else _).
  set (m := advance env (steer env p2)).
  destruct (Player_createHole env (m, rng w)) as [q r] eqn:Hq.
  pose proof (createHole_frame env m (rng w)) as F. cbv zeta in F.
  rewrite Hq in F. cbn [fst] in F.
  destruct F as (Fx & Fy & Fa & Fn & Fc & Fs & Fd & Fdd & Fct & Fad & Fsc
                 & Fst & Fat & Fon & Fh1 & Fh2 & Fh3 & Fh4).
  assert (Hm : angle m = angle (steer env p)
               /\ x_ m = (x_ p + speed p * speedMultiplier env
                          * Math_sin env (angle m * Math_PI env / 180))%Q
               /\ y_ m = (y_ p + speed p * speedMultiplier env
                          * Math_cos env (angle m * Math_PI env / 180))%Q
               /\ name m = name p /\ color m = color p /\ size_ m = size_ p
               /\ dying m = dying p /\ dead m = dead p
               /\ counter m = counter p + 1
               /\ afterDieCount m
                  = (if dying p then afterDieCount p + 1
                     else afterDieCount p)
               /\ score m = score p /\ startTime m = startTime p
               /\ afterDieTime m = afterDieTime p
               /\ onDeath m = onDeath p
               /\ holeView m = holeView p
               /\ holeRate m = holeRate p /\ holeRateRnd m = holeRateRnd p
               /\ holeSize m = holeSize p
               /\ holeSizeRnd m = holeSizeRnd p).
  { unfold m, p2, advance, steer. clear.
    destruct (dying p) eqn:Ed; simpl;
      destruct (isKeyPressed env (left_ p)); simpl;
      try destruct (isKeyPressed env (right_ p)); simpl;
      rewrite ?Ed; easy. }
  destruct Hm as (Ma & Mx & My & Mn & Mc & Ms & Md & Mdd & Mct & Mad & Msc
                  & Mst & Mat & Mon & Mv & Mh1 & Mh2 & Mh3 & Mh4).
  destruct (createHole_holeView env m p (rng w) Mv Mh1 Mh2 Mh3 Mh4)
    as [Hv Hr].
  rewrite Hq in Hv, Hr. cbn [fst snd] in Hv, Hr.
  destruct (hole q) eqn:Hh.
  - exists q. split; [eapply lookup_store; eauto |].
    constructor.
    11: { split; [exact Hv | exact Hr]. }
    all: simpl; try congruence; try easy.
    all: try (intros _); repeat split; congruence.
  - simpl canvas.
    set (q' := if Player_isColliding env (canvas w) q then _ else _).
    exists q'. split; [eapply lookup_store; eauto |].
    assert (Q : x_ q' = x_ q /\ y_ q' = y_ q /\ angle q' = angle q
                /\ counter q' = counter q /\ dead q' = dead q
                /\ afterDieCount q' = afterDieCount q /\ hole q' = hole q
                /\ color q' = color q /\ size_ q' = size_ q
                /\ name q' = name q /\ score q' = score q
                /\ startTime q' = startTime q
                /\ afterDieTime q' = afterDieTime q
                /\ onDeath q' = onDeath q
                /\ holeView q' = holeView q
                /\ holeRate q' = holeRate q
                /\ holeRateRnd q' = holeRateRnd q
                /\ holeSize q' = holeSize q
                /\ holeSizeRnd q' = holeSizeRnd q
                /\ dying q'
                   = (dying q || Player_isColliding env (canvas w) q)
                /\ Player_isColliding env (canvas w) q'
                   = Player_isColliding env (canvas w) q).
    { unfold q'. destruct (Player_isColliding env (canvas w) q) eqn:Hc;
        simpl; rewrite ?orb_true_r, ?orb_false_r; easy. }
    destruct Q as (Qx & Qy & Qa & Qct & Qdd & Qad & Qh & Qc & Qs & Qn & Qsc
                   & Qst & Qat & Qon & Qv & Qh1 & Qh2 & Qh3 & Qh4 & Qd & Qi).
    constructor.
    11: { split; [exact (eq_trans Qv Hv) | exact Hr]. }
    all: simpl; try congruence; try easy.
    all: try (intros _; rewrite Qd, Qi, Fd, Md; unfold Player_drawStroke).
    all: repeat split; congruence.
Qed.

Lemma checkRoundOver_frame (w : World) :
  let w' := PlayerManager_checkRoundOver w in
  pool w' = pool w /\ canvas w' = canvas w /\ log w' = log w
  /\ rng w' = rng w /\ maxRounds w' = maxRounds w
  /\ playerTemplates w' = playerTemplates w.
Proof.
  unfold PlayerManager_checkRoundOver.
  destruct (roundOverLoop _ _ _); easy.
Qed.

(** What the frame that carries out a pending death does. *)
Lemma draw_death_frame (env : Env) (i : nat) (w : World) (p : Player) :
  pool w !! i = Some p ->
  inStartupSkip (set_counter (counter p + 1) p) = false ->
  deathDue p = true ->
  let w' := Player_draw env i w in
  pool w' !! i = Some (set_dead true (set_counter (counter p + 1) p))
  /\ canvas w' = canvas w /\ rng w' = rng w
  /\ log w' = match onDeath p with
              | Some _ => EvOnDeath (name p) :: log w
              | None => log w
              end.
Proof.
  intros Hp Hskip Hdue. unfold Player_draw. rewrite Hp. cbv zeta.
  rewrite Hskip. unfold deathDue in Hdue. simpl dying. simpl afterDieTime.
  simpl afterDieCount. rewrite Hdue. simpl onDeath. simpl name.
  set (pd := set_dead true _).
  pose proof (lookup_store i p pd w Hp) as Hs.
  destruct (onDeath p) as [cb |]; [| easy].
  unfold fireOnDeath. destruct cb.
  - match goal with
    | |- context [PlayerManager_checkRoundOver ?v] =>
        destruct (checkRoundOver_frame v) as (E1 & E2 & E3 & E4 & _)
    end.
    rewrite E1, E2, E3, E4. easy.
  - easy.
Qed.

(** ** C5: the startup window with [startTime = 40] *)

(** C5 (as the code has it). With [startTime = 40], a draw call whose
    incremented frame counter lies in [3 .. 39] makes no collision check
    and draws nothing, and the player stays where it is.  On frame
    counters 1 and 2 the call is an ordinary frame: the player steers and
    moves by the adjusted speed, its hole counter advances, and unless it
    is in a hole it makes a collision check and draws its circle at the
    new position. *)
Theorem startup_window_frames
    (env : Env) (i : nat) (w : World) (p : Player) :
  pool w !! i = Some p ->
  startTime p = 40%Q ->
  let w' := Player_draw env i w in
  (3 <= counter p + 1 <= 39 ->
   canvas w' = canvas w /\ log w' = log w
   /\ exists q, pool w' !! i = Some q
                /\ x_ q = x_ p /\ y_ q = y_ p /\ dying q = dying p)
  /\ (1 <= counter p + 1 <= 2 -> deathDue p = false ->
      exists q, pool w' !! i = Some q /\ updated env w w' p q).
Proof.
  intros Hp Hst w'. split.
  - intros [H3 H39].
    assert (E : w' = store i (set_counter (counter p + 1) p) w).
    { apply draw_skipped_frame; [exact Hp | lia |].
      rewrite Hst. unfold Qlt. simpl. lia. }
    rewrite E. repeat split.
    eexists. split; [eapply lookup_store; eauto | easy].
  - intros [H1 H2] Hdue.
    apply draw_ordinary_frame; auto.
    apply inStartupSkip_early. simpl. lia.
Qed.

Lemma startup_window_frames_witness :
  let env := mockEnv noKeys blackPixel in
  let w := testRound env in
  exists q, pool (Player_draw env 0 w) !! 0%nat = Some q
            /\ updated env w (Player_draw env 0 w) (playerAt 0 w) q.
Proof.
  intros env w.
  refine (proj2 (startup_window_frames env 0%nat w (playerAt 0 w) _ _)
            _ _).
  - vm_compute. reflexivity.
  - vm_compute. reflexivity.
  - vm_compute. split; discriminate.
  - vm_compute. reflexivity.
Defined.

(** C5 as stated fails on frame 1: the player of a freshly started round
    that has not moved yet is alive, its first draw call records a
    collision check, and its position after the call differs from the one
    before. *)
Lemma startup_frame_one_moves_and_checks :
  let env := mockEnv noKeys blackPixel in
  let w := testRound env in
  let w' := Player_draw env 0 w in
  startTime (playerAt 0 w) = 40%Q
  /\ dead (playerAt 0 w) = false
  /\ counter (playerAt 0 w') = 1
  /\ log w = [] /\ log w' = [EvIsColliding red]
  /\ ~ (y_ (playerAt 0 w') == y_ (playerAt 0 w))%Q.
Proof.
  vm_compute. repeat split; discriminate.
Qed.

(** ** C4: the boundary test and the hole *)

Lemma outOfBounds_collides (env : Env) (cv : list CanvasOp) (p : Player) :
  outOfBounds env p = true -> Player_isColliding env cv p = true.
Proof. intros H. unfold Player_isColliding. now rewrite H. Qed.

(** C4 (as the code has it). The boundary test is the first thing
    [#isColliding] does, and it decides alone, whatever the pixels are;
    but [draw()] calls [#isColliding] only when the hole flag is unset
    after [#createHole].  On an ordinary frame that ends inside a hole no
    collision of either kind is registered: the dying flag, the log and
    the canvas stay as they were.  On an ordinary frame that ends outside
    a hole, one collision check is made and a position outside the play
    rectangle sets the dying flag. *)
Theorem boundary_check_gated_by_hole
    (env : Env) (i : nat) (w : World) (p : Player) :
  pool w !! i = Some p ->
  inStartupSkip (set_counter (counter p + 1) p) = false ->
  deathDue p = false ->
  let w' := Player_draw env i w in
  exists q,
    pool w' !! i = Some q
    /\ (hole q = true ->
        dying q = dying p /\ log w' = log w /\ canvas w' = canvas w)
    /\ (hole q = false ->
        log w' = EvIsColliding (name p) :: log w
        /\ (outOfBounds env q = true -> dying q = true))
    /\ (forall cv, outOfBounds env q = true ->
                   Player_isColliding env cv q = true).
Proof.
  intros Hp Hskip Hdue w'.
  destruct (draw_ordinary_frame env i w p Hp Hskip Hdue) as (q & Hq & U).
  fold w' in Hq, U. exists q. split; [exact Hq |]. split; [| split].
  - apply (upd_in_hole _ _ _ _ _ U).
  - intros Hh. destruct (upd_out_of_hole _ _ _ _ _ U Hh) as (Hd & Hl & _).
    split; [exact Hl |]. intros Hb. rewrite Hd.
    rewrite (outOfBounds_collides env (canvas w) q Hb). apply orb_true_r.
  - intros cv. apply outOfBounds_collides.
Qed.

Lemma boundary_check_gated_by_hole_witness :
  let env := mockEnv noKeys blackPixel in
  let w := frames env 137 (testRound env) in
  let w' := Player_draw env 0 w in
  exists q,
    pool w' !! 0%nat = Some q
    /\ (hole q = true ->
        dying q = dying (playerAt 0 w) /\ log w' = log w
        /\ canvas w' = canvas w)
    /\ (hole q = false ->
        log w' = EvIsColliding (name (playerAt 0 w)) :: log w
        /\ (outOfBounds env q = true -> dying q = true))
    /\ (forall cv, outOfBounds env q = true ->
                   Player_isColliding env cv q = true).
Proof.
  intros env w.
  refine (boundary_check_gated_by_hole env 0%nat w (playerAt 0 w) _ _ _).
  - vm_compute. reflexivity.
  - vm_compute. reflexivity.
  - vm_compute. reflexivity.
Defined.

(** C4 as stated fails.  In the test round over an all-black canvas the
    first player crosses the wall [y = 0] on its 138th frame, the frame on
    which a hole opens: the call leaves it outside the play rectangle, in
    the hole, not dying, and makes no collision check.  After frame 147,
    its tenth frame beyond the wall, it is still in the hole and still
    neither dying nor dead. *)
Lemma wall_crossed_inside_hole_goes_unnoticed :
  let env := mockEnv noKeys blackPixel in
  let w := frames env 137 (testRound env) in
  let w' := Player_draw env 0 w in
  let w10 := frames env 147 (testRound env) in
  outOfBounds env (playerAt 0 w) = false
  /\ outOfBounds env (playerAt 0 w') = true
  /\ hole (playerAt 0 w') = true
  /\ dying (playerAt 0 w') = false
  /\ log w' = log w
  /\ outOfBounds env (playerAt 0 w10) = true
  /\ hole (playerAt 0 w10) = true
  /\ dying (playerAt 0 w10) = false
  /\ dead (playerAt 0 w10) = false.
Proof.
  vm_compute. repeat split.
Qed.

(** ** C7: the grace frame between a hit and the death *)

Lemma inject_Z_succ_le (q : Q) (c : Z) :
  (q <= inject_Z c)%Q -> (q <= inject_Z (c + 1))%Q.
Proof.
  intros H. eapply Qle_trans; [exact H |]. rewrite <- Zle_Qle. lia.
Qed.

Lemma updated_dying (env : Env) (w w' : World) (p q : Player) :
  updated env w w' p q -> dying p = true -> dying q = true.
Proof.
  intros U Hd. destruct (hole q) eqn:Hh.
  - destruct (upd_in_hole _ _ _ _ _ U Hh) as (E & _). congruence.
  - destruct (upd_out_of_hole _ _ _ _ _ U Hh) as (E & _).
    rewrite E, Hd. reflexivity.
Qed.

(** C7 (as the code has it). Let [afterDieTime = 0] and let the collision
    check of a player report its first hit on frame [n], a frame at or
    after [startTime].  Frame [n + 1] is an ordinary frame: the player is
    not dead after it, it has steered and moved once more and, unless in a
    hole, has checked collisions and drawn.  On frame [n + 2] the dead
    flag is set and the death callback, when there is one, fires once;
    the player does not move and the canvas is not touched on that frame,
    and [animate()] does not call [draw()] on the player afterwards. *)
Theorem death_two_frames_after_hit
    (env0 env1 env2 : Env) (i : nat) (w0 w1 w2 : World)
    (p0 p1 p2 : Player) :
  pool w0 !! i = Some p0 ->
  afterDieTime p0 = 0%Q ->
  dying p0 = false -> afterDieCount p0 = 0 -> dead p0 = false ->
  (startTime p0 <= inject_Z (counter p0 + 1))%Q ->
  pool (Player_draw env0 i w0) !! i = Some p1 ->
  dying p1 = true ->
  pool w1 !! i = Some p1 ->
  pool (Player_draw env1 i w1) !! i = Some p2 ->
  pool w2 !! i = Some p2 ->
  let w1' := Player_draw env1 i w1 in
  let w2' := Player_draw env2 i w2 in
  (dead p1 = false /\ dead p2 = false /\ updated env1 w1 w1' p1 p2)
  /\ exists p3,
       pool w2' !! i = Some p3
       /\ dead p3 = true
       /\ x_ p3 = x_ p2 /\ y_ p3 = y_ p2 /\ angle p3 = angle p2
       /\ canvas w2' = canvas w2
       /\ log w2' = match onDeath p0 with
                    | Some _ => EvOnDeath (name p0) :: log w2
                    | None => log w2
                    end
       /\ forall env3 w3,
            pool w3 !! i = Some p3 -> drawIfAlive env3 w3 i = w3.
Proof.
  intros Hp0 Hadt Hdy0 Hadc0 Hdd0 Hst Hp1 Hdy1 Hw1 Hp2 Hw2 w1' w2'.
  (* frame n *)
  destruct (draw_ordinary_frame env0 i w0 p0 Hp0) as (q1 & Hq1 & U0).
  { now apply inStartupSkip_late. }
  { unfold deathDue. now rewrite Hdy0. }
  rewrite Hp1 in Hq1. injection Hq1 as <-.
  destruct (upd_config _ _ _ _ _ U0) as (N0 & _ & S0 & A0 & O0 & _).
  pose proof (upd_afterDie _ _ _ _ _ U0) as AD0. rewrite Hdy0, Hadc0 in AD0.
  pose proof (upd_counter _ _ _ _ _ U0) as C0.
  pose proof (upd_dead _ _ _ _ _ U0) as D0. rewrite Hdd0 in D0.
  (* frame n + 1 *)
  destruct (draw_ordinary_frame env1 i w1 p1 Hw1) as (q2 & Hq2 & U1).
  { apply inStartupSkip_late. simpl. rewrite S0, C0.
    now apply inject_Z_succ_le. }
  { unfold deathDue. rewrite Hdy1, A0, Hadt, AD0. reflexivity. }
  rewrite Hp2 in Hq2. injection Hq2 as <-.
  destruct (upd_config _ _ _ _ _ U1) as (N1 & _ & S1 & A1 & O1 & _).
  pose proof (upd_afterDie _ _ _ _ _ U1) as AD1. rewrite Hdy1, AD0 in AD1.
  pose proof (upd_counter _ _ _ _ _ U1) as C1.
  pose proof (upd_dead _ _ _ _ _ U1) as D1. rewrite D0 in D1.
  pose proof (updated_dying _ _ _ _ _ U1 Hdy1) as Hdy2.
  split; [easy |].
  (* frame n + 2 *)
  destruct (draw_death_frame env2 i w2 p2 Hw2) as (Hq3 & Hcv & _ & Hlog).
  { apply inStartupSkip_late. simpl. rewrite S1, S0, C1, C0.
    now do 2 apply inject_Z_succ_le. }
  { unfold deathDue. rewrite Hdy2, A1, A0, Hadt, AD1. reflexivity. }
  eexists. split; [exact Hq3 |]. repeat split; try easy.
  - unfold w2'. rewrite Hlog, O1, O0, N1, N0. reflexivity.
  - intros env3 w3 H3. unfold drawIfAlive. rewrite H3. reflexivity.
Qed.

Lemma death_two_frames_after_hit_witness :
  let env := mockEnv noKeys blackPixel in
  let w0 := frames env 147 (testRound env) in
  let w1 := frames env 148 (testRound env) in
  let w2 := frames env 149 (testRound env) in
  let p2 := playerAt 0 w2 in
  exists p3,
    pool (Player_draw env 0 w2) !! 0%nat = Some p3
    /\ dead p3 = true
    /\ x_ p3 = x_ p2 /\ y_ p3 = y_ p2 /\ angle p3 = angle p2
    /\ canvas (Player_draw env 0 w2) = canvas w2
    /\ log (Player_draw env 0 w2)
       = match onDeath (playerAt 0 w0) with
         | Some _ => EvOnDeath (name (playerAt 0 w0)) :: log w2
         | None => log w2
         end
    /\ forall env3 w3,
         pool w3 !! 0%nat = Some p3 -> drawIfAlive env3 w3 0 = w3.
Proof.
  intros env w0 w1 w2 p2.
  refine (proj2 (death_two_frames_after_hit env env env 0%nat w0 w1 w2
                   (playerAt 0 w0) (playerAt 0 w1) p2
                   _ _ _ _ _ _ _ _ _ _ _)).
  - vm_compute. reflexivity.
  - vm_compute. reflexivity.
  - vm_compute. reflexivity.
  - vm_compute. reflexivity.
  - vm_compute. reflexivity.
  - vm_compute. discriminate.
  - vm_compute. reflexivity.
  - vm_compute. reflexivity.
  - vm_compute. reflexivity.
  - vm_compute. reflexivity.
  - vm_compute. reflexivity.
Defined.

(** C7 as stated fails.  Over a canvas that reads back red everywhere the
    first player of the test round is hit on frame 1, inside the startup
    window: it is not dead after frame 2, nor after frame 3, nor after
    frame 39, and dies on frame 40.  Over an all-black canvas it is hit
    by the wall on frame 148, after the startup window: it is not dead
    after frame 149 and dead after frame 150. *)
Lemma hit_is_not_followed_by_death_on_next_frame :
  (let env := mockEnv noKeys redPixel in
   let w := testRound env in
   afterDieTime (playerAt 0 w) = 0%Q
   /\ startTime (playerAt 0 w) = 40%Q
   /\ dying (playerAt 0 w) = false
   /\ dying (playerAt 0 (frames env 1 w)) = true
   /\ dead (playerAt 0 (frames env 2 w)) = false
   /\ dead (playerAt 0 (frames env 3 w)) = false
   /\ dead (playerAt 0 (frames env 39 w)) = false
   /\ dead (playerAt 0 (frames env 40 w)) = true)
  /\ (let env := mockEnv noKeys blackPixel in
      let w := testRound env in
      afterDieTime (playerAt 0 w) = 0%Q
      /\ dying (playerAt 0 (frames env 147 w)) = false
      /\ dying (playerAt 0 (frames env 148 w)) = true
      /\ dead (playerAt 0 (frames env 149 w)) = false
      /\ ~ (y_ (playerAt 0 (frames env 149 w))
            == y_ (playerAt 0 (frames env 148 w)))%Q
      /\ dead (playerAt 0 (frames env 150 w)) = true).
Proof.
  vm_compute. repeat split; discriminate.
Qed.

(** ** C6: the hole cycle without jitter *)

(** The chain of calls behind the first frames of a round with one
    player: every step is decided by evaluating the tests of [draw()]. *)
Ltac callsOfDraw_of_frames env round :=
  repeat
    lazymatch goal with
    | |- callsOfDraw _ _ (playerAt 0 (frames env (S ?j) round)) =>
        first
          [ refine (calls_drawFrame _ _ (playerAt 0 (frames env j round)) _
                      env 0%nat (frames env j round) _ _ _ _ _);
            [ | vm_compute; reflexivity ..]
          | refine (calls_skipped _ _ (playerAt 0 (frames env j round)) _
                      env 0%nat (frames env j round) _ _ _ _);
            [ | vm_compute; reflexivity ..] ]
    | |- callsOfDraw _ _ (playerAt 0 (frames env O round)) =>
        exact (calls_none _)
    end.


Lemma no_jitter (base rnd x : Q) (B : Z) :
  (base == inject_Z B)%Q -> (rnd == 0)%Q ->
  (base + (x * 2 - 1) * rnd == inject_Z B)%Q.
Proof. intros Hb Hr. rewrite Hb, Hr. ring. Qed.

Lemma holeState_init (env : Env) (p0 : Player) (r0 : nat) (R G : Z) :
  (holeRate p0 == inject_Z R)%Q -> (holeSize p0 == inject_Z G)%Q ->
  (holeRateRnd p0 == 0)%Q -> (holeSizeRnd p0 == 0)%Q ->
  0 < R -> 0 < G ->
  holeState R G (fst (Player_init env (p0, r0))) 0.
Proof.
  intros HR HS HRr HSr HRp HSp. unfold Player_init. simpl.
  constructor; simpl; auto using no_jitter.
  - symmetry. apply Z.ltb_ge. lia.
  - lia.
Qed.

Lemma holeState_step (env : Env) (q : Player) (r : nat) (R G j : Z) :
  0 < R -> 0 < G ->
  holeState R G q j ->
  holeState R G (fst (Player_createHole env (q, r)))
    (if j =? R + G then 0 else j + 1).
Proof.
  intros HRp HSp [HR HS HRr HSr Hn Hns Hc Hh Hrg].
  unfold Player_createHole. simpl.
  rewrite (Qltb_inject_r _ R (holeCounter q + 1) Hn), Hc, Hh.
  assert (Hsum : (nextHole q + nextHoleSize q == inject_Z (R + G))%Q).
  { rewrite Hn, Hns, inject_Z_plus. reflexivity. }
  destruct (Z.eqb_spec j (R + G)) as [Hj | Hj].
  - replace ((R <? j + 1) || (R <? j)) with true
      by (symmetry; apply orb_true_iff; left; apply Z.ltb_lt; lia).
    simpl. rewrite (Qltb_inject_r _ (R + G) (j + 1) Hsum).
    replace (R + G <? j + 1) with true by (symmetry; apply Z.ltb_lt; lia).
    simpl. constructor; simpl; auto using no_jitter.
    + symmetry. apply Z.ltb_ge. lia.
    + lia.
  - destruct ((R <? j + 1) || (R <? j)) eqn:Hin.
    + simpl. rewrite (Qltb_inject_r _ (R + G) (j + 1) Hsum).
      replace (R + G <? j + 1) with false
        by (symmetry; apply Z.ltb_ge; lia).
      simpl. constructor; simpl; auto; [| lia].
      symmetry. apply Z.ltb_lt.
      apply orb_true_iff in Hin. destruct Hin as [H | H];
        apply Z.ltb_lt in H; lia.
    + simpl. apply orb_false_iff in Hin. destruct Hin as [H1 H2].
      constructor; simpl; auto; [| lia]. rewrite Hh. congruence.
Qed.

Lemma mod_succ (k P : Z) :
  0 < P -> 0 <= k ->
  (k + 1) mod P = if k mod P =? P - 1 then 0 else k mod P + 1.
Proof.
  intros HP Hk.
  pose proof (Z.mod_pos_bound k P HP) as Hb.
  pose proof (Z.div_mod k P ltac:(lia)) as Hd.
  destruct (Z.eqb_spec (k mod P) (P - 1)) as [E | E].
  - symmetry. apply (Z.mod_unique_pos _ _ (k / P + 1)); lia.
  - symmetry. apply (Z.mod_unique_pos _ _ (k / P)); lia.
Qed.

Lemma holeState_transfer (R G : Z) (a b : Player) (j : Z) :
  holeState R G a j ->
  holeView b = holeView a ->
  holeRate b = holeRate a -> holeRateRnd b = holeRateRnd a ->
  holeSize b = holeSize a -> holeSizeRnd b = holeSizeRnd a ->
  holeState R G b j.
Proof.
  intros [HR HS HRr HSr Hn Hns Hc Hh Hrg] Hv H1 H2 H3 H4.
  unfold holeView in Hv. injection Hv as Vh Vc Vn Vs.
  constructor; congruence.
Qed.

Lemma holeState_draw (env : Env) (i : nat) (w : World) (q q' : Player)
    (R G j : Z) :
  0 < R -> 0 < G ->
  holeState R G q j ->
  updated env w (Player_draw env i w) q q' ->
  holeState R G q' (if j =? R + G then 0 else j + 1).
Proof.
  intros HRp HGp Hs U.
  destruct (upd_config _ _ _ _ _ U) as (_ & _ & _ & _ & _ & C1 & C2 & C3 & C4).
  destruct (upd_hole _ _ _ _ _ U) as [Hv _].
  pose proof (createHole_frame env q (rng w)) as F. cbv zeta in F.
  destruct F as (_ & _ & _ & _ & _ & _ & _ & _ & _ & _ & _ & _ & _ & _
                 & F1 & F2 & F3 & F4).
  eapply holeState_transfer.
  - apply (holeState_step env q (rng w)); eauto.
  - exact Hv.
  - congruence.
  - congruence.
  - congruence.
  - congruence.
Qed.

Lemma holeState_callsOfDraw (R G : Z) (n : nat) (p q : Player) :
  0 < R -> 0 < G ->
  holeState R G p 0 ->
  callsOfDraw n p q ->
  holeState R G q (Z.of_nat n mod (R + G + 1)).
Proof.
  intros HRp HGp H0 Hrun.
  induction Hrun as [p | n p q q' env i w _ IH Hq Hsk Hq'
                     | n p q q' env i w _ IH Hq Hsk Hdue Hq'
                     | n p q q' env i w _ IH Hq Hsk Hdue Hq'].
  - change (Z.of_nat 0) with 0. now rewrite Z.mod_0_l by lia.
  - unfold Player_draw in Hq'. rewrite Hq, Hsk in Hq'.
    rewrite (lookup_store i q _ w Hq) in Hq'. injection Hq' as <-.
    now apply (holeState_transfer R G q); [apply IH | ..].
  - destruct (draw_death_frame env i w q Hq Hsk Hdue) as (Hd & _).
    rewrite Hq' in Hd. injection Hd as ->.
    now apply (holeState_transfer R G q); [apply IH | ..].
  - destruct (draw_ordinary_frame env i w q Hq Hsk Hdue) as (q2 & Hq2 & U).
    rewrite Hq' in Hq2. injection Hq2 as <-.
    rewrite Nat2Z.inj_succ, <- Z.add_1_r, mod_succ by lia.
    replace (R + G + 1 - 1) with (R + G) by lia.
    eapply holeState_draw; eauto.
Qed.

(** Every call of [draw()] on a player of the pool is one of the three
    kinds, so every sequence of calls is counted. *)
Lemma callsOfDraw_next (n : nat) (p q : Player) (env : Env) (i : nat)
    (w : World) :
  callsOfDraw n p q ->
  pool w !! i = Some q ->
  exists q',
    pool (Player_draw env i w) !! i = Some q'
    /\ (callsOfDraw n p q' \/ callsOfDraw (S n) p q').
Proof.
  intros Hrun Hq.
  destruct (inStartupSkip (set_counter (counter q + 1) q)) eqn:Hsk.
  - exists (set_counter (counter q + 1) q).
    assert (E : pool (Player_draw env i w) !! i
                = Some (set_counter (counter q + 1) q)).
    { unfold Player_draw. rewrite Hq, Hsk. now apply (lookup_store i q). }
    split; [exact E |]. left. eapply calls_skipped; eauto.
  - destruct (deathDue q) eqn:Hdue.
    + destruct (draw_death_frame env i w q Hq Hsk Hdue) as (Hd & _).
      eexists. split; [exact Hd |]. left. eapply calls_death; eauto.
    + destruct (draw_ordinary_frame env i w q Hq Hsk Hdue) as (q' & Hq' & _).
      exists q'. split; [exact Hq' |]. right. eapply calls_drawFrame; eauto.
Qed.

(** C6 (as the code has it). Without jitter the hole sequence does not
    depend on the random source and is periodic with period
    [holeRate + holeSize + 1] draw-frames, for every player, whatever
    its startup delay.  Count as draw-frames the calls of [draw()] since
    [init()] that are neither skipped by the startup delay nor the call at
    which a death is due (the other calls return before [#createHole]):
    draw-frame number [n] leaves the hole counter at
    [n mod (holeRate + holeSize + 1)], the player is in a hole exactly
    when that remainder exceeds [holeRate], and the frame draws the trail
    circle exactly when the player is not in a hole.  So the first trail
    run lasts [holeRate] draw-frames, every later trail run lasts
    [holeRate + 1] draw-frames (it begins on the frame that closes the
    hole), and every hole lasts [holeSize] draw-frames. *)
Theorem hole_cycle_without_jitter
    (env0 env : Env) (p0 q : Player) (r0 : nat) (R G : Z) (k i : nat)
    (w : World) :
  (holeRate p0 == inject_Z R)%Q -> (holeSize p0 == inject_Z G)%Q ->
  (holeRateRnd p0 == 0)%Q -> (holeSizeRnd p0 == 0)%Q ->
  0 < R -> 0 < G ->
  callsOfDraw k (fst (Player_init env0 (p0, r0))) q ->
  pool w !! i = Some q ->
  inStartupSkip (set_counter (counter q + 1) q) = false ->
  deathDue q = false ->
  let w' := Player_draw env i w in
  let j := Z.of_nat (S k) mod (R + G + 1) in
  exists q',
    pool w' !! i = Some q'
    /\ holeCounter q' = j
    /\ hole q' = (R <? j)
    /\ canvas w'
       = if R <? j then canvas w
         else FillArc (color q) (x_ q') (y_ q') (size_ q) :: canvas w.
Proof.
  intros HR HG HRr HGr HRp HGp Hrun Hq Hsk Hdue w' j.
  destruct (draw_ordinary_frame env i w q Hq Hsk Hdue) as (q' & Hq' & U).
  fold w' in Hq', U.
  assert (Hs : holeState R G q' j).
  { apply (holeState_callsOfDraw R G (S k)
             (fst (Player_init env0 (p0, r0))) q' HRp HGp).
    - now apply holeState_init.
    - eapply calls_drawFrame; eauto. }
  exists q'. split; [exact Hq' |].
  destruct Hs as [_ _ _ _ _ _ Hc Hh _].
  split; [exact Hc |]. split; [exact Hh |].
  rewrite <- Hh. destruct (hole q') eqn:E.
  - apply (upd_in_hole _ _ _ _ _ U E).
  - apply (upd_out_of_hole _ _ _ _ _ U E).
Qed.

(** The witness is the first frame of the first hole of a player with the
    default startup delay of 40 frames: call 48 of [draw()], which is
    draw-frame 11 because the calls 3 to 39 are skipped. *)
Lemma hole_cycle_without_jitter_witness :
  let env := mockEnv noKeys blackPixel in
  let w := frames env 47 (delayedHoleRound env) in
  let q := playerAt 0 w in
  let w' := Player_draw env 0 w in
  counter q = 47
  /\ exists q',
       pool w' !! 0%nat = Some q'
       /\ holeCounter q' = 11 mod 16
       /\ hole q' = (10 <? 11 mod 16)
       /\ canvas w'
          = if 10 <? 11 mod 16 then canvas w
            else FillArc (color q) (x_ q') (y_ q') (size_ q) :: canvas w.
Proof.
  intros env w q. split; [vm_compute; reflexivity |].
  refine (hole_cycle_without_jitter env env (playerAt 0 delayedHoleManager) q
            0%nat 10 5 10 0 w _ _ _ _ _ _ _ _ _ _).
  - reflexivity.
  - reflexivity.
  - reflexivity.
  - reflexivity.
  - reflexivity.
  - reflexivity.
  - unfold q, w. callsOfDraw_of_frames env (delayedHoleRound env).
  - vm_compute. reflexivity.
  - vm_compute. reflexivity.
  - vm_compute. reflexivity.
Defined.

(** C6 as stated fails for [holeRate = 10], [holeSize = 5]: in the round
    of the hole test the first trail run has 10 draw-frames and the first
    hole 5, but the second trail run has 11 draw-frames, so that on
    draw-frame 26 the code still draws where strict alternation of 10 and
    5 would have opened the second hole. *)
Lemma second_trail_run_is_one_frame_longer :
  let env := mockEnv noKeys blackPixel in
  map (drewOnFrame env (holeTestRound env)) (seq 1 32)
  = (repeat true 10 ++ repeat false 5 ++ repeat true 11 ++ repeat false 5
     ++ [true])%list
  /\ map (fun k => negb (spec_inHole 10 5 (Z.of_nat k))) (seq 1 32)
     = (repeat true 10 ++ repeat false 5 ++ repeat true 10
        ++ repeat false 5 ++ repeat true 2)%list
  /\ drewOnFrame env (holeTestRound env) 26 = true
  /\ spec_inHole 10 5 26 = true.
Proof.
  vm_compute. repeat split.
Qed.

(** ** C8: the empty roster *)

Lemma init_skips_unready (config : PlayerManagerConfig)
    (ts : list PlayerTemplate) (w : World) :
  (forall t, In t ts -> Template.ready t = false) ->
  fold_left (initTemplate config) ts w = w.
Proof.
  revert w. induction ts as [| t ts IH]; intros w H; [reflexivity |].
  simpl. unfold initTemplate at 2.
  rewrite (H t) by (left; reflexivity).
  apply IH. intros t' Ht'. apply H. right. exact Ht'.
Qed.

(** C8 (as the code has it). A roster built from zero ready templates is
    empty, and on an empty pool neither [checkRoundOver()] nor
    [animate()] changes anything: the loop that ends a round runs its
    test once per pool member, so the round that was started stays
    running and [roundCount] stays 0. *)
Theorem empty_roster_round_is_never_over
    (env env' : Env) (config : PlayerManagerConfig) (w : World) :
  (forall t, In t (playerTemplates w) -> Template.ready t = false) ->
  let w' := PlayerManager_startRound env (PlayerManager_init config w) in
  pool w' = []
  /\ running w' = true /\ roundCount w' = 0
  /\ PlayerManager_checkRoundOver w' = w'
  /\ PlayerManager_animate env' w' = w'.
Proof.
  intros H w'. unfold w', PlayerManager_init. cbv zeta.
  rewrite init_skips_unready by exact H.
  repeat split.
Qed.

Lemma empty_roster_round_is_never_over_witness :
  let env := mockEnv noKeys blackPixel in
  let w := PlayerManager_new (Some noReadyTemplates) None None None in
  let w' := PlayerManager_startRound env (PlayerManager_init TEST_CONFIG w) in
  pool w' = []
  /\ running w' = true /\ roundCount w' = 0
  /\ PlayerManager_checkRoundOver w' = w'
  /\ PlayerManager_animate env w' = w'.
Proof.
  intros env w.
  refine (empty_roster_round_is_never_over env env TEST_CONFIG w _).
  simpl. intros t [<- | []]. reflexivity.
Defined.

(** C8 as stated fails: after [init] over templates none of which is
    ready and [startRound()], a call of [checkRoundOver()] leaves
    [running] true and [roundCount] at 0. *)
Lemma over_check_on_empty_pool_does_nothing :
  let env := mockEnv noKeys blackPixel in
  let w :=
    PlayerManager_startRound env
      (PlayerManager_init TEST_CONFIG
         (PlayerManager_new (Some noReadyTemplates) None None None)) in
  pool w = []
  /\ running w = true /\ roundCount w = 0
  /\ running (PlayerManager_checkRoundOver w) = true
  /\ roundCount (PlayerManager_checkRoundOver w) = 0.
Proof.
  vm_compute. repeat split.
Qed.

(** ** C1: scores across [init] *)

Lemma initTemplates_scores (config : PlayerManagerConfig)
    (ts : list PlayerTemplate) (w : World) :
  Forall (fun p => score p = 0) (pool w) ->
  Forall (fun p => score p = 0)
         (pool (fold_left (initTemplate config) ts w)).
Proof.
  revert w. induction ts as [| t ts IH]; intros w H; [exact H |].
  simpl. apply IH. unfold initTemplate.
  destruct (Template.ready t); [| exact H].
  simpl. apply Forall_app. split; [exact H |].
  constructor; [| constructor].
  destruct (find _ (pool w)) as [e |] eqn:He; [| reflexivity].
  simpl. apply find_some in He. destruct He as [Hin _].
  rewrite Forall_forall in H. apply H. apply list_elem_of_In. exact Hin.
Qed.

(** Every player of the roster that [init] builds has score 0, whatever
    the roster before the call held: the pool is emptied before the
    loop, so the search for an existing player of the same name only
    meets players created by this very call. *)
Lemma init_scores_zero (config : PlayerManagerConfig) (w : World) :
  Forall (fun p => score p = 0) (pool (PlayerManager_init config w)).
Proof.
  unfold PlayerManager_init. cbv zeta.
  apply initTemplates_scores. simpl. constructor.
Qed.

(** C1, evaluated on the code. A manager over the test templates is
    initialised, the scores of red and yellow are set to 5 and 3, and the
    manager is initialised again: the new roster has a red and a yellow
    player again, both with score 0. *)
Theorem init_forgets_previous_scores :
  let w := setScore 1 3 (setScore 0 5 (testManager None None)) in
  map (fun p => (name p, score p)) (pool w) = [(red, 5); (yellow, 3)]
  /\ map (fun p => (name p, score p)) (pool (PlayerManager_init TEST_CONFIG w))
     = [(red, 0); (yellow, 0)].
Proof.
  vm_compute. split; reflexivity.
Qed.

(** ** C2: the round counter when several players die in one pass *)

(** C2, evaluated on the code. In the test round over a canvas that reads
    back red everywhere (the setting of the test "should automatically
    check round over when player dies") both players are hit on frame 1
    and die in the 40th [animate()] pass.  Before that pass the round is
    running and [roundCount] is 0; after it the round is over, both death
    callbacks have fired, and [roundCount] is 2. *)
Theorem two_deaths_in_one_pass_count_two_rounds :
  let env := mockEnv noKeys redPixel in
  let before := frames env 39 (testRound env) in
  let after := PlayerManager_animate env before in
  length (pool before) = 2%nat
  /\ running before = true /\ roundCount before = 0
  /\ map dead (pool before) = [false; false]
  /\ map dead (pool after) = [true; true]
  /\ List.filter
       (fun e => match e with EvOnDeath _ => true | _ => false end)
       (log after)
     = [EvOnDeath yellow; EvOnDeath red]
  /\ running after = false /\ roundCount after = 2.
Proof.
  vm_compute. repeat split.
Qed.

(** ** What a draw call leaves alone *)

Lemma drawFrame_store (i : nat) (p : Player) (w w0 : World) :
  pool w0 = pool w -> roundCount w0 = roundCount w ->
  maxRounds w0 = maxRounds w ->
  hostFirings (log w0) = hostFirings (log w) ->
  drawFrame i w (store i p w0).
Proof.
  intros Hp Hr Hm Hl. constructor; simpl; try congruence.
  - rewrite length_insert. congruence.
  - intros j Hj. rewrite list_lookup_insert_ne by congruence. congruence.
  - lia.
Qed.

Lemma checkRoundOver_rounds (w : World) :
  roundCount w <= roundCount (PlayerManager_checkRoundOver w).
Proof.
  unfold PlayerManager_checkRoundOver.
  destruct (roundOverLoop _ _ _); simpl; lia.
Qed.

Lemma draw_frame (env : Env) (i : nat) (w : World) :
  drawFrame i w (Player_draw env i w).
Proof.
  unfold Player_draw. destruct (pool w !! i) as [p |] eqn:Hp.
  2: { constructor; auto; lia. }
  cbv zeta. destruct (inStartupSkip _).
  { now apply drawFrame_store. }
  destruct (_ && _).
  - assert (B : drawFrame i w (store i (set_dead true
                 (set_counter (counter p + 1) p)) w))
      by now apply drawFrame_store.
    simpl onDeath. destruct (onDeath p) as [cb |]; [| exact B].
    unfold fireOnDeath. destruct B as [B1 B2 B3 B4 B5].
    destruct cb.
    + match goal with
      | |- context [PlayerManager_checkRoundOver ?v] =>
          destruct (checkRoundOver_frame v) as (E1 & _ & E3 & _ & E5 & _);
          pose proof (checkRoundOver_rounds v) as E6
      end.
      constructor; rewrite ?E1, ?E3, ?E5; simpl in *; auto.
    + constructor; simpl in *; auto.
  - destruct (Player_createHole env _) as [q r].
    destruct (hole q); now apply drawFrame_store.
Qed.

(** ** C3: the round counter in reachable states *)

Lemma reachable_calls (cs : list Call) (w : World) :
  reachable w -> reachable (calls cs w).
Proof.
  revert w. induction cs as [| c cs IH]; intros w H; [exact H |].
  simpl. apply IH. now apply reach_call.
Qed.

Lemma initPlayers_rounds (env : Env) (l : list nat) (w : World) :
  roundCount (fold_left (initPlayer env) l w) = roundCount w.
Proof.
  revert w. induction l as [| i l IH]; intros w; [reflexivity |].
  simpl. rewrite IH. unfold initPlayer.
  destruct (pool w !! i) as [p |]; [| reflexivity].
  destruct (Player_init env _). reflexivity.
Qed.

Lemma startRound_rounds (env : Env) (w : World) :
  roundCount (PlayerManager_startRound env w) = roundCount w.
Proof.
  unfold PlayerManager_startRound. cbv zeta. now rewrite initPlayers_rounds.
Qed.

Lemma initTemplates_rounds (config : PlayerManagerConfig)
    (ts : list PlayerTemplate) (w : World) :
  roundCount (fold_left (initTemplate config) ts w) = roundCount w.
Proof.
  revert w. induction ts as [| t ts IH]; intros w; [reflexivity |].
  simpl. rewrite IH. unfold initTemplate.
  destruct (Template.ready t); reflexivity.
Qed.

Lemma drawLoop_rounds (env : Env) (l : list nat) (w : World) :
  roundCount w <= roundCount (fold_left (drawIfAlive env) l w).
Proof.
  revert w. induction l as [| i l IH]; intros w; [simpl; lia |].
  simpl. etransitivity; [| apply IH]. unfold drawIfAlive.
  destruct (pool w !! i) as [p |]; [| lia].
  destruct (dead p); [lia |]. apply (df_rounds _ _ _ (draw_frame env i w)).
Qed.

Lemma fireHost_rounds (env : Env) (ev : Event) (cb : option HostCallback)
    (w : World) :
  roundCount (fireHost env ev cb w) = roundCount w.
Proof.
  unfold fireHost. destruct cb as [[|] |]; try reflexivity.
  now rewrite startRound_rounds.
Qed.

Lemma animate_rounds (env : Env) (w : World) :
  roundCount w <= roundCount (PlayerManager_animate env w).
Proof.
  unfold PlayerManager_animate. destruct (running w).
  - apply drawLoop_rounds.
  - destruct (isKeyPressed env "space"); [| lia].
    destruct (roundCount w <? maxRounds w);
      rewrite fireHost_rounds; simpl; lia.
Qed.

(** C3 (as the code has it). In every state reachable by calls of
    [init()], [startRound()], [animate()] and [checkRoundOver()],
    [roundCount] is at least 0. *)
Theorem roundCount_never_negative (w : World) :
  reachable w -> 0 <= roundCount w.
Proof.
  induction 1 as [| c w Hw IH]; [simpl; lia |].
  destruct c as [config | env | env |]; simpl.
  - unfold PlayerManager_init. cbv zeta. rewrite initTemplates_rounds.
    simpl. lia.
  - rewrite startRound_rounds. exact IH.
  - pose proof (animate_rounds env w). lia.
  - pose proof (checkRoundOver_rounds w). lia.
Qed.

Lemma roundCount_never_negative_witness : 0 <= roundCount overCheckedTwice.
Proof.
  apply (roundCount_never_negative overCheckedTwice).
  unfold overCheckedTwice, calls. cbn [fold_left].
  do 4 apply reach_call. apply reach_new.
Defined.

(** C3 as stated fails: the state [overCheckedTwice] is reachable, and in
    it [roundCount] is 2 while [maxRounds] is 1. *)
Lemma roundCount_can_exceed_maxRounds :
  ~ (forall w, reachable w -> 0 <= roundCount w <= maxRounds w).
Proof.
  intros H.
  assert (R : reachable overCheckedTwice)
    by (apply reachable_calls; apply reach_new).
  destruct (H _ R) as [_ Hle]. vm_compute in Hle. apply Hle. reflexivity.
Qed.

(** ** C9: what [animate()] does *)

Lemma drawLoop_filter (env : Env) (w0 : World) (l : list nat) (w : World) :
  NoDup l ->
  (forall j, j ∈ l -> pool w !! j = pool w0 !! j) ->
  fold_left (drawIfAlive env) l w
  = fold_left (fun w i => Player_draw env i w) (List.filter (alive w0) l) w.
Proof.
  revert w. induction l as [| i l IH]; intros w Hnd Hsame; [reflexivity |].
  apply NoDup_cons in Hnd. destruct Hnd as [Hi Hnd].
  assert (Hi0 : pool w !! i = pool w0 !! i)
    by (apply Hsame; left).
  simpl. unfold drawIfAlive at 2, alive. rewrite <- Hi0.
  destruct (pool w !! i) as [p |] eqn:Hp.
  - destruct (dead p); simpl.
    + apply IH; [exact Hnd |]. intros j Hj. apply Hsame. now right.
    + apply IH; [exact Hnd |]. intros j Hj.
      rewrite (df_others _ _ _ (draw_frame env i w)).
      * apply Hsame. now right.
      * intros ->. contradiction.
  - apply IH; [exact Hnd |]. intros j Hj. apply Hsame. now right.
Qed.

Lemma drawLoop_host (env : Env) (l : list nat) (w : World) :
  hostFirings (log (fold_left (drawIfAlive env) l w)) = hostFirings (log w).
Proof.
  revert w. induction l as [| i l IH]; intros w; [reflexivity |].
  simpl. rewrite IH. unfold drawIfAlive.
  destruct (pool w !! i) as [p |]; [| reflexivity].
  destruct (dead p); [reflexivity |].
  apply (df_host _ _ _ (draw_frame env i w)).
Qed.

Lemma initPlayers_log (env : Env) (l : list nat) (w : World) :
  log (fold_left (initPlayer env) l w) = log w.
Proof.
  revert w. induction l as [| i l IH]; intros w; [reflexivity |].
  simpl. rewrite IH. unfold initPlayer.
  destruct (pool w !! i) as [p |]; [| reflexivity].
  destruct (Player_init env _). reflexivity.
Qed.

Lemma fireHost_log (env : Env) (ev : Event) (cb : option HostCallback)
    (w : World) :
  log (fireHost env ev cb w)
  = match cb with Some _ => ev :: log w | None => log w end.
Proof.
  unfold fireHost. destruct cb as [[|] |]; try reflexivity.
  unfold PlayerManager_startRound. cbv zeta. now rewrite initPlayers_log.
Qed.

(** C9 (as the code has it). While [running] is false, [animate()] reads
    the level of the space key on every call: when the key is up nothing
    happens, and when it is down the callback that is present fires on
    this call, whatever the key was on the calls before: [onNewRound]
    if [roundCount < maxRounds], [onFinish] otherwise.  While [running]
    is true, [animate()] fires neither callback and calls [draw()] on the
    players of the roster whose dead flag is unset when the call begins,
    in roster order. *)
Theorem animate_polls_key_level_and_draws_the_living
    (env : Env) (w : World) :
  let w' := PlayerManager_animate env w in
  (running w = false -> isKeyPressed env "space" = false -> w' = w)
  /\ (running w = false -> isKeyPressed env "space" = true ->
      roundCount w < maxRounds w ->
      w' = fireHost env EvOnNewRound (onNewRound w) w
      /\ log w' = match onNewRound w with
                  | Some _ => EvOnNewRound :: log w
                  | None => log w
                  end)
  /\ (running w = false -> isKeyPressed env "space" = true ->
      maxRounds w <= roundCount w ->
      w' = fireHost env EvOnFinish (onFinish w) (set_running false w)
      /\ log w' = match onFinish w with
                  | Some _ => EvOnFinish :: log w
                  | None => log w
                  end)
  /\ (running w = true ->
      w' = fold_left (fun w i => Player_draw env i w)
             (List.filter (alive w) (seq 0 (length (pool w)))) w
      /\ hostFirings (log w') = hostFirings (log w)).
Proof.
  intros w'. unfold w', PlayerManager_animate.
  split; [| split; [| split]].
  - intros -> ->. reflexivity.
  - intros -> -> H. apply Z.ltb_lt in H. rewrite H.
    split; [reflexivity | apply fireHost_log].
  - intros -> -> H. apply Z.ltb_ge in H. rewrite H.
    split; [reflexivity | now rewrite fireHost_log].
  - intros ->. split.
    + apply drawLoop_filter; [apply NoDup_seq | reflexivity].
    + apply drawLoop_host.
Qed.

Lemma animate_polls_key_level_and_draws_the_living_witness :
  let env := mockEnv spaceHeld blackPixel in
  let w := PlayerManager_animate env idleManager in
  let w' := PlayerManager_animate env w in
  w' = fireHost env EvOnNewRound (onNewRound w) w
  /\ log w' = match onNewRound w with
              | Some _ => EvOnNewRound :: log w
              | None => log w
              end.
Proof.
  intros env w.
  refine (proj1 (proj2 (animate_polls_key_level_and_draws_the_living env w))
            _ _ _).
  - vm_compute. reflexivity.
  - vm_compute. reflexivity.
  - vm_compute. reflexivity.
Defined.

(** C9 as stated fails.  The manager is not running and the space key is
    held down over two consecutive calls of [animate()], without being
    released in between: [onNewRound] fires on both calls.  It also fails
    when [onNewRound] starts the next round as [Game.newRound] does: with
    the key held down throughout, the callback fires on the first call,
    the round it starts is played (over a canvas that reads back red it
    ends on its 40th frame), and the callback fires again on the call
    after the round has ended, for the same press. *)
Lemma held_key_fires_on_every_frame :
  (let env := mockEnv spaceHeld blackPixel in
   let w1 := PlayerManager_animate env idleManager in
   let w2 := PlayerManager_animate env w1 in
   running idleManager = false
   /\ isKeyPressed env "space" = true
   /\ log idleManager = []
   /\ log w1 = [EvOnNewRound]
   /\ log w2 = [EvOnNewRound; EvOnNewRound])
  /\ (let env := mockEnv spaceHeld redPixel in
      let w := testManager (Some HostStartRound) (Some HostSpy) in
      hostFirings (log w) = 0%nat
      /\ hostFirings (log (frames env 1 w)) = 1%nat
      /\ running (frames env 1 w) = true
      /\ hostFirings (log (frames env 41 w)) = 1%nat
      /\ running (frames env 41 w) = false
      /\ hostFirings (log (frames env 42 w)) = 2%nat).
Proof.
  vm_compute. repeat split.
Qed.

(** * Further properties of the player *)

(** ** [init()]: the spawn position *)

(** X1. With [Math.random()] in [0, 1) and a play rectangle at least 100
    wide and 100 high, [init()] puts the player at least 50 away from
    every wall, with a heading in [0, 360): the fresh player is inside
    the play rectangle. *)
Theorem init_spawns_inside (env : Env) (p : Player) (r : nat) :
  unitRandom env ->
  (100 <= gameWidth env)%Q ->
  (100 <= Dimensions.height (dimensions env))%Q ->
  let q := fst (Player_init env (p, r)) in
  (50 <= x_ q <= gameWidth env - 50)%Q
  /\ (50 <= y_ q <= Dimensions.height (dimensions env) - 50)%Q
  /\ (0 <= angle q < 360)%Q
  /\ outOfBounds env q = false.
Proof.
  intros Hr Hw Hh q.
  assert (Hx : (50 <= x_ q <= gameWidth env - 50)%Q).
  { unfold q, Player_init, gameWidth in *. simpl.
    destruct (Hr r) as [H0 H1]. split; nra. }
  assert (Hy : (50 <= y_ q <= Dimensions.height (dimensions env) - 50)%Q).
  { unfold q, Player_init. simpl.
    destruct (Hr (S r)) as [H0 H1]. split; nra. }
  assert (Ha : (0 <= angle q < 360)%Q).
  { unfold q, Player_init. simpl.
    destruct (Hr (S (S r))) as [H0 H1]. split; lra. }
  repeat split; try tauto.
  unfold outOfBounds. fold (gameWidth env).
  repeat (apply orb_false_intro); apply Qltb_ge; lra.
Qed.

Lemma init_spawns_inside_witness :
  let env := mockEnv noKeys blackPixel in
  let q := fst (Player_init env (playerAt 0 (testManager None None), 0%nat)) in
  (50 <= x_ q <= gameWidth env - 50)%Q
  /\ (50 <= y_ q <= Dimensions.height (dimensions env) - 50)%Q
  /\ (0 <= angle q < 360)%Q
  /\ outOfBounds env q = false.
Proof.
  intros env.
  refine (init_spawns_inside env (playerAt 0 (testManager None None)) 0%nat
            _ _ _).
  - intros n. simpl. split; [discriminate | reflexivity].
  - vm_compute. discriminate.
  - vm_compute. discriminate.
Defined.

(** ** The jitter of the holes *)




(** ** Ordinary frames: the black raster and the two keys *)

(** X3. On an ordinary frame over a canvas whose pixels all read back
    with red, green and blue at 0 (whatever the alpha channel is), a
    player that was not dying starts dying exactly when the frame leaves
    it outside a hole and outside the play rectangle, whatever its heading
    and the collision tolerance. *)
Theorem black_raster_only_walls_kill
    (env : Env) (i : nat) (w : World) (p : Player) :
  pool w !! i = Some p ->
  inStartupSkip (set_counter (counter p + 1) p) = false ->
  deathDue p = false ->
  (forall x y, nonBlack (getImageData env (canvas w) x y) = false) ->
  exists q,
    pool (Player_draw env i w) !! i = Some q
    /\ dying q = (dying p || (negb (hole q) && outOfBounds env q)).
Proof.
  intros Hp Hskip Hdue Hblack.
  destruct (draw_ordinary_frame env i w p Hp Hskip Hdue) as (q & Hq & U).
  exists q. split; [exact Hq |].
  destruct (hole q) eqn:Hh.
  - destruct (upd_in_hole _ _ _ _ _ U Hh) as (E & _).
    rewrite E. simpl. now rewrite orb_false_r.
  - destruct (upd_out_of_hole _ _ _ _ _ U Hh) as (E & _).
    rewrite E. simpl. f_equal.
    unfold Player_isColliding, samplePixel.
    destruct (outOfBounds env q); [reflexivity |]. now rewrite !Hblack.
Qed.

Lemma black_raster_only_walls_kill_witness :
  let env := mockEnv noKeys {| chR := 0; chG := 0; chB := 0; chA := 255 |} in
  let w := testRound env in
  exists q,
    pool (Player_draw env 0 w) !! 0%nat = Some q
    /\ dying q
       = (dying (playerAt 0 w) || (negb (hole q) && outOfBounds env q)).
Proof.
  intros env w.
  refine (black_raster_only_walls_kill env 0%nat w (playerAt 0 w) _ _ _ _).
  - vm_compute. reflexivity.
  - vm_compute. reflexivity.
  - vm_compute. reflexivity.
  - intros x y. reflexivity.
Defined.

(** X4. On an ordinary frame on which the left key of a player is held,
    the heading grows by the adjusted turn rate whether or not the right
    key is held too: with both keys down the left key wins. *)
Theorem left_key_wins (env : Env) (i : nat) (w : World) (p : Player) :
  pool w !! i = Some p ->
  inStartupSkip (set_counter (counter p + 1) p) = false ->
  deathDue p = false ->
  isKeyPressed env (left_ p) = true ->
  exists q,
    pool (Player_draw env i w) !! i = Some q
    /\ angle q = (angle p + curveSpeed p * speedMultiplier env)%Q.
Proof.
  intros Hp Hskip Hdue Hl.
  destruct (draw_ordinary_frame env i w p Hp Hskip Hdue) as (q & Hq & U).
  exists q. split; [exact Hq |].
  rewrite (upd_angle _ _ _ _ _ U). unfold steer. now rewrite Hl.
Qed.

Lemma left_key_wins_witness :
  let env := mockEnv allKeys blackPixel in
  let w := testRound env in
  let p := playerAt 0 w in
  exists q,
    pool (Player_draw env 0 w) !! 0%nat = Some q
    /\ angle q = (angle p + curveSpeed p * speedMultiplier env)%Q.
Proof.
  intros env w p.
  refine (left_key_wins env 0%nat w p _ _ _ _).
  - vm_compute. reflexivity.
  - vm_compute. reflexivity.
  - vm_compute. reflexivity.
  - reflexivity.
Defined.

(** ** The speed multiplier *)


(** * Further properties of the manager *)

(** ** [startRound()] *)

Lemma Some_eq {A : Type} (a b : A) : Some a = Some b -> a = b.
Proof. intros H. now injection H. Qed.

Lemma Player_init_rng (env : Env) (p : Player) (r : nat) :
  snd (Player_init env (p, r)) = (r + 5)%nat.
Proof. unfold Player_init. simpl. lia. Qed.

Lemma initPlayers_spec (env : Env) (n a : nat) (w : World) :
  (a + n <= length (pool w))%nat ->
  let w' := fold_left (initPlayer env) (seq a n) w in
  length (pool w') = length (pool w)
  /\ rng w' = (rng w + 5 * n)%nat
  /\ running w' = running w /\ canvas w' = canvas w
  /\ forall i p, pool w !! i = Some p ->
       pool w' !! i
       = Some (if (a <=? i)%nat && (i <? a + n)%nat
               then fst (Player_init env (p, (rng w + 5 * (i - a))%nat))
               else p).
Proof.
  revert a w. induction n as [| n IH]; intros a w Hlen w'.
  - unfold w'. simpl. repeat split; try lia.
    intros i p Hp. rewrite Hp. f_equal.
    replace ((i <? a + 0)%nat) with ((i <? a)%nat) by (f_equal; lia).
    destruct (Nat.leb_spec a i), (Nat.ltb_spec i a); try reflexivity; lia.
  - unfold w'. change (seq a (S n)) with (a :: seq (S a) n).
    cbn [fold_left].
    destruct (lookup_lt_is_Some_2 (pool w) a ltac:(lia)) as [pa Hpa].
    destruct (Player_init env (pa, rng w)) as [pa' r'] eqn:Hinit.
    assert (Hr' : r' = (rng w + 5)%nat)
      by (rewrite <- (Player_init_rng env pa (rng w)), Hinit; reflexivity).
    set (w1 := store a pa' (set_rng r' w)).
    assert (E : initPlayer env w a = w1)
      by (unfold initPlayer; rewrite Hpa, Hinit; reflexivity).
    rewrite E.
    assert (L1 : length (pool w1) = length (pool w))
      by (unfold w1, store; simpl; apply length_insert).
    destruct (IH (S a) w1 ltac:(lia)) as (A1 & A2 & A3 & A4 & A5).
    repeat split.
    + congruence.
    + rewrite A2. unfold w1. simpl. lia.
    + rewrite A3. reflexivity.
    + rewrite A4. reflexivity.
    + intros i p Hp. destruct (Nat.eq_dec i a) as [-> | Hne].
      * rewrite (A5 a pa') by (eapply lookup_store; eauto).
        replace ((S a <=? a)%nat) with false by (symmetry; apply Nat.leb_gt; lia).
        replace ((a <=? a)%nat) with true by (symmetry; apply Nat.leb_le; lia).
        replace ((a <? a + S n)%nat) with true
          by (symmetry; apply Nat.ltb_lt; lia).
        cbn [andb]. rewrite Hpa in Hp. injection Hp as <-.
        replace (rng w + 5 * (a - a))%nat with (rng w) by lia.
        now rewrite Hinit.
      * rewrite (A5 i p)
          by (unfold w1, store; simpl;
              rewrite list_lookup_insert_ne by congruence; exact Hp).
        f_equal. destruct (Nat.lt_ge_cases i a) as [Hlt | Hge].
        { replace ((S a <=? i)%nat) with false
            by (symmetry; apply Nat.leb_gt; lia).
          replace ((a <=? i)%nat) with false
            by (symmetry; apply Nat.leb_gt; lia).
          reflexivity. }
        replace (rng w1 + 5 * (i - S a))%nat
          with (rng w + 5 * (i - a))%nat
          by (unfold w1; simpl; rewrite Hr'; lia).
        destruct (Nat.leb_spec (S a) i), (Nat.leb_spec a i),
          (Nat.ltb_spec i (S a + n)), (Nat.ltb_spec i (a + S n));
          try reflexivity; lia.
Qed.

Lemma Player_init_atRoundStart (env : Env) (p : Player) (r : nat) :
  let q := fst (Player_init env (p, r)) in
  atRoundStart q /\ name q = name p /\ score q = score p.
Proof. unfold atRoundStart, Player_init. simpl. tauto. Qed.

Lemma startRound_unfold (env : Env) (w : World) :
  PlayerManager_startRound env w
  = fold_left (initPlayer env) (seq 0 (length (pool w)))
      (set_canvas
         (ClearRect 0 0 (Dimensions.width (dimensions env))
            (Dimensions.height (dimensions env)) :: canvas w)
         (set_running true w)).
Proof. reflexivity. Qed.

(** X6. [startRound()] sets [running], puts one [clearRect] of the whole
    canvas on top of the canvas history, keeps [roundCount] and the
    roster with its names and scores, and runs [init()] once on every
    player, in roster order, each call taking the next five values of
    [Math.random()]: afterwards every player is alive, not dying, at frame
    0 and outside a hole, whatever state the call found it in. *)
Theorem startRound_restarts_everyone (env : Env) (w : World) :
  let w' := PlayerManager_startRound env w in
  running w' = true
  /\ roundCount w' = roundCount w
  /\ canvas w'
     = ClearRect 0 0 (Dimensions.width (dimensions env))
         (Dimensions.height (dimensions env)) :: canvas w
  /\ rng w' = (rng w + 5 * length (pool w))%nat
  /\ (forall i p, pool w !! i = Some p ->
        pool w' !! i
        = Some (fst (Player_init env (p, (rng w + 5 * i)%nat))))
  /\ Forall atRoundStart (pool w')
  /\ identities w' = identities w.
Proof.
  intros w'. unfold w'. rewrite startRound_unfold.
  remember (set_canvas
              (ClearRect 0 0 (Dimensions.width (dimensions env))
                 (Dimensions.height (dimensions env)) :: canvas w)
              (set_running true w)) as w0 eqn:E0.
  assert (F : pool w0 = pool w /\ rng w0 = rng w /\ running w0 = true
              /\ canvas w0
                 = ClearRect 0 0 (Dimensions.width (dimensions env))
                     (Dimensions.height (dimensions env)) :: canvas w
              /\ roundCount w0 = roundCount w)
    by (subst w0; repeat split).
  clear E0. destruct F as (Fp & Fr & Frun & Fc & Frc).
  pose proof (initPlayers_spec env (length (pool w)) 0 w0
                ltac:(rewrite Fp; lia)) as A.
  cbv zeta in A.
  remember (fold_left (initPlayer env) (seq 0 (length (pool w))) w0)
    as w1 eqn:E1.
  assert (Rc : roundCount w1 = roundCount w0)
    by (subst w1; apply initPlayers_rounds).
  clear E1. destruct A as (A1 & A2 & A3 & A4 & A5).
  assert (P : forall i p, pool w !! i = Some p ->
            pool w1 !! i
            = Some (fst (Player_init env (p, (rng w + 5 * i)%nat)))).
  { intros i p Hp. rewrite <- Fp in Hp. rewrite (A5 i p Hp).
    assert (Hi : (i < length (pool w))%nat)
      by (rewrite <- Fp; eapply lookup_lt_Some; eauto).
    rewrite (proj2 (Nat.leb_le 0 i)) by lia.
    rewrite (proj2 (Nat.ltb_lt i (0 + length (pool w)))) by lia.
    cbn [andb]. rewrite Fr.
    replace (i - 0)%nat with i by lia. reflexivity. }
  split; [congruence |].
  split; [congruence |].
  split; [congruence |].
  split; [rewrite A2, Fr; reflexivity |].
  split; [exact P |]. split.
  - apply Forall_lookup. intros i q Hq.
    destruct (lookup_lt_is_Some_2 (pool w) i) as [p Hp].
    { apply lookup_lt_Some in Hq. rewrite A1, Fp in Hq. exact Hq. }
    rewrite (P i p Hp) in Hq. apply Some_eq in Hq. rewrite <- Hq.
    exact (proj1 (Player_init_atRoundStart env p _)).
  - unfold identities. apply list_eq. intros i.
    rewrite !list_lookup_fmap.
    destruct (pool w !! i) as [p |] eqn:Hp.
    + rewrite (P i p Hp).
      destruct (Player_init_atRoundStart env p (rng w + 5 * i)%nat)
        as (_ & Hn & Hs).
      cbn [fmap option_fmap option_map]. now rewrite Hn, Hs.
    + rewrite (proj2 (lookup_ge_None _ _)); [reflexivity |].
      rewrite A1, Fp. apply lookup_ge_None in Hp. exact Hp.
Qed.

(** ** [checkRoundOver()] *)

Lemma deadCount_cons (p : Player) (l : list Player) :
  deadCount (p :: l) = (if dead p then 1 else 0) + deadCount l.
Proof.
  unfold deadCount. simpl. destruct (dead p); simpl length; lia.
Qed.

Lemma deadCount_nonneg (l : list Player) : 0 <= deadCount l.
Proof. unfold deadCount. lia. Qed.

Lemma roundOverLoop_spec (n c : Z) (l : list Player) :
  roundOverLoop n c l = true <-> l <> [] /\ n - 1 <= c + deadCount l.
Proof.
  revert c. induction l as [| p l IH]; intros c.
  - simpl. split; [discriminate | intros [H _]; congruence].
  - simpl roundOverLoop. rewrite deadCount_cons.
    pose proof (deadCount_nonneg l) as Hd.
    destruct (Z.leb_spec (n - 1) (if dead p then c + 1 else c)) as [H | H].
    + split; [| reflexivity]. intros _. split; [discriminate |].
      destruct (dead p); lia.
    + rewrite IH. split.
      * intros [_ H']. split; [discriminate |]. destruct (dead p); lia.
      * intros [_ H']. split; [| destruct (dead p); lia].
        intros ->. unfold deadCount in H'. simpl in H'.
        destruct (dead p); lia.
Qed.

(** X7. On a roster that is not empty, [checkRoundOver()] ends the round
    exactly when the number of dead players is at least the roster size
    minus one: then it clears [running] and adds 1 to [roundCount],
    whether or not the round was still running; otherwise it changes
    nothing.  In particular every call on a roster of one player ends a
    round, even when that player is alive. *)
Theorem checkRoundOver_counts_the_dead (w : World) :
  pool w <> [] ->
  let n := Z.of_nat (length (pool w)) in
  let w' := PlayerManager_checkRoundOver w in
  (n - 1 <= deadCount (pool w) ->
   w' = set_roundCount (roundCount w + 1) (set_running false w))
  /\ (deadCount (pool w) < n - 1 -> w' = w)
  /\ (n = 1 -> running w' = false /\ roundCount w' = roundCount w + 1).
Proof.
  intros Hne n w'. unfold w', PlayerManager_checkRoundOver. fold n.
  pose proof (roundOverLoop_spec n 0 (pool w)) as S.
  pose proof (deadCount_nonneg (pool w)) as Hd.
  repeat split.
  - intros H. rewrite (proj2 S); [reflexivity |]. split; [exact Hne | lia].
  - intros H. destruct (roundOverLoop n 0 (pool w)); [| reflexivity].
    destruct (proj1 S eq_refl) as [_ H']. lia.
  - rewrite (proj2 S); [reflexivity |]. split; [exact Hne | lia].
  - rewrite (proj2 S); [reflexivity |]. split; [exact Hne | lia].
Qed.

Lemma checkRoundOver_counts_the_dead_witness :
  let w := testRound (mockEnv noKeys blackPixel) in
  PlayerManager_checkRoundOver w = w.
Proof.
  intros w.
  refine (proj1 (proj2 (checkRoundOver_counts_the_dead w _)) _).
  - vm_compute. discriminate.
  - vm_compute. reflexivity.
Defined.

(** ** What never changes a score, and what never revives *)

(** What a draw call does to its own player whatever the frame is. *)
Lemma draw_own_player (env : Env) (i : nat) (w : World) (p : Player) :
  pool w !! i = Some p ->
  exists q,
    pool (Player_draw env i w) !! i = Some q
    /\ name q = name p /\ score q = score p
    /\ (dead p = true -> dead q = true)
    /\ (dying p = true -> dying q = true).
Proof.
  intros Hp.
  destruct (inStartupSkip (set_counter (counter p + 1) p)) eqn:Hskip.
  - exists (set_counter (counter p + 1) p). split; [| repeat split; auto].
    unfold Player_draw. rewrite Hp. cbv zeta. rewrite Hskip.
    eapply lookup_store; eauto.
  - destruct (deathDue p) eqn:Hdue.
    + destruct (draw_death_frame env i w p Hp Hskip Hdue) as (Hq & _).
      eexists. split; [exact Hq |]. repeat split; auto.
    + destruct (draw_ordinary_frame env i w p Hp Hskip Hdue)
        as (q & Hq & U).
      exists q. split; [exact Hq |].
      destruct (upd_config _ _ _ _ _ U) as (Hn & Hs & _).
      repeat split; try assumption.
      * intros Hd. rewrite (upd_dead _ _ _ _ _ U). exact Hd.
      * apply (updated_dying _ _ _ _ _ U).
Qed.

Lemma draw_identities (env : Env) (i : nat) (w : World) :
  identities (Player_draw env i w) = identities w.
Proof.
  unfold identities. apply list_eq. intros j. rewrite !list_lookup_fmap.
  destruct (Nat.eq_dec j i) as [-> | Hne].
  - destruct (pool w !! i) as [p |] eqn:Hp.
    + destruct (draw_own_player env i w p Hp) as (q & Hq & Hn & Hs & _).
      rewrite Hq. simpl. now rewrite Hn, Hs.
    + unfold Player_draw. rewrite Hp. now rewrite Hp.
  - now rewrite (df_others _ _ _ (draw_frame env i w) j Hne).
Qed.

Lemma drawLoop_identities (env : Env) (l : list nat) (w : World) :
  identities (fold_left (drawIfAlive env) l w) = identities w.
Proof.
  revert w. induction l as [| i l IH]; intros w; [reflexivity |].
  simpl. rewrite IH. unfold drawIfAlive.
  destruct (pool w !! i) as [p |]; [| reflexivity].
  destruct (dead p); [reflexivity | apply draw_identities].
Qed.

Lemma startRound_identities (env : Env) (w : World) :
  identities (PlayerManager_startRound env w) = identities w.
Proof. apply (startRound_restarts_everyone env w). Qed.

(** X8. No operation of a running match changes who is in the roster or
    any score: [startRound()], [checkRoundOver()] and [animate()] (with
    whatever callbacks, key state and canvas) leave the names and the
    scores of the roster as they were; and every state reached from a new
    manager by the four public operations has all scores at 0. *)
Theorem core_never_changes_a_score :
  (forall env w, identities (PlayerManager_startRound env w) = identities w)
  /\ (forall w, identities (PlayerManager_checkRoundOver w) = identities w)
  /\ (forall env w, identities (PlayerManager_animate env w) = identities w)
  /\ (forall w, reachable w -> Forall (fun p => score p = 0) (pool w)).
Proof.
  assert (S : forall env w,
             identities (PlayerManager_startRound env w) = identities w)
    by apply startRound_identities.
  assert (C : forall w,
             identities (PlayerManager_checkRoundOver w) = identities w).
  { intros w. unfold identities.
    now rewrite (proj1 (checkRoundOver_frame w)). }
  assert (A : forall env w,
             identities (PlayerManager_animate env w) = identities w).
  { intros env w. unfold PlayerManager_animate. destruct (running w).
    - apply drawLoop_identities.
    - destruct (isKeyPressed env "space"); [| reflexivity].
      destruct (roundCount w <? maxRounds w); unfold fireHost.
      + destruct (onNewRound w) as [[|] |]; try reflexivity. now rewrite S.
      + destruct (onFinish w) as [[|] |]; try reflexivity. now rewrite S. }
  repeat split; try assumption.
  intros w Hw.
  assert (Z0 : forall v, Forall (fun x : PlayerName * Z => snd x = 0)
                                (identities v)
                         -> Forall (fun p => score p = 0) (pool v)).
  { intros v H. unfold identities in H.
    apply Forall_fmap in H. exact H. }
  assert (Z1 : forall v, Forall (fun p => score p = 0) (pool v)
                         -> Forall (fun x : PlayerName * Z => snd x = 0)
                                   (identities v)).
  { intros v H. unfold identities. apply Forall_fmap. exact H. }
  induction Hw as [| c w Hw IH]; [constructor |].
  destruct c as [config | env | env |]; simpl.
  - apply init_scores_zero.
  - apply Z0. rewrite S. now apply Z1.
  - apply Z0. rewrite A. now apply Z1.
  - apply Z0. rewrite C. now apply Z1.
Qed.

Lemma drawLoop_dead_frozen (env : Env) (l : list nat) (w : World)
    (j : nat) (p : Player) :
  pool w !! j = Some p -> dead p = true ->
  pool (fold_left (drawIfAlive env) l w) !! j = Some p.
Proof.
  intros Hp Hdead. revert w Hp.
  induction l as [| i l IH]; intros w Hp; [exact Hp |].
  simpl. apply IH. unfold drawIfAlive.
  destruct (Nat.eq_dec j i) as [-> | Hne].
  - rewrite Hp, Hdead. exact Hp.
  - destruct (pool w !! i) as [pi |]; [| exact Hp].
    destruct (dead pi); [exact Hp |].
    now rewrite (df_others _ _ _ (draw_frame env i w) j Hne).
Qed.

(** X9. [draw()] never clears a dead or a dying flag, and while a round is
    running [animate()] leaves every dead player exactly as it is,
    whatever the other players do on that frame. *)
Theorem the_dead_stay_dead (env : Env) (w : World) (j : nat) (p : Player) :
  pool w !! j = Some p ->
  (forall i, exists q,
      pool (Player_draw env i w) !! j = Some q
      /\ (dead p = true -> dead q = true)
      /\ (dying p = true -> dying q = true))
  /\ (running w = true -> dead p = true ->
      pool (PlayerManager_animate env w) !! j = Some p).
Proof.
  intros Hp. split.
  - intros i. destruct (Nat.eq_dec j i) as [-> | Hne].
    + destruct (draw_own_player env i w p Hp) as (q & Hq & _ & _ & H).
      exists q. split; [exact Hq | exact H].
    + exists p. split; [| split; auto].
      now rewrite (df_others _ _ _ (draw_frame env i w) j Hne).
  - intros Hrun Hdead. unfold PlayerManager_animate. rewrite Hrun.
    now apply drawLoop_dead_frozen.
Qed.

Lemma the_dead_stay_dead_witness :
  let env := mockEnv noKeys blackPixel in
  let r := testRound env in
  let p := set_dead true (playerAt 0 r) in
  let w := store 0 p r in
  pool (PlayerManager_animate env w) !! 0%nat = Some p.
Proof.
  intros env r p w.
  refine (proj2 (the_dead_stay_dead env w 0%nat p _) _ _).
  - vm_compute. reflexivity.
  - vm_compute. reflexivity.
  - reflexivity.
Defined.

(** ** A death and the end of the round *)

(** X10. When a player of a manager's roster dies, the round-over check
    runs inside that very [draw()] call, on the roster that already
    holds the player as dead: if at most one player is left alive, the
    round is over and counted when the call returns; otherwise the round
    state is untouched. *)
Theorem last_death_ends_the_round
    (env : Env) (i : nat) (w : World) (p : Player) :
  pool w !! i = Some p ->
  inStartupSkip (set_counter (counter p + 1) p) = false ->
  deathDue p = true ->
  onDeath p = Some CheckRoundOverCb ->
  let w' := Player_draw env i w in
  let after := <[i := set_dead true (set_counter (counter p + 1) p)]> (pool w) in
  let n := Z.of_nat (length (pool w)) in
  pool w' = after
  /\ (n - 1 <= deadCount after ->
      running w' = false /\ roundCount w' = roundCount w + 1)
  /\ (deadCount after < n - 1 ->
      running w' = running w /\ roundCount w' = roundCount w).
Proof.
  intros Hp Hskip Hdue Hcb w' after n.
  set (v := set_log (EvOnDeath (name p) :: log w)
              (store i (set_dead true (set_counter (counter p + 1) p)) w)).
  assert (E : w' = PlayerManager_checkRoundOver v).
  { unfold w', Player_draw. rewrite Hp. cbv zeta. rewrite Hskip.
    unfold deathDue in Hdue. simpl dying. simpl afterDieTime.
    simpl afterDieCount. rewrite Hdue. simpl onDeath. rewrite Hcb.
    reflexivity. }
  assert (Hv : pool v = after) by reflexivity.
  assert (Hlen : Z.of_nat (length (pool v)) = n)
    by (rewrite Hv; unfold after, n; now rewrite length_insert).
  assert (Hne : pool v <> []).
  { intros H0. apply (f_equal length) in H0. rewrite Hv in H0.
    unfold after in H0. rewrite length_insert in H0.
    apply lookup_lt_Some in Hp. simpl in H0. lia. }
  pose proof (checkRoundOver_counts_the_dead v Hne) as C.
  cbv zeta in C. rewrite Hlen, Hv in C. destruct C as (C1 & C2 & _).
  rewrite E. split; [| split].
  - rewrite (proj1 (checkRoundOver_frame v)). exact Hv.
  - intros H. rewrite (C1 H). split; reflexivity.
  - intros H. rewrite (C2 H). split; reflexivity.
Qed.

Lemma last_death_ends_the_round_witness :
  let env := mockEnv noKeys redPixel in
  let w := frames env 39 (testRound env) in
  let p := playerAt 0 w in
  let w' := Player_draw env 0 w in
  running w' = false /\ roundCount w' = roundCount w + 1.
Proof.
  intros env w p.
  refine (proj1 (proj2 (last_death_ends_the_round env 0%nat w p _ _ _ _)) _).
  - vm_compute. reflexivity.
  - vm_compute. reflexivity.
  - vm_compute. reflexivity.
  - vm_compute. reflexivity.
  - vm_compute. discriminate.
Defined.

(** ** [init()]: the roster *)

Lemma initTemplates_spec (config : PlayerManagerConfig)
    (ts : list PlayerTemplate) (w : World) :
  Forall (fun p => score p = 0) (pool w) ->
  let w' := fold_left (initTemplate config) ts w in
  pool w'
  = (pool w
     ++ ((fun t => createPlayer t (Config.physics config)
                     (playerConstants w) (Some CheckRoundOverCb))
         <$> List.filter Template.ready ts))%list
  /\ running w' = running w /\ maxRounds w' = maxRounds w
  /\ canvas w' = canvas w /\ log w' = log w /\ rng w' = rng w
  /\ playerTemplates w' = playerTemplates w
  /\ playerConstants w' = playerConstants w.
Proof.
  revert w. induction ts as [| t ts IH]; intros w Hz w'.
  - unfold w'. simpl. now rewrite app_nil_r.
  - unfold w'. cbn [fold_left List.filter].
    destruct (Template.ready t) eqn:Hr.
    + set (w1 := set_pool
                   (pool w
                    ++ [createPlayer t (Config.physics config)
                          (playerConstants w) (Some CheckRoundOverCb)])%list
                   w).
      assert (E : initTemplate config w t = w1).
      { unfold initTemplate. rewrite Hr.
        destruct (find _ (pool w)) as [e |] eqn:He; [| reflexivity].
        apply find_some in He. destruct He as [Hin _].
        rewrite Forall_forall in Hz.
        rewrite (Hz e) by (apply list_elem_of_In; exact Hin).
        reflexivity. }
      rewrite E.
      destruct (IH w1) as (A1 & A2 & A3 & A4 & A5 & A6 & A7 & A8).
      { unfold w1. simpl. apply Forall_app. split; [exact Hz |].
        constructor; [reflexivity | constructor]. }
      rewrite A1, A2, A3, A4, A5, A6, A7, A8. unfold w1. simpl.
      rewrite <- app_assoc. repeat split.
    + assert (E : initTemplate config w t = w)
        by (unfold initTemplate; now rewrite Hr).
      rewrite E. apply IH. exact Hz.
Qed.

(** X11. [init(config)] builds the roster from scratch: one new player
    per template whose ready flag is set, in the order of the templates,
    each made from its template, the physics of [config] and the manager's
    constants, with score 0 and with the round-over check as its death
    callback.  It sets [maxRounds], resets [roundCount] to 0, and leaves
    [running], the canvas and the templates as they are. *)
Theorem init_builds_the_ready_roster
    (config : PlayerManagerConfig) (w : World) :
  let w' := PlayerManager_init config w in
  pool w'
  = ((fun t => createPlayer t (Config.physics config) (playerConstants w)
                 (Some CheckRoundOverCb))
     <$> List.filter Template.ready (playerTemplates w))
  /\ roundCount w' = 0
  /\ maxRounds w' = Config.maxRounds config
  /\ running w' = running w
  /\ canvas w' = canvas w
  /\ playerTemplates w' = playerTemplates w.
Proof.
  intros w'. unfold w', PlayerManager_init. cbv zeta.
  set (w0 := set_pool [] _).
  destruct (initTemplates_spec config (playerTemplates w0) w0)
    as (A1 & A2 & A3 & A4 & _ & _ & A7 & _); [constructor |].
  rewrite initTemplates_rounds. rewrite A1, A2, A3, A4, A7.
  repeat split.
Qed.

(** * Properties of the keyboard manager *)

Lemma isKeyPressed_insert (m : gmap KeyName bool) (k k' : KeyName) (b : bool) :
  Keyboard.isKeyPressed {| Keyboard.keyStatus := <[k := b]> m |} k'
  = if decide (k = k') then b
    else Keyboard.isKeyPressed {| Keyboard.keyStatus := m |} k'.
Proof.
  unfold Keyboard.isKeyPressed. simpl. rewrite lookup_insert.
  destruct (decide (k = k')); reflexivity.
Qed.

(** X12. A key-down event for a code of the table makes its key read as
    pressed, a key-up event makes it read as released, both prevent the
    default action and neither changes the reading of any other key. *)
Theorem key_events_set_only_their_key
    (km : Keyboard.t) (c : Z) (k : KeyName) :
  Keyboard.keyName c = Some k ->
  let down := Keyboard.handleKeyDown km c in
  let up := Keyboard.handleKeyUp km c in
  Keyboard.isKeyPressed (fst down) k = true /\ snd down = true
  /\ Keyboard.isKeyPressed (fst up) k = false /\ snd up = true
  /\ forall k', k' <> k ->
       Keyboard.isKeyPressed (fst down) k' = Keyboard.isKeyPressed km k'
       /\ Keyboard.isKeyPressed (fst up) k' = Keyboard.isKeyPressed km k'.
Proof.
  intros Hk down up. unfold down, up, Keyboard.handleKeyDown,
    Keyboard.handleKeyUp. rewrite Hk. simpl fst. simpl snd.
  rewrite !isKeyPressed_insert. rewrite !decide_True by reflexivity.
  repeat split; try reflexivity.
  - rewrite isKeyPressed_insert. rewrite decide_False by congruence.
    now destruct km.
  - rewrite isKeyPressed_insert. rewrite decide_False by congruence.
    now destruct km.
Qed.

Lemma key_events_set_only_their_key_witness :
  let down := Keyboard.handleKeyDown Keyboard.new 32 in
  let up := Keyboard.handleKeyUp Keyboard.new 32 in
  Keyboard.isKeyPressed (fst down) "space" = true /\ snd down = true
  /\ Keyboard.isKeyPressed (fst up) "space" = false /\ snd up = true
  /\ forall k', k' <> "space" ->
       Keyboard.isKeyPressed (fst down) k'
       = Keyboard.isKeyPressed Keyboard.new k'
       /\ Keyboard.isKeyPressed (fst up) k'
          = Keyboard.isKeyPressed Keyboard.new k'.
Proof.
  refine (key_events_set_only_their_key Keyboard.new 32 "space" _).
  vm_compute. reflexivity.
Defined.

(** X13. Pressing and then releasing a key that read as released gives
    back the reading of every key; a code outside the table is ignored by
    both handlers, which then do not prevent the default action. *)
Theorem key_release_undoes_key_press (km : Keyboard.t) (c : Z) :
  (forall k, Keyboard.keyName c = Some k ->
             Keyboard.isKeyPressed km k = false) ->
  (forall k',
     Keyboard.isKeyPressed
       (fst (Keyboard.handleKeyUp (fst (Keyboard.handleKeyDown km c)) c)) k'
     = Keyboard.isKeyPressed km k')
  /\ (Keyboard.keyName c = None ->
      Keyboard.handleKeyDown km c = (km, false)
      /\ Keyboard.handleKeyUp km c = (km, false)).
Proof.
  intros Hup. split.
  - intros k'. unfold Keyboard.handleKeyDown, Keyboard.handleKeyUp.
    destruct (Keyboard.keyName c) as [k |] eqn:Hk; simpl; [| reflexivity].
    rewrite isKeyPressed_insert.
    destruct (decide (k = k')) as [<- | Hne].
    + symmetry. now apply Hup.
    + rewrite isKeyPressed_insert. rewrite decide_False by congruence.
      now destruct km.
  - intros Hk. unfold Keyboard.handleKeyDown, Keyboard.handleKeyUp.
    now rewrite Hk.
Qed.

Lemma key_release_undoes_key_press_witness :
  Keyboard.isKeyPressed
    (fst (Keyboard.handleKeyUp
            (fst (Keyboard.handleKeyDown Keyboard.new 81)) 81)) "q"
  = Keyboard.isKeyPressed Keyboard.new "q".
Proof.
  refine (proj1 (key_release_undoes_key_press Keyboard.new 81 _) "q").
  intros k Hk. vm_compute in Hk. injection Hk as <-. vm_compute. reflexivity.
Defined.

Lemma initialKeyStatus_spec (l : list (Z * KeyName))
    (m : gmap KeyName bool) (k : KeyName) (b : bool) :
  foldl (fun status entry => <[snd entry := false]> status) m l !! k = Some b ->
  (m !! k = Some b) \/ (k ∈ (snd <$> l) /\ b = false).
Proof.
  revert m. induction l as [| e l IH]; intros m H; [left; exact H |].
  simpl in H. destruct (IH _ H) as [H' | [H1 H2]].
  - rewrite lookup_insert in H'.
    destruct (decide (snd e = k)) as [<- | _]; [| left; exact H'].
    right. split; [left | congruence].
  - right. split; [right; exact H1 | exact H2].
Qed.

(** X14. A key of the code table reads as released in a new keyboard
    manager and after [reset()], whatever was pressed before, and
    [reset()] keeps the set of names in the status table. *)
Theorem reset_releases_every_key (km : Keyboard.t) (c : Z) (k : KeyName) :
  Keyboard.keyName c = Some k ->
  Keyboard.isKeyPressed (Keyboard.reset km) k = false
  /\ Keyboard.isKeyPressed Keyboard.new k = false
  /\ dom (Keyboard.keyStatus (Keyboard.reset km))
     = dom (Keyboard.keyStatus km).
Proof.
  intros _. repeat split.
  - unfold Keyboard.isKeyPressed, Keyboard.reset. simpl.
    rewrite lookup_fmap. now destruct (Keyboard.keyStatus km !! k).
  - unfold Keyboard.isKeyPressed.
    destruct (Keyboard.keyStatus Keyboard.new !! k) as [b |] eqn:E;
      [| reflexivity].
    apply initialKeyStatus_spec in E.
    destruct E as [E | [_ E]]; [discriminate | exact E].
  - unfold Keyboard.reset. simpl. apply dom_fmap_L.
Qed.

Lemma reset_releases_every_key_witness :
  let km := fst (Keyboard.handleKeyDown Keyboard.new 37) in
  Keyboard.isKeyPressed km "left" = true
  /\ Keyboard.isKeyPressed (Keyboard.reset km) "left" = false
  /\ Keyboard.isKeyPressed Keyboard.new "left" = false
  /\ dom (Keyboard.keyStatus (Keyboard.reset km))
     = dom (Keyboard.keyStatus km).
Proof.
  intros km. split; [vm_compute; reflexivity |].
  refine (reset_releases_every_key km 37 "left" _).
  vm_compute. reflexivity.
Defined.

(** X15. With the keyboard manager as input manager: once the key-down
    event of the space bar (code 32) has arrived, a call of [animate()]
    on a manager that is not running fires the callback that is present,
    [onNewRound] while rounds are left and [onFinish] otherwise; a key-up
    event of the space bar before the call makes the call do nothing. *)
Theorem space_bar_reaches_the_manager
    (km : Keyboard.t) (env : Env) (w : World) :
  running w = false ->
  let pressed := fst (Keyboard.handleKeyDown km 32) in
  let released := fst (Keyboard.handleKeyUp pressed 32) in
  log (PlayerManager_animate (withKeyboard pressed env) w)
  = match (if roundCount w <? maxRounds w then onNewRound w else onFinish w)
    with
    | Some _ =>
        (if roundCount w <? maxRounds w then EvOnNewRound else EvOnFinish)
        :: log w
    | None => log w
    end
  /\ PlayerManager_animate (withKeyboard released env) w = w.
Proof.
  intros Hrun pressed released.
  assert (Hs : Keyboard.keyName 32 = Some "space")
    by (vm_compute; reflexivity).
  assert (Hp : Keyboard.isKeyPressed pressed "space" = true).
  { unfold pressed, Keyboard.handleKeyDown. rewrite Hs.
    cbn [fst]. rewrite isKeyPressed_insert. now rewrite decide_True. }
  assert (Hr : Keyboard.isKeyPressed released "space" = false).
  { unfold released. generalize pressed. intros km'.
    unfold Keyboard.handleKeyUp. rewrite Hs.
    cbn [fst]. rewrite isKeyPressed_insert. now rewrite decide_True. }
  clearbody released. clearbody pressed.
  unfold PlayerManager_animate. rewrite Hrun. simpl isKeyPressed.
  rewrite Hp, Hr. split; [| reflexivity].
  destruct (roundCount w <? maxRounds w); now rewrite fireHost_log.
Qed.

Lemma space_bar_reaches_the_manager_witness :
  let env := mockEnv noKeys blackPixel in
  let pressed := fst (Keyboard.handleKeyDown Keyboard.new 32) in
  let released := fst (Keyboard.handleKeyUp pressed 32) in
  log (PlayerManager_animate (withKeyboard pressed env) idleManager)
  = match (if roundCount idleManager <? maxRounds idleManager
           then onNewRound idleManager else onFinish idleManager)
    with
    | Some _ =>
        (if roundCount idleManager <? maxRounds idleManager
         then EvOnNewRound else EvOnFinish)
        :: log idleManager
    | None => log idleManager
    end
  /\ PlayerManager_animate (withKeyboard released env) idleManager
     = idleManager.
Proof.
  intros env.
  refine (space_bar_reaches_the_manager Keyboard.new env idleManager _).
  reflexivity.
Defined.

(** * Properties of the rounding to doubles *)

Lemma pow2_pos (k : Z) : (0 < Double.pow2 k)%Q.
Proof. apply Qpower_0_lt. reflexivity. Qed.

Lemma pow2_add (a b : Z) :
  (Double.pow2 (a + b) == Double.pow2 a * Double.pow2 b)%Q.
Proof. apply Qpower_plus. discriminate. Qed.

Lemma pow2_lt (a b : Z) : a < b -> (Double.pow2 a < Double.pow2 b)%Q.
Proof. intros H. apply Qpower_lt_compat_l; [exact H | reflexivity]. Qed.

Lemma pow2_le (a b : Z) : a <= b -> (Double.pow2 a <= Double.pow2 b)%Q.
Proof. intros H. apply Qpower_le_compat_l; [exact H | discriminate]. Qed.

Lemma pow2_lt_inv (a b : Z) : (Double.pow2 a < Double.pow2 b)%Q -> a < b.
Proof. intros H. eapply Qpower_lt_compat_l_inv; [exact H | reflexivity]. Qed.

Lemma pow2_inject (k : Z) : 0 <= k -> (Double.pow2 k == inject_Z (2 ^ k))%Q.
Proof. intros H. unfold Double.pow2. now rewrite Zpower_Qpower. Qed.

(** [ilog2 q] is the integer part of the binary logarithm of [q]. *)
Lemma ilog2_spec (q : Q) :
  (0 < q)%Q ->
  (Double.pow2 (Double.ilog2 q) <= q < Double.pow2 (Double.ilog2 q + 1))%Q.
Proof.
  intros Hq. destruct q as [n d]. 
  assert (Hn : 0 < n) by (unfold Qlt in Hq; simpl in Hq; lia).
  unfold Double.ilog2. cbn [Qnum Qden].
  set (a := Z.log2 n). set (b := Z.log2 (Z.pos d)).
  assert (Ha : 0 <= a) by apply Z.log2_nonneg.
  assert (Hb : 0 <= b) by apply Z.log2_nonneg.
  destruct (Z.log2_spec n Hn) as [A1 A2]. fold a in A1, A2.
  destruct (Z.log2_spec (Z.pos d) eq_refl) as [B1 B2]. fold b in B1, B2.
  assert (Hd : (0 < inject_Z (Z.pos d))%Q) by reflexivity.
  assert (E : (n # d == inject_Z n / inject_Z (Z.pos d))%Q)
    by apply Qmake_Qdiv.
  (* upper: n/d < 2^(a-b+1) ; lower: 2^(a-b-1) <= n/d *)
  assert (U : (n # d < Double.pow2 (a - b + 1))%Q).
  { rewrite E. apply Qlt_shift_div_r; [exact Hd |].
    assert (P : (Double.pow2 (a + 1) == Double.pow2 (a - b + 1) * Double.pow2 b)%Q).
    { rewrite <- pow2_add. now replace (a - b + 1 + b) with (a + 1) by lia. }
    apply Qlt_le_trans with (Double.pow2 (a + 1)).
    - rewrite pow2_inject by lia. rewrite <- Zlt_Qlt.
      now replace (a + 1) with (Z.succ a) by lia.
    - rewrite P. apply Qmult_le_l; [apply pow2_pos |].
      rewrite pow2_inject by lia. now rewrite <- Zle_Qle. }
  assert (L : (Double.pow2 (a - b - 1) <= n # d)%Q).
  { rewrite E. apply Qle_shift_div_l; [exact Hd |].
    assert (P : (Double.pow2 a == Double.pow2 (a - b - 1) * Double.pow2 (b + 1))%Q).
    { rewrite <- pow2_add. now replace (a - b - 1 + (b + 1)) with a by lia. }
    apply Qle_trans with (Double.pow2 a).
    - rewrite P. apply Qmult_le_l; [apply pow2_pos |].
      rewrite pow2_inject by lia. rewrite <- Zle_Qle.
      replace (b + 1) with (Z.succ b) by lia. lia.
    - rewrite pow2_inject by lia. now rewrite <- Zle_Qle. }
  destruct (Qle_bool (Double.pow2 (a - b)) (n # d)) eqn:C.
  - apply Qle_bool_iff in C. split; assumption.
  - assert (C' : (n # d < Double.pow2 (a - b))%Q).
    { apply Qnot_le_lt. intros H. apply Qle_bool_iff in H. congruence. }
    split; [exact L |]. now replace (a - b - 1 + 1) with (a - b) by lia.
Qed.

Lemma ilog2_unique (q : Q) (k : Z) :
  (Double.pow2 k <= q < Double.pow2 (k + 1))%Q -> Double.ilog2 q = k.
Proof.
  intros [H1 H2].
  assert (Hq : (0 < q)%Q) by (eapply Qlt_le_trans; [apply pow2_pos | exact H1]).
  destruct (ilog2_spec q Hq) as [S1 S2].
  assert (Double.ilog2 q < k + 1)
    by (apply pow2_lt_inv; eapply Qle_lt_trans; eauto).
  assert (k < Double.ilog2 q + 1)
    by (apply pow2_lt_inv; eapply Qle_lt_trans; eauto).
  lia.
Qed.

Lemma ilog2_mono (a b : Q) :
  (0 < a)%Q -> (a <= b)%Q -> Double.ilog2 a <= Double.ilog2 b.
Proof.
  intros Ha Hab.
  assert (Hb : (0 < b)%Q) by (eapply Qlt_le_trans; eauto).
  destruct (ilog2_spec a Ha) as [A1 _]. destruct (ilog2_spec b Hb) as [_ B2].
  assert (Double.ilog2 a < Double.ilog2 b + 1); [| lia].
  apply pow2_lt_inv. eapply Qle_lt_trans; [exact A1 |].
  eapply Qle_lt_trans; eauto.
Qed.

Lemma ulpExp_mono (a b : Q) :
  (0 < a)%Q -> (a <= b)%Q -> Double.ulpExp a <= Double.ulpExp b.
Proof.
  intros Ha Hab. unfold Double.ulpExp.
  pose proof (ilog2_mono a b Ha Hab). lia.
Qed.

(** Rounding to the nearest integer, ties to even. *)
Lemma roundEven_cases (q : Q) :
  let f := Qfloor q in
  (Double.roundEven q = f /\ (q - inject_Z f <= 1 # 2)%Q)
  \/ (Double.roundEven q = f + 1 /\ (1 # 2 <= q - inject_Z f)%Q).
Proof.
  intros f. unfold Double.roundEven. fold f.
  destruct (q - inject_Z f ?= 1 # 2)%Q eqn:C.
  - apply (proj2 (Qeq_alt _ _)) in C.
    destruct (Z.even f); [left | right]; split;
      try reflexivity; rewrite C; apply Qle_refl.
  - apply (proj2 (Qlt_alt _ _)) in C.
    left. split; [reflexivity | now apply Qlt_le_weak].
  - apply (proj2 (Qgt_alt _ _)) in C.
    right. split; [reflexivity | now apply Qlt_le_weak].
Qed.

Lemma roundEven_error (q : Q) :
  (inject_Z (Double.roundEven q) - (1 # 2) <= q
   <= inject_Z (Double.roundEven q) + (1 # 2))%Q.
Proof.
  pose proof (Qfloor_le q) as F1. pose proof (Qlt_floor q) as F2.
  rewrite inject_Z_plus in F2. change (inject_Z 1) with 1%Q in F2.
  destruct (roundEven_cases q) as [[-> H] | [-> H]].
  - split; lra.
  - rewrite inject_Z_plus. change (inject_Z 1) with 1%Q. split; lra.
Qed.

Lemma roundEven_mono (a b : Q) :
  (a <= b)%Q -> Double.roundEven a <= Double.roundEven b.
Proof.
  intros Hab.
  pose proof (Qfloor_resp_le _ _ Hab) as Hf.
  destruct (Z.eq_dec (Qfloor a) (Qfloor b)) as [E | E].
  - unfold Double.roundEven. rewrite E.
    assert (Hr : (a - inject_Z (Qfloor b) <= b - inject_Z (Qfloor b))%Q) by lra.
    destruct (a - inject_Z (Qfloor b) ?= 1 # 2)%Q eqn:Ca;
      destruct (b - inject_Z (Qfloor b) ?= 1 # 2)%Q eqn:Cb;
      try lia; try (destruct (Z.even (Qfloor b)); lia);
      exfalso;
      repeat match goal with
             | H : (_ ?= _)%Q = Eq |- _ => apply (proj2 (Qeq_alt _ _)) in H
             | H : (_ ?= _)%Q = Lt |- _ => apply (proj2 (Qlt_alt _ _)) in H
             | H : (_ ?= _)%Q = Gt |- _ => apply (proj2 (Qgt_alt _ _)) in H
             end; lra.
  - destruct (roundEven_cases a) as [[-> _] | [-> _]];
      destruct (roundEven_cases b) as [[-> _] | [-> _]]; lia.
Qed.

Lemma roundEven_Z (n : Z) : Double.roundEven (inject_Z n) = n.
Proof.
  unfold Double.roundEven. rewrite Qfloor_Z.
  assert (E : (inject_Z n - inject_Z n ?= 1 # 2)%Q = Lt).
  { apply (proj1 (Qlt_alt _ _)). generalize (inject_Z n). intros z. lra. }
  now rewrite E.
Qed.

Lemma roundEven_nonneg (q : Q) : (0 <= q)%Q -> 0 <= Double.roundEven q.
Proof.
  intros H. apply (roundEven_mono 0 q) in H. exact H.
Qed.

(** Rounding of a positive rational. *)
Lemma roundPos_nonneg (q : Q) : (0 <= q)%Q -> (0 <= Double.roundPos q)%Q.
Proof.
  intros H. unfold Double.roundPos.
  apply Qmult_le_0_compat; [| apply Qlt_le_weak, pow2_pos].
  change 0%Q with (inject_Z 0). rewrite <- Zle_Qle.
  apply roundEven_nonneg. apply Qle_shift_div_l; [apply pow2_pos |].
  now rewrite Qmult_0_l.
Qed.

Lemma scaled_error (p z m : Q) :
  (0 < p)%Q -> (m - (1 # 2) <= z)%Q -> (z <= m + (1 # 2))%Q ->
  (m * p - p / 2 <= z * p <= m * p + p / 2)%Q.
Proof.
  intros Hp H1 H2.
  assert (A : ((m - (1 # 2)) * p <= z * p)%Q)
    by (apply Qmult_le_compat_r; lra).
  assert (B : (z * p <= (m + (1 # 2)) * p)%Q)
    by (apply Qmult_le_compat_r; lra).
  assert (Ea : (m * p - p / 2 == (m - (1 # 2)) * p)%Q) by field.
  assert (Eb : (m * p + p / 2 == (m + (1 # 2)) * p)%Q) by field.
  rewrite Ea, Eb. split; assumption.
Qed.

Lemma roundPos_error (q : Q) :
  (Double.roundPos q - Double.pow2 (Double.ulpExp q) / 2 <= q
   <= Double.roundPos q + Double.pow2 (Double.ulpExp q) / 2)%Q.
Proof.
  unfold Double.roundPos.
  pose proof (pow2_pos (Double.ulpExp q)) as Hp.
  pose proof (roundEven_error (q / Double.pow2 (Double.ulpExp q))) as [H1 H2].
  assert (E : (q == q / Double.pow2 (Double.ulpExp q)
                    * Double.pow2 (Double.ulpExp q))%Q)
    by (field; intros Hz; rewrite Hz in Hp; discriminate).
  pose proof (scaled_error _ _ _ Hp H1 H2) as [S1 S2].
  rewrite <- E in S1, S2. split; assumption.
Qed.

Lemma roundPos_below (q : Q) (k : Z) :
  (0 < q)%Q -> Double.ulpExp q <= k -> (q <= Double.pow2 (k + 53))%Q ->
  (Double.roundPos q <= Double.pow2 (k + 53))%Q.
Proof.
  intros Hq Hk Hb. unfold Double.roundPos. set (e := Double.ulpExp q) in *.
  pose proof (pow2_pos e) as Hp.
  assert (Hz : (q / Double.pow2 e <= inject_Z (2 ^ (k + 53 - e)))%Q).
  { apply Qle_shift_div_r; [exact Hp |].
    rewrite <- pow2_inject by lia. rewrite <- pow2_add.
    now replace (k + 53 - e + e) with (k + 53) by lia. }
  apply roundEven_mono in Hz. rewrite roundEven_Z in Hz.
  rewrite Zle_Qle in Hz. rewrite <- pow2_inject in Hz by lia.
  replace (k + 53) with (k + 53 - e + e) by lia. rewrite pow2_add.
  apply Qmult_le_compat_r; [exact Hz | now apply Qlt_le_weak].
Qed.

Lemma roundPos_above (q : Q) (k : Z) :
  Double.ulpExp q <= k -> (Double.pow2 k <= q)%Q ->
  (Double.pow2 k <= Double.roundPos q)%Q.
Proof.
  intros Hk Hb. unfold Double.roundPos. set (e := Double.ulpExp q) in *.
  pose proof (pow2_pos e) as Hp.
  assert (Hz : (inject_Z (2 ^ (k - e)) <= q / Double.pow2 e)%Q).
  { apply Qle_shift_div_l; [exact Hp |].
    rewrite <- pow2_inject by lia. rewrite <- pow2_add.
    now replace (k - e + e) with k by lia. }
  apply roundEven_mono in Hz. rewrite roundEven_Z in Hz.
  rewrite Zle_Qle in Hz. rewrite <- pow2_inject in Hz by lia.
  replace k with (k - e + e) at 1 by lia. rewrite pow2_add.
  apply Qmult_le_compat_r; [exact Hz | now apply Qlt_le_weak].
Qed.

Lemma roundPos_mono (a b : Q) :
  (0 < a)%Q -> (a <= b)%Q -> (Double.roundPos a <= Double.roundPos b)%Q.
Proof.
  intros Ha Hab.
  assert (Hb : (0 < b)%Q) by (eapply Qlt_le_trans; eauto).
  pose proof (ulpExp_mono a b Ha Hab) as He.
  destruct (Z.eq_dec (Double.ulpExp a) (Double.ulpExp b)) as [E | E].
  - unfold Double.roundPos. rewrite E.
    pose proof (pow2_pos (Double.ulpExp b)) as Hp.
    apply Qmult_le_compat_r; [| now apply Qlt_le_weak].
    rewrite <- Zle_Qle. apply roundEven_mono.
    apply Qle_shift_div_l; [exact Hp |].
    assert (X : (a / Double.pow2 (Double.ulpExp b)
                 * Double.pow2 (Double.ulpExp b) == a)%Q) by (field; lra).
    now rewrite X.
  - (* the unit of [b] is larger: a power of two lies between the two *)
    assert (Hlt : Double.ulpExp a < Double.ulpExp b) by lia.
    assert (Eb : Double.ulpExp b = Double.ilog2 b - 52)
      by (unfold Double.ulpExp in *; lia).
    assert (Ea : Double.ilog2 a - 52 <= Double.ulpExp a)
      by (unfold Double.ulpExp; lia).
    destruct (ilog2_spec a Ha) as [_ A2]. destruct (ilog2_spec b Hb) as [B1 _].
    apply Qle_trans with (Double.pow2 (Double.ulpExp a + 53)).
    + apply roundPos_below; [exact Ha | lia |].
      apply Qlt_le_weak. eapply Qlt_le_trans; [exact A2 |].
      apply pow2_le. lia.
    + apply Qle_trans with (Double.pow2 (Double.ilog2 b)).
      * apply pow2_le. lia.
      * apply roundPos_above; [lia | exact B1].
Qed.

Lemma round_pos (q : Q) : (0 < q)%Q -> Double.round q = Double.roundPos q.
Proof.
  intros H. unfold Double.round.
  assert (E : (q ?= 0)%Q = Gt) by (apply (proj1 (Qgt_alt _ _)); exact H).
  now rewrite E.
Qed.

Lemma round_nonneg (q : Q) : (0 <= q)%Q -> (0 <= Double.round q)%Q.
Proof.
  intros H. unfold Double.round.
  destruct (q ?= 0)%Q eqn:C.
  - apply Qle_refl.
  - apply (proj2 (Qlt_alt _ _)) in C. lra.
  - apply roundPos_nonneg. exact H.
Qed.

Lemma round_mono (a b : Q) :
  (0 < a)%Q -> (a <= b)%Q -> (Double.round a <= Double.round b)%Q.
Proof.
  intros Ha Hab.
  assert (Hb : (0 < b)%Q) by (eapply Qlt_le_trans; eauto).
  rewrite (round_pos a Ha), (round_pos b Hb). now apply roundPos_mono.
Qed.

(** In the range of the normal doubles the relative error of the rounding
    is at most [2 ^ -53]. *)
Lemma round_relative_error (q : Q) :
  (Double.pow2 (-1022) <= q)%Q ->
  (q * (1 - Double.pow2 (-53)) <= Double.round q
   <= q * (1 + Double.pow2 (-53)))%Q.
Proof.
  intros Hn.
  assert (Hq : (0 < q)%Q) by (eapply Qlt_le_trans; [apply pow2_pos | exact Hn]).
  rewrite (round_pos q Hq).
  destruct (ilog2_spec q Hq) as [S1 _].
  assert (Hl : -1022 <= Double.ilog2 q).
  { assert (-1022 < Double.ilog2 q + 1); [| lia].
    apply pow2_lt_inv. eapply Qle_lt_trans; [exact Hn |].
    apply (ilog2_spec q Hq). }
  assert (Ee : Double.ulpExp q = Double.ilog2 q - 52)
    by (unfold Double.ulpExp; lia).
  pose proof (roundPos_error q) as [E1 E2]. rewrite Ee in E1, E2.
  assert (P : (Double.pow2 (Double.ilog2 q - 52) / 2
               == Double.pow2 (Double.ilog2 q) * Double.pow2 (-53))%Q).
  { rewrite <- pow2_add.
    replace (Double.ilog2 q + -53) with (Double.ilog2 q - 52 + -1) by lia.
    rewrite pow2_add. change (Double.pow2 (-1)) with (1 # 2)%Q. field. }
  rewrite P in E1, E2.
  pose proof (pow2_pos (-53)) as U.
  revert U S1 E1 E2.
  generalize (Double.pow2 (-53)) (Double.pow2 (Double.ilog2 q))
    (Double.roundPos q).
  intros u t r U S1 E1 E2. split; nra.
Qed.

Lemma round_nonpos (q : Q) : (q <= 0)%Q -> (Double.round q <= 0)%Q.
Proof.
  intros H. unfold Double.round.
  destruct (q ?= 0)%Q eqn:C.
  - apply Qle_refl.
  - assert (N : (0 <= Double.roundPos (- q))%Q)
      by (apply roundPos_nonneg; lra).
    lra.
  - apply (proj2 (Qgt_alt _ _)) in C. lra.
Qed.

(** On the probes, [Double.div] and [Double.sub] give what the division
    and the subtraction of binary64 give. *)
Lemma double_agrees_with_binary64 :
  forallb
    (fun ab : float * float =>
       Qeq_bool (valueOf (fst ab / snd ab)%float)
         (Double.div (valueOf (fst ab)) (valueOf (snd ab)))
       && Qeq_bool (valueOf (fst ab - snd ab)%float)
            (Double.sub (valueOf (fst ab)) (valueOf (snd ab))))
    binary64Probes
  = true.
Proof. vm_compute. reflexivity. Qed.

(** The doubles above 2000 begin at [2000 + 2 ^ -42]. *)
Lemma round_above_2000 (x : Q) :
  (2000 < Double.round x)%Q ->
  (2000 + (1 # 4398046511104) <= Double.round x)%Q.
Proof.
  intros H.
  assert (Hx : (0 < x)%Q).
  { apply Qnot_le_lt. intros Hc. apply round_nonpos in Hc. lra. }
  rewrite (round_pos x Hx) in *.
  destruct (Qlt_le_dec x 1024) as [L | L].
  - assert (B : (Double.roundPos x <= Double.roundPos 1024)%Q)
      by (apply roundPos_mono; lra).
    assert (E : (Double.roundPos 1024 <= 1024)%Q)
      by (vm_compute; discriminate).
    lra.
  - destruct (Qlt_le_dec x 2048) as [U | U].
    + assert (El : Double.ilog2 x = 10)
        by (apply ilog2_unique; split; [exact L | exact U]).
      assert (Ee : Double.ulpExp x = -42)
        by (unfold Double.ulpExp; rewrite El; reflexivity).
      unfold Double.roundPos in *. rewrite Ee in *.
      change (Double.pow2 (-42)) with (1 # 4398046511104)%Q in *.
      set (m := Double.roundEven (x / (1 # 4398046511104))) in *.
      assert (Hm : 8796093022208000 < m).
      { rewrite Zlt_Qlt. generalize dependent (inject_Z m). intros M H.
        change (inject_Z 8796093022208000) with 8796093022208000%Q. lra. }
      assert (Hm' : (inject_Z (8796093022208000 + 1) <= inject_Z m)%Q)
        by (rewrite <- Zle_Qle; lia).
      generalize dependent (inject_Z m). intros M H Hm'.
      change (inject_Z (8796093022208000 + 1))
        with 8796093022208001%Q in Hm'. lra.
    + assert (B : (Double.roundPos 2048 <= Double.roundPos x)%Q)
        by (apply roundPos_mono; lra).
      assert (E : (2048 <= Double.roundPos 2048)%Q)
        by (vm_compute; discriminate).
      lra.
Qed.

(** * Properties of the FPS counter *)

Lemma Math_round_ge (n : Z) (q : Q) :
  (inject_Z n <= q + (1 # 2))%Q -> n <= Math_round q.
Proof.
  intros H. unfold Math_round. apply Qfloor_resp_le in H.
  now rewrite Qfloor_Z in H.
Qed.

Lemma Math_round_lt (n : Z) (q : Q) :
  (q + (1 # 2) < inject_Z n)%Q -> Math_round q < n.
Proof.
  intros H. unfold Math_round. rewrite Zlt_Qlt.
  eapply Qle_lt_trans; [apply Qfloor_le | exact H].
Qed.

Lemma reciprocal_antitone (a b : Q) :
  (0 < a)%Q -> (a <= b)%Q -> (1 / b <= 1 / a)%Q.
Proof.
  intros Ha Hab.
  assert (Hb : (0 < b)%Q) by lra.
  apply Qle_shift_div_l; [exact Ha |].
  assert (E : (1 / b * a == a / b)%Q) by (field; lra).
  rewrite E. apply Qle_shift_div_r; lra.
Qed.

Lemma reciprocal_pos (a : Q) : (0 < a)%Q -> (0 < 1 / a)%Q.
Proof.
  intros Ha. apply Qlt_shift_div_l; [exact Ha |]. now rewrite Qmult_0_l.
Qed.

Lemma calculateFps_positive (fc : Fps.t) (now : Q) :
  let deltaMs := Double.sub now (Fps.lastUpdateTime fc) in
  (0 < deltaMs)%Q -> Fps.calculateFps fc now = rateOf deltaMs.
Proof.
  intros d Hd. unfold Fps.calculateFps. fold d.
  assert (E : Qle_bool d 0 = false)
    by (apply negb_true_iff; exact (proj2 (Qltb_lt 0 d) Hd)).
  now rewrite E.
Qed.

Lemma deltaSeconds_nonneg (d : Q) :
  (0 < d)%Q -> (0 <= Double.div d 1000)%Q.
Proof.
  intros Hd. apply round_nonneg. apply Qle_shift_div_l; lra.
Qed.

Lemma Qeq_bool_false_pos (a : Q) :
  (0 <= a)%Q -> Qeq_bool a 0 = false -> (0 < a)%Q.
Proof.
  intros H0 E. apply Qnot_le_lt. intros Hc.
  assert (Hz : (a == 0)%Q) by lra.
  apply Qeq_bool_iff in Hz. congruence.
Qed.

Lemma Qeq_bool_pos_false (a : Q) : (0 < a)%Q -> Qeq_bool a 0 = false.
Proof.
  intros H. destruct (Qeq_bool a 0) eqn:E; [| reflexivity].
  apply Qeq_bool_iff in E. lra.
Qed.

Lemma rateOf_range (d : Q) : (0 < d)%Q -> 0 <= rateOf d <= 999.
Proof.
  intros Hd. unfold rateOf.
  pose proof (deltaSeconds_nonneg d Hd) as Hs.
  destruct (Qeq_bool (Double.div d 1000) 0) eqn:E; [lia |].
  pose proof (Qeq_bool_false_pos _ Hs E) as Hp.
  assert (Hf : (0 <= Double.div 1 (Double.div d 1000))%Q)
    by (apply round_nonneg, Qlt_le_weak, reciprocal_pos, Hp).
  generalize dependent (Double.div 1 (Double.div d 1000)). intros f Hf.
  assert (0 <= Math_round f)
    by (apply Math_round_ge; change (inject_Z 0) with 0%Q; lra).
  lia.
Qed.

(** The longer the frame, the lower the rate. *)
Lemma rateOf_antitone (d1 d2 : Q) :
  (0 < d1)%Q -> (d1 <= d2)%Q -> rateOf d2 <= rateOf d1.
Proof.
  intros H1 H12.
  assert (H2 : (0 < d2)%Q) by lra.
  pose proof (rateOf_range d2 H2) as R2.
  unfold rateOf in *.
  assert (Hs : (Double.div d1 1000 <= Double.div d2 1000)%Q).
  { apply round_mono.
    - apply Qlt_shift_div_l; lra.
    - apply Qmult_le_compat_r; [exact H12 | discriminate]. }
  pose proof (deltaSeconds_nonneg d1 H1) as N1.
  destruct (Qeq_bool (Double.div d1 1000) 0) eqn:E1; [lia |].
  pose proof (Qeq_bool_false_pos _ N1 E1) as P1.
  assert (P2 : (0 < Double.div d2 1000)%Q) by lra.
  rewrite (Qeq_bool_pos_false _ P2).
  assert (Hf : (Double.div 1 (Double.div d2 1000)
                <= Double.div 1 (Double.div d1 1000))%Q).
  { apply round_mono; [now apply reciprocal_pos |].
    now apply reciprocal_antitone. }
  assert (Math_round (Double.div 1 (Double.div d2 1000))
          <= Math_round (Double.div 1 (Double.div d1 1000))); [| lia].
  unfold Math_round. apply Qfloor_resp_le. lra.
Qed.

Lemma calculateFps_range (fc : Fps.t) (now : Q) :
  fpsInRange fc -> 0 <= Fps.calculateFps fc now <= 999.
Proof.
  intros H.
  destruct (Qlt_le_dec 0 (Double.sub now (Fps.lastUpdateTime fc)))
    as [Hd | Hd].
  - rewrite (calculateFps_positive fc now Hd). now apply rateOf_range.
  - unfold Fps.calculateFps. apply Qle_bool_iff in Hd. now rewrite Hd.
Qed.

Lemma steps_range (steps : list Fps.Step) (fc : Fps.t) :
  fpsInRange fc -> fpsInRange (foldl Fps.step fc steps).
Proof.
  revert fc. induction steps as [| s steps IH]; intros fc H; [exact H |].
  simpl. apply IH. destruct s as [now | now]; simpl.
  - exact (calculateFps_range fc now H).
  - unfold fpsInRange. simpl. lia.
Qed.

(** X16. The reading of a new FPS counter is 0, and whatever calls of
    [update()] and [reset()] follow, at whatever clock values, the reading
    [currentFps] is an integer from 0 to 999. *)
Theorem fps_reading_stays_in_range
    (now : Q) (config : option Fps.FpsConfig) (steps : list Fps.Step) :
  Fps.currentFps (Fps.new now config) = 0
  /\ 0 <= Fps.currentFps (foldl Fps.step (Fps.new now config) steps) <= 999.
Proof.
  split; [reflexivity |]. apply steps_range. unfold fpsInRange. simpl. lia.
Qed.

(** The rounding error of the two divisions stays within the margin
    [2 ^ -51] of the statement below. *)
Lemma rate_window_lo (K d ds f r u : Q) :
  (u == 1 # 9007199254740992)%Q ->
  (0 < d)%Q -> (0 < ds)%Q -> (r * ds == 1)%Q ->
  (ds <= d / 1000 * (1 + u))%Q -> (r * (1 - u) <= f)%Q ->
  (K * d * (1 + (1 # 2251799813685248)) <= 2000)%Q ->
  (K * (1 # 2) <= f)%Q.
Proof.
  intros Hu Hd Hds Hr Hs Hf HK.
  unfold Qdiv in Hs. change (/ 1000)%Q with (1 # 1000)%Q in Hs.
  assert (U0 : (0 < 1 - u)%Q) by (rewrite Hu; reflexivity).
  apply Qnot_lt_le. intros Hc.
  assert (A : (1 - u <= f * ds)%Q).
  { assert (X : (r * (1 - u) * ds <= f * ds)%Q)
      by (apply Qmult_le_compat_r; lra).
    assert (E : (r * (1 - u) * ds == (1 - u) * (r * ds))%Q) by ring.
    rewrite E, Hr in X. lra. }
  assert (Hf0 : (0 < f)%Q).
  { apply Qnot_le_lt. intros Hn.
    assert (X : (f * ds <= 0 * ds)%Q) by (apply Qmult_le_compat_r; lra).
    lra. }
  assert (HK0 : (0 < K)%Q) by lra.
  assert (B : (f * ds < K * (1 # 2) * ds)%Q)
    by (apply Qmult_lt_compat_r; assumption).
  assert (C : (K * (1 # 2) * ds
               <= K * (1 # 2) * (d * (1 # 1000) * (1 + u)))%Q)
    by (apply Qmult_le_l; lra).
  assert (E : (K * (1 # 2) * (d * (1 # 1000) * (1 + u))
               == K * d * (9007199254740993 # 18014398509481984000))%Q)
    by (rewrite Hu; ring).
  rewrite E in C. rewrite Hu in A.
  assert (P : (0 < K * d)%Q)
    by (apply Qmult_lt_0_compat; assumption).
  revert A B C HK P.
  generalize (K * d)%Q (f * ds)%Q (K * (1 # 2) * ds)%Q.
  intros X Y Z A B C HK P. lra.
Qed.

Lemma rate_window_hi (K d ds f r u : Q) :
  (u == 1 # 9007199254740992)%Q ->
  (0 < d)%Q -> (0 < ds)%Q -> (r * ds == 1)%Q ->
  (d / 1000 * (1 - u) <= ds)%Q -> (f <= r * (1 + u))%Q ->
  (2000 * (1 + (1 # 2251799813685248)) < K * d)%Q ->
  (f < K * (1 # 2))%Q.
Proof.
  intros Hu Hd Hds Hr Hs Hf HK.
  unfold Qdiv in Hs. change (/ 1000)%Q with (1 # 1000)%Q in Hs.
  assert (U0 : (0 < 1 - u)%Q) by (rewrite Hu; reflexivity).
  apply Qnot_le_lt. intros Hc.
  assert (A : (f * ds <= 1 + u)%Q).
  { assert (X : (f * ds <= r * (1 + u) * ds)%Q)
      by (apply Qmult_le_compat_r; lra).
    assert (E : (r * (1 + u) * ds == (1 + u) * (r * ds))%Q) by ring.
    rewrite E, Hr in X. lra. }
  assert (HK0 : (0 < K)%Q).
  { apply Qnot_le_lt. intros Hn.
    assert (X : (K * d <= 0 * d)%Q) by (apply Qmult_le_compat_r; lra).
    lra. }
  assert (B : (K * (1 # 2) * ds <= f * ds)%Q)
    by (apply Qmult_le_compat_r; lra).
  assert (C : (K * (1 # 2) * (d * (1 # 1000) * (1 - u))
               <= K * (1 # 2) * ds)%Q)
    by (apply Qmult_le_l; lra).
  assert (E : (K * (1 # 2) * (d * (1 # 1000) * (1 - u))
               == K * d * (9007199254740991 # 18014398509481984000))%Q)
    by (rewrite Hu; ring).
  rewrite E in C. rewrite Hu in A.
  revert A B C HK.
  generalize (K * d)%Q (f * ds)%Q (K * (1 # 2) * ds)%Q.
  intros X Y Z A B C HK. lra.
Qed.

Lemma rateOf_rounds (d : Q) (n : Z) :
  (1 # 1000000 <= d)%Q -> (d <= 1000000000)%Q ->
  (inject_Z (2 * n - 1) * d * (1 + (1 # 2251799813685248)) <= 2000)%Q ->
  (2000 * (1 + (1 # 2251799813685248)) < inject_Z (2 * n + 1) * d)%Q ->
  rateOf d = Z.min n 999.
Proof.
  intros Hlo Hhi H1 H2. unfold rateOf.
  assert (Hd : (0 < d)%Q) by lra.
  set (u := Double.pow2 (-53)).
  assert (Hu : (u == 1 # 9007199254740992)%Q) by reflexivity.
  assert (Hn : (Double.pow2 (-1022) <= 1 # 2000000000)%Q)
    by (vm_compute; discriminate).
  (* the first division *)
  assert (Hq1 : (Double.pow2 (-1022) <= d / 1000)%Q).
  { apply Qle_trans with (1 # 2000000000)%Q; [exact Hn |].
    apply Qle_shift_div_l; lra. }
  pose proof (round_relative_error _ Hq1) as [S1 S2]. fold u in S1, S2.
  fold (Double.div d 1000) in S1, S2.
  assert (Hx : (0 < d / 1000)%Q) by (apply Qlt_shift_div_l; lra).
  assert (Hx' : (d / 1000 <= 1000000)%Q) by (apply Qle_shift_div_r; lra).
  assert (Hds : (0 < Double.div d 1000)%Q
                /\ (Double.div d 1000 <= 2000000)%Q).
  { revert S1 S2 Hx Hx'. generalize (d / 1000)%Q (Double.div d 1000).
    intros x ds S1 S2 Hx Hx'. rewrite Hu in S1, S2. split; nra. }
  destruct Hds as [Hds Hds'].
  rewrite (Qeq_bool_pos_false _ Hds).
  (* the second division *)
  pose proof (reciprocal_pos _ Hds) as Hr0.
  assert (Hr : (1 / Double.div d 1000 * Double.div d 1000 == 1)%Q)
    by (field; lra).
  assert (Hq2 : (Double.pow2 (-1022) <= 1 / Double.div d 1000)%Q).
  { apply Qle_trans with (1 # 2000000000)%Q; [exact Hn |].
    apply Qle_shift_div_l; lra. }
  pose proof (round_relative_error _ Hq2) as [T1 T2]. fold u in T1, T2.
  fold (Double.div 1 (Double.div d 1000)) in T1, T2.
  (* the window of the statement *)
  assert (E1 : (inject_Z (2 * n - 1) == 2 * inject_Z n - 1)%Q).
  { unfold Z.sub. rewrite inject_Z_plus, inject_Z_mult. reflexivity. }
  assert (E2 : (inject_Z (2 * n + 1) == 2 * inject_Z n + 1)%Q).
  { rewrite inject_Z_plus, inject_Z_mult. reflexivity. }
  pose proof (rate_window_lo _ d _ _ _ u Hu Hd Hds Hr S2 T1 H1) as L.
  pose proof (rate_window_hi _ d _ _ _ u Hu Hd Hds Hr S1 T2 H2) as U.
  rewrite E1 in L. rewrite E2 in U.
  assert (Hm : Math_round (Double.div 1 (Double.div d 1000)) = n).
  { revert L U. generalize (Double.div 1 (Double.div d 1000)).
    intros f L U. apply Z.le_antisymm.
    - apply Z.lt_succ_r. apply Math_round_lt.
      unfold Z.succ. rewrite inject_Z_plus. change (inject_Z 1) with 1%Q.
      revert L U. generalize (inject_Z n). intros N L U. lra.
    - apply Math_round_ge.
      revert L U. generalize (inject_Z n). intros N L U. lra. }
  now rewrite Hm.
Qed.

(** X17. A call of [update()] that comes [deltaMs] milliseconds after the
    last one, [deltaMs] being the difference of the clock values as the
    code computes it and lying between a nanosecond and [10 ^ 9] ms,
    sets the reading to the nearest integer of [1000 / deltaMs] (halves
    upwards), capped at 999, whenever [1000 / deltaMs] is not within the
    relative distance [2 ^ -51] of a half-integer: the reading is
    [min n 999] for the integer [n] with
    [(n - 1/2) (1 + 2 ^ -51) <= 1000 / deltaMs] and
    [1000 / deltaMs < (n + 1/2) / (1 + 2 ^ -51)].  Nearer to a
    half-integer the rounding of the two divisions decides.  The call
    records the clock value. *)
Theorem update_rounds_the_frame_rate (fc : Fps.t) (now : Q) (n : Z) :
  let deltaMs := Double.sub now (Fps.lastUpdateTime fc) in
  (1 # 1000000 <= deltaMs)%Q -> (deltaMs <= 1000000000)%Q ->
  (inject_Z (2 * n - 1) * deltaMs * (1 + (1 # 2251799813685248))
   <= 2000)%Q ->
  (2000 * (1 + (1 # 2251799813685248))
   < inject_Z (2 * n + 1) * deltaMs)%Q ->
  Fps.currentFps (Fps.update now fc) = Z.min n 999
  /\ Fps.lastUpdateTime (Fps.update now fc) = now.
Proof.
  intros d Hlo Hhi H1 H2. split; [| reflexivity].
  cbn [Fps.update Fps.currentFps].
  assert (Hd : (0 < d)%Q) by (clearbody d; lra).
  rewrite (calculateFps_positive fc now Hd).
  now apply rateOf_rounds.
Qed.

Lemma update_rounds_the_frame_rate_witness :
  Fps.currentFps (Fps.update 20 (Fps.new 0 None)) = Z.min 50 999
  /\ Fps.lastUpdateTime (Fps.update 20 (Fps.new 0 None)) = 20%Q.
Proof.
  refine (update_rounds_the_frame_rate (Fps.new 0 None) 20 50 _ _ _ _);
    vm_compute; congruence.
Defined.

(** The two probes of the rounding: a frame of 48.78048780487805 ms (the
    double next to 2000/41) reads as 21, one of 3.2 ms as 313, where the
    exact quotients 20.4999... and 312.4999... would round down. *)
Lemma rateOf_at_rounding_boundaries :
  rateOf (Double.round (4878048780487805 # 100000000000000)) = 21
  /\ rateOf (Double.round (32 # 10)) = 313
  /\ rateOf 16 = 63.
Proof. vm_compute. repeat split. Qed.

(** The frame length is the difference as the code computes it: between
    the clock values 0.005 and 2000.005 the exact difference exceeds 2000,
    the computed one is 2000, and the reading is 1. *)
Lemma frame_length_is_the_computed_difference :
  let last := Double.round (5 # 1000) in
  let now := Double.round (2000005 # 1000) in
  (2000 < now - last)%Q
  /\ (Double.sub now last == 2000)%Q
  /\ Fps.currentFps (Fps.update now (Fps.new last None)) = 1.
Proof. vm_compute. repeat split. Qed.

(** X18. A call of [update()] whose [deltaMs], the difference of the
    clock values as the code computes it, is not positive keeps the
    reading; a frame of at most one millisecond reads as 999 and a frame
    of more than two seconds reads as 0. *)
Theorem update_at_the_edges (fc : Fps.t) (now : Q) :
  let deltaMs := Double.sub now (Fps.lastUpdateTime fc) in
  ((deltaMs <= 0)%Q ->
   Fps.currentFps (Fps.update now fc) = Fps.currentFps fc)
  /\ ((0 < deltaMs)%Q -> (deltaMs <= 1)%Q ->
      Fps.currentFps (Fps.update now fc) = 999)
  /\ ((2000 < deltaMs)%Q -> Fps.currentFps (Fps.update now fc) = 0).
Proof.
  intros d. cbn [Fps.update Fps.currentFps]. split; [| split].
  - intros Hd. unfold Fps.calculateFps. fold d.
    now rewrite (proj2 (Qle_bool_iff d 0) Hd).
  - intros Hd H1. rewrite (calculateFps_positive fc now Hd). fold d.
    pose proof (rateOf_range d Hd) as R.
    pose proof (rateOf_antitone d 1 Hd H1) as A.
    assert (E : rateOf 1 = 999) by (vm_compute; reflexivity).
    lia.
  - intros Hd.
    assert (Hd0 : (0 < d)%Q) by (clearbody d; lra).
    rewrite (calculateFps_positive fc now Hd0). fold d.
    pose proof (round_above_2000 _ Hd) as G. fold (Double.sub now (Fps.lastUpdateTime fc)) in G.
    fold d in G.
    pose proof (rateOf_range d Hd0) as R.
    assert (A : rateOf d <= rateOf (2000 + (1 # 4398046511104)))
      by (apply rateOf_antitone; [reflexivity | exact G]).
    assert (E : rateOf (2000 + (1 # 4398046511104)) = 0)
      by (vm_compute; reflexivity).
    lia.
Qed.

Lemma div_succ (k P : Z) :
  0 < P -> 0 <= k ->
  (k + 1) / P = if k mod P =? P - 1 then k / P + 1 else k / P.
Proof.
  intros HP Hk.
  pose proof (Z.mod_pos_bound k P HP) as Hb.
  pose proof (Z.div_mod k P ltac:(lia)) as Hd.
  destruct (Z.eqb_spec (k mod P) (P - 1)) as [E | E].
  - symmetry. apply (Z.div_unique_pos _ _ _ 0); lia.
  - symmetry. apply (Z.div_unique_pos _ _ _ (k mod P + 1)); lia.
Qed.

Lemma drawCalls_spec (k : nat) (gw gh : Q) (fc : Fps.t) :
  let P := Fps.updateThrottle (Fps.config fc) + 1 in
  let fc' := drawCalls k gw gh fc in
  0 <= Fps.updateThrottle (Fps.config fc) ->
  Fps.frameCount fc = 0 ->
  Fps.config fc' = Fps.config fc
  /\ Fps.currentFps fc' = Fps.currentFps fc
  /\ Fps.lastUpdateTime fc' = Fps.lastUpdateTime fc
  /\ Fps.frameCount fc' = Z.of_nat k mod P
  /\ textsDrawn fc' = textsDrawn fc + Z.of_nat k / P.
Proof.
  intros P fc' HT H0. subst fc'.
  assert (HP : 0 < P) by (unfold P; lia).
  assert (EP : Fps.updateThrottle (Fps.config fc) = P - 1)
    by (unfold P; lia).
  clearbody P.
  induction k as [| k IH].
  - simpl. rewrite H0. rewrite Z.mod_0_l, Z.div_0_l by lia.
    repeat split; lia.
  - destruct IH as (Ic & If & Il & Ifc & It).
    pose proof (Z.mod_pos_bound (Z.of_nat k) P HP) as Hb.
    replace (Z.of_nat (S k)) with (Z.of_nat k + 1) by lia.
    rewrite (mod_succ _ _ HP), (div_succ _ _ HP) by lia.
    change (drawCalls (S k) gw gh fc)
      with (Fps.draw true gw gh (drawCalls k gw gh fc)).
    generalize dependent (drawCalls k gw gh fc). intros g Ic If Il Ifc It.
    unfold Fps.draw. cbn [negb Fps.config Fps.frameCount].
    rewrite Ic, Ifc, EP.
    generalize dependent (Z.of_nat k mod P). intros m Ifc Hb.
    destruct (Z.eqb_spec m (P - 1)) as [E | E].
    + assert (L : (P - 1 <? m + 1) = true) by (apply Z.ltb_lt; lia).
      rewrite L. unfold textsDrawn in *. simpl.
      repeat split; try assumption. lia.
    + assert (L : (P - 1 <? m + 1) = false) by (apply Z.ltb_ge; lia).
      rewrite L. unfold textsDrawn in *. simpl.
      repeat split; try assumption.
Qed.

(** X19. Drawing is throttled.  With a throttle [T >= 0] and the frame
    counter at 0 (as in a new counter or after [reset()]), [k] calls of
    [draw(true, ...)] leave the frame counter at [k mod (T + 1)] and have
    drawn the text [k / (T + 1)] times, that is on every [(T + 1)]-th
    call; they do not change the reading.  [draw(false, ...)] changes
    nothing. *)
Theorem draw_is_throttled (k : nat) (gw gh : Q) (fc : Fps.t) :
  let P := Fps.updateThrottle (Fps.config fc) + 1 in
  let fc' := drawCalls k gw gh fc in
  0 <= Fps.updateThrottle (Fps.config fc) ->
  Fps.frameCount fc = 0 ->
  Fps.frameCount fc' = Z.of_nat k mod P
  /\ textsDrawn fc' = textsDrawn fc + Z.of_nat k / P
  /\ Fps.currentFps fc' = Fps.currentFps fc
  /\ Fps.draw false gw gh fc = fc.
Proof.
  intros P fc' HT H0.
  destruct (drawCalls_spec k gw gh fc HT H0) as (_ & If & _ & Ifc & It).
  repeat split; assumption.
Qed.

Lemma draw_is_throttled_witness :
  let fc := Fps.new 0 None in
  let fc' := drawCalls 102 800 600 fc in
  Fps.frameCount fc' = 102 mod (50 + 1)
  /\ textsDrawn fc' = textsDrawn fc + 102 / (50 + 1)
  /\ Fps.currentFps fc' = Fps.currentFps fc
  /\ Fps.draw false 800 600 fc = fc.
Proof.
  intros fc.
  refine (draw_is_throttled 102 800 600 fc _ _);
    [vm_compute; congruence | reflexivity].
Defined.

Lemma multiplier_of_reading (fc : Fps.t) (env : Env) :
  speedMultiplier (withFps fc env)
  = if 20 <? Fps.currentFps fc
    then (60 / inject_Z (Fps.currentFps fc))%Q else 1%Q.
Proof.
  unfold speedMultiplier, withFps. cbn [currentFps].
  destruct (Z.ltb_spec 20 (Fps.currentFps fc)) as [H | H].
  - rewrite (proj2 (Qltb_lt 20 _)); [reflexivity |].
    change 20%Q with (inject_Z 20). now rewrite <- Zlt_Qlt.
  - rewrite (proj2 (Qltb_ge 20 _)); [reflexivity |].
    change 20%Q with (inject_Z 20). now rewrite <- Zle_Qle.
Qed.


(** X21. With the FPS counter as frame-rate provider: after an
    [update()] whose [deltaMs], the difference of the clock values as the
    code computes it, is positive, a frame of 48.78048780487806 ms or
    more (the second double above 2000/41) gives a reading of at most 20
    and the speed multiplier 1, so slow frames are not compensated; a
    frame of 48.78048780487805 ms or less (the double before it) gives a
    reading above 20 and the multiplier [60 / currentFps].  No double
    lies between the two. *)
Theorem slow_frames_are_not_compensated
    (fc : Fps.t) (now : Q) (env : Env) :
  let deltaMs := Double.sub now (Fps.lastUpdateTime fc) in
  let fc' := Fps.update now fc in
  (0 < deltaMs)%Q ->
  ((6865243334406245 # 140737488355328 <= deltaMs)%Q ->
   Fps.currentFps fc' <= 20
   /\ speedMultiplier (withFps fc' env) = 1%Q)
  /\ ((deltaMs <= 1716310833601561 # 35184372088832)%Q ->
      20 < Fps.currentFps fc'
      /\ speedMultiplier (withFps fc' env)
         = (60 / inject_Z (Fps.currentFps fc'))%Q).
Proof.
  intros d fc' Hd. rewrite multiplier_of_reading.
  unfold fc'. cbn [Fps.update Fps.currentFps].
  rewrite (calculateFps_positive fc now Hd). fold d. split.
  - intros Hs.
    assert (A : rateOf d
                <= rateOf (6865243334406245 # 140737488355328))
      by (apply rateOf_antitone; [reflexivity | exact Hs]).
    assert (E : rateOf (6865243334406245 # 140737488355328) = 20)
      by (vm_compute; reflexivity).
    split; [lia |]. now rewrite (proj2 (Z.ltb_ge _ _)) by lia.
  - intros Hs.
    assert (A : rateOf (1716310833601561 # 35184372088832) <= rateOf d)
      by (apply rateOf_antitone; [exact Hd | exact Hs]).
    assert (E : rateOf (1716310833601561 # 35184372088832) = 21)
      by (vm_compute; reflexivity).
    split; [lia |]. now rewrite (proj2 (Z.ltb_lt _ _)) by lia.
Qed.

Lemma slow_frames_are_not_compensated_witness :
  let fc' := Fps.update 50 (Fps.new 0 None) in
  ((6865243334406245 # 140737488355328 <= Double.sub 50 0)%Q ->
   Fps.currentFps fc' <= 20
   /\ speedMultiplier (withFps fc' (mockEnv noKeys blackPixel)) = 1%Q)
  /\ ((Double.sub 50 0 <= 1716310833601561 # 35184372088832)%Q ->
      20 < Fps.currentFps fc'
      /\ speedMultiplier (withFps fc' (mockEnv noKeys blackPixel))
         = (60 / inject_Z (Fps.currentFps fc'))%Q).
Proof.
  refine (slow_frames_are_not_compensated
            (Fps.new 0 None) 50 (mockEnv noKeys blackPixel) _).
  vm_compute. reflexivity.
Defined.

(** * Properties of the score board *)

Lemma incrementScores_cons (d : string) (p : ScoreBoard.Player)
    (ps : list ScoreBoard.Player) :
  ScoreBoard.incrementScores d (p :: ps)
  = (if outlives d p
     then {| ScoreBoard.name := ScoreBoard.name p;
             ScoreBoard.color := ScoreBoard.color p;
             ScoreBoard.score := ScoreBoard.score p + 1;
             ScoreBoard.dead := ScoreBoard.dead p |}
     else p) :: ScoreBoard.incrementScores d ps.
Proof. reflexivity. Qed.

(** X22. [incrementScores(deadPlayerName, players)] gives one point to
    every player that is not dead and has another name than the dead one,
    and changes nothing else: each player keeps its place, name, colour
    and dead flag, a dead player or one of the given name keeps its score,
    and the sum of the scores grows by the number of players that
    outlive. *)
Theorem incrementScores_awards_those_who_outlive
    (deadPlayerName : string) (players : list ScoreBoard.Player) :
  let players' := ScoreBoard.incrementScores deadPlayerName players in
  length players' = length players
  /\ totalScore players'
     = totalScore players
       + Z.of_nat (length (List.filter (outlives deadPlayerName) players))
  /\ forall i p, players !! i = Some p ->
       exists p', players' !! i = Some p'
         /\ ScoreBoard.name p' = ScoreBoard.name p
         /\ ScoreBoard.color p' = ScoreBoard.color p
         /\ ScoreBoard.dead p' = ScoreBoard.dead p
         /\ ScoreBoard.score p'
            = ScoreBoard.score p
              + (if outlives deadPlayerName p then 1 else 0).
Proof.
  intros players'. subst players'. split; [| split].
  - unfold ScoreBoard.incrementScores. apply length_fmap.
  - induction players as [| p ps IH]; [reflexivity |].
    rewrite incrementScores_cons. cbn [totalScore fold_right List.filter].
    fold (totalScore (ScoreBoard.incrementScores deadPlayerName ps)).
    fold (totalScore ps). rewrite IH.
    destruct (outlives deadPlayerName p); cbn [length ScoreBoard.score]; lia.
  - intros i p Hp. unfold ScoreBoard.incrementScores.
    rewrite list_lookup_fmap, Hp. cbn [fmap option_fmap option_map].
    eexists. split; [reflexivity |].
    fold (outlives deadPlayerName p).
    destruct (outlives deadPlayerName p); cbn; repeat split; lia.
Qed.

Lemma drawPlayerScores_fold (players : list ScoreBoard.Player) (h : Q)
    (font : string) (total : nat) (k : nat) (sb : ScoreBoard.t) :
  (k <= length players)%nat ->
  font = (ScoreBoard.fontStyle (ScoreBoard.config sb) +:+ " "
          +:+ pretty (ScoreBoard.fontSize (ScoreBoard.config sb))
          +:+ "px " +:+ ScoreBoard.fontFamily (ScoreBoard.config sb)) ->
  let sb' :=
    fold_left
      (fun sb i =>
         match players !! i with
         | None => sb
         | Some player =>
             let position :=
               ScoreBoard.calculatePlayerPosition sb i total h in
             {| ScoreBoard.context :=
                  OpFillText font (ScoreBoard.textAlign (ScoreBoard.config sb))
                    (ScoreBoard.color player)
                    (pretty (ScoreBoard.score player))
                    (fst position) (snd position)
                  :: ScoreBoard.context sb;
                ScoreBoard.config := ScoreBoard.config sb |}
         end)
      (seq 0 k) sb in
  ScoreBoard.config sb' = ScoreBoard.config sb
  /\ ScoreBoard.context sb'
     = (rev (imap (scoreText (ScoreBoard.config sb) total h)
               (take k players))
        ++ ScoreBoard.context sb)%list.
Proof.
  intros Hk Hfont. induction k as [| k IH].
  - cbn. now rewrite take_0.
  - rewrite seq_S, fold_left_app. cbn [fold_left Nat.add].
    destruct IH as (I1 & I2); [lia |].
    destruct (lookup_lt_is_Some_2 players k ltac:(lia)) as [p Hp].
    match goal with |- context [fold_left ?f (seq 0 k) sb] =>
      set (sbk := fold_left f (seq 0 k) sb) in * end.
    rewrite Hp. cbv zeta. cbn [ScoreBoard.config ScoreBoard.context].
    split; [exact I1 |].
    rewrite (take_S_r _ _ _ Hp), imap_app, rev_app_distr.
    cbn [imap rev app]. rewrite I2.
    rewrite length_take, Nat.min_l by lia. rewrite Nat.add_0_r.
    unfold scoreText, ScoreBoard.calculatePlayerPosition. cbn [fst snd].
    rewrite I1, Hfont. reflexivity.
Qed.

(** X23. [draw(players, gameHeight)] of the score board clears the panel,
    paints the background over the height of the game and then writes one
    text per player, in the order of the roster: the player's score in
    decimal, in the player's colour, at [x = width * 3 / 4 - 10] and
    [y = gameHeight * 0.9 * i / n + 80] for the [i]-th of [n] players.
    With no players it only clears and paints the background. *)
Theorem scoreboard_draws_one_score_per_player
    (players : list ScoreBoard.Player) (gameHeight : Q) (sb : ScoreBoard.t) :
  let cfg := ScoreBoard.config sb in
  let sb' := ScoreBoard.draw players gameHeight sb in
  ScoreBoard.config sb' = cfg
  /\ ScoreBoard.context sb'
     = (rev (imap (scoreText cfg (length players) gameHeight) players)
        ++ [ OpFillRect (ScoreBoard.backgroundColor cfg) 0 0
               (ScoreBoard.width cfg) gameHeight;
             OpClearRect 0 0 (ScoreBoard.width cfg)
               ScoreBoard.MAX_CLEAR_HEIGHT ]
        ++ ScoreBoard.context sb)%list.
Proof.
  intros cfg sb'. subst sb' cfg.
  unfold ScoreBoard.draw, ScoreBoard.drawPlayerScores.
  destruct (length players =? 0)%nat eqn:E.
  - apply Nat.eqb_eq in E. destruct players; [| discriminate].
    cbn. split; reflexivity.
  - cbv zeta.
    match goal with |- context [fold_left ?f (seq 0 ?k) ?s0] =>
      destruct (drawPlayerScores_fold players gameHeight
                  (ScoreBoard.fontStyle (ScoreBoard.config s0) +:+ " "
                   +:+ pretty (ScoreBoard.fontSize (ScoreBoard.config s0))
                   +:+ "px " +:+ ScoreBoard.fontFamily (ScoreBoard.config s0))
                  (length players) (length players) s0 (le_n _) eq_refl)
        as (A1 & A2)
    end.
    cbv zeta in A1, A2. rewrite firstn_all in A2.
    split; [exact A1 | exact A2].
Qed.

(** * Properties of the splash screen and of the end screen *)

Lemma splash_listen_state (input : KeyName -> bool) (s : Splash.t) :
  Splash.active s = true ->
  let s' := fst (Splash.listen input s) in
  Splash.active s' = true /\ Splash.config s' = Splash.config s
  /\ Splash.counter s' = Splash.counter s + 1
  /\ Splash.context s' = Splash.context s.
Proof.
  intros Ha. unfold Splash.listen. rewrite Ha. cbn. repeat split.
Qed.

Lemma splashAfter_state (inputs : list (KeyName -> bool)) (s : Splash.t) :
  Splash.active s = true ->
  let s' := splashAfter inputs s in
  Splash.active s' = true /\ Splash.config s' = Splash.config s
  /\ Splash.counter s' = Splash.counter s + Z.of_nat (length inputs)
  /\ Splash.context s' = Splash.context s.
Proof.
  revert s. induction inputs as [| input inputs IH]; intros s Ha.
  - cbn. repeat split; [exact Ha | lia].
  - destruct (splash_listen_state input s Ha) as (A1 & A2 & A3 & A4).
    destruct (IH _ A1) as (B1 & B2 & B3 & B4).
    cbn [splashAfter fold_left length] in *.
    fold (splashAfter inputs (fst (Splash.listen input s))).
    rewrite B2, B3, B4, A2, A3, A4. repeat split; [exact B1 | lia].
Qed.

(** X24. After [show()], the [n]-th call of [listen()] on the splash
    screen calls [onDismiss] exactly when mouse button 1 or the space bar
    is held at that call or [n] exceeds the timeout (100 calls by
    default), and it keeps calling it on every later call; the calls draw
    nothing.  A splash screen that was not shown, or was cleared, never
    calls it. *)
Theorem splash_dismissed_by_key_or_timeout
    (image : Image) (gw gh : Q) (s : Splash.t)
    (inputs : list (KeyName -> bool)) (input : KeyName -> bool) :
  let shown := Splash.show image gw gh s in
  let n := Z.of_nat (length inputs) + 1 in
  snd (Splash.listen input (splashAfter inputs shown))
  = (input "mouse1" || input "space"
     || (Splash.timeout (Splash.config s) <? n))
  /\ Splash.context (fst (Splash.listen input (splashAfter inputs shown)))
     = Splash.context shown
  /\ Splash.listen input (Splash.new None) = (Splash.new None, false)
  /\ Splash.listen input (Splash.clear gw gh shown)
     = (Splash.clear gw gh shown, false).
Proof.
  intros shown n.
  destruct (splashAfter_state inputs shown eq_refl) as (A1 & A2 & A3 & A4).
  destruct (splash_listen_state input _ A1) as (_ & _ & _ & B4).
  repeat split.
  - unfold Splash.listen. rewrite A1. cbn [negb snd Splash.config
      Splash.counter]. rewrite A2, A3. reflexivity.
  - rewrite B4. exact A4.
Qed.

Lemma end_listen_state (input : KeyName -> bool) (s : EndScreen.t) :
  EndScreen.active s = true ->
  let s' := fst (EndScreen.listen input s) in
  EndScreen.active s' = true /\ EndScreen.config s' = EndScreen.config s
  /\ EndScreen.counter s' = EndScreen.counter s + 1
  /\ EndScreen.context s' = EndScreen.context s.
Proof.
  intros Ha. unfold EndScreen.listen. rewrite Ha. cbn. repeat split.
Qed.

Lemma endScreenAfter_state (inputs : list (KeyName -> bool))
    (s : EndScreen.t) :
  EndScreen.active s = true ->
  let s' := endScreenAfter inputs s in
  EndScreen.active s' = true /\ EndScreen.config s' = EndScreen.config s
  /\ EndScreen.counter s' = EndScreen.counter s + Z.of_nat (length inputs)
  /\ EndScreen.context s' = EndScreen.context s.
Proof.
  revert s. induction inputs as [| input inputs IH]; intros s Ha.
  - cbn. repeat split; [exact Ha | lia].
  - destruct (end_listen_state input s Ha) as (A1 & A2 & A3 & A4).
    destruct (IH _ A1) as (B1 & B2 & B3 & B4).
    cbn [endScreenAfter fold_left length] in *.
    fold (endScreenAfter inputs (fst (EndScreen.listen input s))).
    rewrite B2, B3, B4, A2, A3, A4. repeat split; [exact B1 | lia].
Qed.

Lemma drawScores_state (scores : list EndScreen.PlayerScore) (gw gh : Q)
    (s : EndScreen.t) :
  let s' := EndScreen.drawScores scores gw gh s in
  EndScreen.active s' = EndScreen.active s
  /\ EndScreen.config s' = EndScreen.config s
  /\ EndScreen.counter s' = EndScreen.counter s.
Proof.
  unfold EndScreen.drawScores. cbv zeta.
  generalize (EndScreen.fontWeight (EndScreen.config s) +:+ " "
              +:+ pretty (EndScreen.fontSize (EndScreen.config s))
              +:+ "px " +:+ EndScreen.fontFamily (EndScreen.config s)).
  intros font.
  generalize (seq 0 (length scores)). intros l. revert s.
  induction l as [| i l IH]; intros s; [repeat split |].
  cbn [fold_left].
  destruct (scores !! i) as [p |].
  - match goal with |- context [fold_left ?f l ?s1] =>
      destruct (IH s1) as (A1 & A2 & A3) end.
    rewrite A1, A2, A3. repeat split.
  - apply IH.
Qed.

(** X25. After [show()], the [n]-th call of [listen()] on the end screen
    calls [onDismiss] exactly when the space bar is held at that call and
    [n] exceeds the wait time (100 calls by default): the space bar is
    ignored during the first calls, and unlike the splash screen the end
    screen never goes away by itself.  An end screen that was not shown,
    or was cleared, never calls it. *)
Theorem end_screen_waits_before_it_takes_the_space_bar
    (image : Image) (scores : list EndScreen.PlayerScore) (gw gh : Q)
    (s : EndScreen.t)
    (inputs : list (KeyName -> bool)) (input : KeyName -> bool) :
  let shown := EndScreen.show image scores gw gh s in
  let n := Z.of_nat (length inputs) + 1 in
  snd (EndScreen.listen input (endScreenAfter inputs shown))
  = (input "space" && (EndScreen.waitTime (EndScreen.config s) <? n))
  /\ EndScreen.listen input (EndScreen.new None)
     = (EndScreen.new None, false)
  /\ EndScreen.listen input (EndScreen.clear gw gh shown)
     = (EndScreen.clear gw gh shown, false).
Proof.
  intros shown n.
  assert (S : EndScreen.active shown = true
              /\ EndScreen.config shown = EndScreen.config s
              /\ EndScreen.counter shown = 0).
  { unfold shown, EndScreen.show. cbv zeta.
    match goal with |- context [EndScreen.drawScores _ _ _ ?s0] =>
      destruct (drawScores_state scores gw gh s0) as (S1 & S2 & S3) end.
    rewrite S1, S2, S3. repeat split. }
  destruct S as (S1 & S2 & S3).
  destruct (endScreenAfter_state inputs shown S1) as (A1 & A2 & A3 & _).
  repeat split.
  unfold EndScreen.listen. rewrite A1. cbn [negb snd EndScreen.config
    EndScreen.counter]. rewrite A2, A3, S2, S3. reflexivity.
Qed.

(** * Properties of the player selector *)

Lemma handlePlayer_spec (isKeyPressed : KeyName -> bool)
    (imageRepo : Selector.ImageRepository) (gw gh : Q)
    (l : list PlayerTemplate) (s : Selector.t) (i : nat) :
  let st := Selector.handlePlayer isKeyPressed imageRepo gw gh (l, s) i in
  fst st
  = match l !! i with
    | Some p => <[i := toggled isKeyPressed imageRepo p]> l
    | None => l
    end
  /\ Selector.config (snd st) = Selector.config s
  /\ Selector.active (snd st) = Selector.active s.
Proof.
  unfold Selector.handlePlayer, toggled.
  destruct (l !! i) as [p |] eqn:Hp; [| repeat split].
  destruct (imageRepo (Template.name p)) as [image |]; cbn [Selector.isImageValid].
  - destruct (complete image && Qltb 0 (naturalWidth image)); cbn [negb].
    + destruct (isKeyPressed (Template.left_ p)); [repeat split |].
      destruct (isKeyPressed (Template.right_ p)); [repeat split |].
      cbn. now rewrite list_insert_id.
    + cbn. now rewrite list_insert_id.
  - cbn. now rewrite list_insert_id.
Qed.

Lemma handlePlayers_spec (isKeyPressed : KeyName -> bool)
    (imageRepo : Selector.ImageRepository) (gw gh : Q) (n : nat) :
  forall (a : nat) (l : list PlayerTemplate) (s : Selector.t),
    let st := fold_left (Selector.handlePlayer isKeyPressed imageRepo gw gh)
                (seq a n) (l, s) in
    (forall j,
       fst st !! j
       = if bool_decide (a <= j < a + n)%nat
         then toggled isKeyPressed imageRepo <$> l !! j
         else l !! j)
    /\ Selector.config (snd st) = Selector.config s
    /\ Selector.active (snd st) = Selector.active s.
Proof.
  induction n as [| n IH]; intros a l s st.
  - subst st. cbn. repeat split. intros j.
    rewrite bool_decide_eq_false_2 by lia. reflexivity.
  - subst st. cbn [seq fold_left].
    destruct (handlePlayer_spec isKeyPressed imageRepo gw gh l s a)
      as (A1 & A2 & A3).
    destruct (Selector.handlePlayer isKeyPressed imageRepo gw gh (l, s) a)
      as [l1 s1]. cbn [fst snd] in A1, A2, A3.
    destruct (IH (S a) l1 s1) as (B1 & B2 & B3).
    rewrite B2, B3, A2, A3. repeat split. intros j. rewrite B1. subst l1.
    destruct (decide (j = a)) as [-> | Hne].
    + rewrite bool_decide_eq_false_2 by lia.
      rewrite bool_decide_eq_true_2 by lia.
      destruct (l !! a) as [p |] eqn:Hp; [| now rewrite Hp].
      rewrite list_lookup_insert_eq by (eapply lookup_lt_Some; eauto).
      reflexivity.
    + assert (E : match l !! a with
                  | Some p => <[a := toggled isKeyPressed imageRepo p]> l
                  | None => l
                  end !! j = l !! j).
      { destruct (l !! a); [| reflexivity].
        now rewrite list_lookup_insert_ne by congruence. }
      rewrite E.
      destruct (bool_decide (S a <= j < S a + n)%nat) eqn:D.
      * apply bool_decide_eq_true_1 in D.
        rewrite bool_decide_eq_true_2 by lia. reflexivity.
      * apply bool_decide_eq_false_1 in D.
        rewrite bool_decide_eq_false_2 by lia. reflexivity.
Qed.

Lemma handlePlayerInput_spec (isKeyPressed : KeyName -> bool)
    (templates : list PlayerTemplate) (imageRepo : Selector.ImageRepository)
    (gw gh : Q) (s : Selector.t) :
  let st := Selector.handlePlayerInput isKeyPressed templates imageRepo
              gw gh s in
  fst st = toggled isKeyPressed imageRepo <$> templates
  /\ Selector.config (snd st) = Selector.config s
  /\ Selector.active (snd st) = Selector.active s.
Proof.
  intros st. subst st. unfold Selector.handlePlayerInput.
  destruct (handlePlayers_spec isKeyPressed imageRepo gw gh
              (length templates) 0 templates s) as (A1 & A2 & A3).
  repeat split; [| exact A2 | exact A3].
  apply list_eq. intros j. rewrite A1, list_lookup_fmap.
  destruct (bool_decide (0 <= j < 0 + length templates)%nat) eqn:D;
    [reflexivity |].
  apply bool_decide_eq_false_1 in D.
  rewrite lookup_ge_None_2 by lia. reflexivity.
Qed.

Lemma toggled_ready (isKeyPressed : KeyName -> bool)
    (imageRepo : Selector.ImageRepository) (p : PlayerTemplate) :
  let p' := toggled isKeyPressed imageRepo p in
  Template.name p' = Template.name p
  /\ Template.color p' = Template.color p
  /\ Template.left_ p' = Template.left_ p
  /\ Template.right_ p' = Template.right_ p
  /\ Template.count p' = Template.count p
  /\ Template.ready p'
     = if Selector.isImageValid (imageRepo (Template.name p)) then
         if isKeyPressed (Template.left_ p) then true
         else if isKeyPressed (Template.right_ p) then false
         else Template.ready p
       else Template.ready p.
Proof.
  unfold toggled.
  destruct (Selector.isImageValid _); [| repeat split].
  destruct (isKeyPressed (Template.left_ p)); [repeat split |].
  destruct (isKeyPressed (Template.right_ p)); repeat split.
Qed.

(** X26. A call of [listen()] on the player selector changes nothing of a
    template but its ready flag.  For a player whose sprite is loaded the
    left key sets the flag and, when the left key is not held, the right
    key clears it (the left key wins when both are held); with neither
    key, or with a sprite that is missing or not loaded, the flag stays
    as it is.  The order and the number of the templates stay. *)
Theorem listen_toggles_the_ready_flags
    (isKeyPressed : KeyName -> bool) (templates : list PlayerTemplate)
    (imageRepo : Selector.ImageRepository) (gw gh : Q) (s : Selector.t) :
  let templates' :=
    fst (fst (Selector.listen isKeyPressed templates imageRepo gw gh s)) in
  length templates' = length templates
  /\ forall i p, templates !! i = Some p ->
       exists p', templates' !! i = Some p'
         /\ Template.name p' = Template.name p
         /\ Template.color p' = Template.color p
         /\ Template.left_ p' = Template.left_ p
         /\ Template.right_ p' = Template.right_ p
         /\ Template.count p' = Template.count p
         /\ Template.ready p'
            = if Selector.isImageValid (imageRepo (Template.name p)) then
                if isKeyPressed (Template.left_ p) then true
                else if isKeyPressed (Template.right_ p) then false
                else Template.ready p
              else Template.ready p.
Proof.
  intros templates'. subst templates'. unfold Selector.listen.
  destruct (handlePlayerInput_spec isKeyPressed templates imageRepo gw gh s)
    as (A1 & _ & _).
  destruct (Selector.handlePlayerInput _ _ _ _ _ _) as [l1 s1].
  cbn [fst] in *. subst l1. split; [apply length_fmap |].
  intros i p Hp. exists (toggled isKeyPressed imageRepo p).
  split; [now rewrite list_lookup_fmap, Hp |].
  apply toggled_ready.
Qed.

Lemma existsb_ready_filter (ts : list PlayerTemplate) :
  existsb Template.ready ts = true -> List.filter Template.ready ts <> [].
Proof.
  induction ts as [| t ts IH]; [discriminate |].
  cbn [existsb List.filter]. destruct (Template.ready t); [discriminate |].
  exact IH.
Qed.

(** X27. [listen()] calls [onStart] exactly when the space bar is held
    and, after the toggles of the same call, some template is ready.
    When it does, [PlayerManager.init()] on these templates builds a
    roster that is not empty: the game cannot be started without a
    player. *)
Theorem start_needs_the_space_bar_and_a_ready_player
    (isKeyPressed : KeyName -> bool) (templates : list PlayerTemplate)
    (imageRepo : Selector.ImageRepository) (gw gh : Q) (s : Selector.t)
    (config : PlayerManagerConfig) (w : World) :
  let result := Selector.listen isKeyPressed templates imageRepo gw gh s in
  let templates' := fst (fst result) in
  snd result
  = isKeyPressed "space"
    && existsb (fun p => Template.ready (toggled isKeyPressed imageRepo p))
         templates
  /\ (snd result = true ->
      pool (PlayerManager_init config (set_playerTemplates templates' w))
      <> []).
Proof.
  intros result templates'. subst templates' result. unfold Selector.listen.
  destruct (handlePlayerInput_spec isKeyPressed templates imageRepo gw gh s)
    as (A1 & _ & _).
  destruct (Selector.handlePlayerInput _ _ _ _ _ _) as [l1 s1].
  cbn [fst snd] in *. subst l1. unfold Selector.handleStartInput.
  split.
  - destruct (isKeyPressed "space"); cbn [negb andb]; [| reflexivity].
    induction templates as [| t ts IH]; [reflexivity |].
    cbn [fmap list_fmap existsb]. now rewrite <- IH.
  - intros Hs.
    destruct (isKeyPressed "space"); cbn [negb] in Hs; [| discriminate].
    apply existsb_ready_filter in Hs.
    unfold PlayerManager_init. cbv zeta.
    match goal with |- pool (fold_left _ ?ts ?w0) <> [] =>
      destruct (initTemplates_spec config ts w0) as (P1 & _) end.
    { constructor. }
    rewrite P1. cbn [pool set_pool set_roundCount set_maxRounds
      set_playerTemplates playerTemplates app].
    intros Hc. apply fmap_nil_inv in Hc. contradiction.
Qed.

Lemma start_needs_the_space_bar_and_a_ready_player_witness :
  let result :=
    Selector.listen (pressing ["space"; "n"]) DEFAULT_PLAYER_TEMPLATES
      allSprites 800 600 (Selector.new "10px sans-serif" None) in
  snd result = true
  /\ pool (PlayerManager_init TEST_CONFIG
             (set_playerTemplates (fst (fst result))
                (PlayerManager_new None None None None)))
     <> [].
Proof.
  intros result. split; [vm_compute; reflexivity |].
  refine (proj2 (start_needs_the_space_bar_and_a_ready_player
                   (pressing ["space"; "n"]) DEFAULT_PLAYER_TEMPLATES
                   allSprites 800 600 (Selector.new "10px sans-serif" None)
                   TEST_CONFIG (PlayerManager_new None None None None)) _).
  vm_compute. reflexivity.
Defined.

Lemma cleared_none_ready (ts : list PlayerTemplate) :
  List.filter Template.ready (Selector.set_ready false <$> ts) = [].
Proof.
  induction ts as [| t ts IH]; [reflexivity |].
  cbn [fmap list_fmap List.filter Selector.set_ready Template.ready].
  exact IH.
Qed.

(** X28. [clear()] takes every player out of the game: it clears all
    ready flags and deactivates the selector, and keeps the rest of the
    templates.  After it, a call of [listen()] at which no player's left
    key is held does not call [onStart], whatever else is held, and
    [PlayerManager.init()] on the cleared templates builds an empty
    roster. *)
Theorem clear_takes_every_player_out
    (isKeyPressed : KeyName -> bool) (templates : list PlayerTemplate)
    (imageRepo : Selector.ImageRepository) (gw gh : Q) (s : Selector.t)
    (config : PlayerManagerConfig) (w : World) :
  Forall (fun p => isKeyPressed (Template.left_ p) = false) templates ->
  let cleared := Selector.clear templates gw gh s in
  fst cleared = Selector.set_ready false <$> templates
  /\ Selector.active (snd cleared) = false
  /\ snd (Selector.listen isKeyPressed (fst cleared) imageRepo gw gh
            (snd cleared)) = false
  /\ pool (PlayerManager_init config (set_playerTemplates (fst cleared) w))
     = [].
Proof.
  intros Hleft cleared. subst cleared. cbn [Selector.clear fst snd].
  split; [reflexivity |]. split; [reflexivity |]. split.
  - unfold Selector.listen.
    match goal with |- context [Selector.handlePlayerInput ?k ?t ?r ?a ?b ?c] =>
      destruct (handlePlayerInput_spec k t r a b c) as (A1 & _ & _);
      destruct (Selector.handlePlayerInput k t r a b c) as [l1 s1] end.
    cbn [fst snd] in *. subst l1. unfold Selector.handleStartInput.
    destruct (isKeyPressed "space"); cbn [negb]; [| reflexivity].
    induction Hleft as [| t ts Ht _ IH]; [reflexivity |].
    cbn [fmap list_fmap existsb]. rewrite IH, orb_false_r.
    unfold toggled. cbn [Selector.set_ready Template.name Template.left_
      Template.right_]. rewrite Ht.
    destruct (Selector.isImageValid _); [| reflexivity].
    destruct (isKeyPressed (Template.right_ t)); reflexivity.
  - unfold PlayerManager_init. cbv zeta.
    match goal with |- pool (fold_left _ ?ts ?w0) = [] =>
      destruct (initTemplates_spec config ts w0) as (P1 & _) end.
    { constructor. }
    rewrite P1. cbn [pool set_pool set_roundCount set_maxRounds
      set_playerTemplates playerTemplates app].
    now rewrite cleared_none_ready.
Qed.

Lemma clear_takes_every_player_out_witness :
  let cleared :=
    Selector.clear TEST_PLAYER_TEMPLATES 800 600
      (Selector.new "10px sans-serif" None) in
  fst cleared = Selector.set_ready false <$> TEST_PLAYER_TEMPLATES
  /\ Selector.active (snd cleared) = false
  /\ snd (Selector.listen (pressing ["space"; "q"]) (fst cleared)
            allSprites 800 600 (snd cleared)) = false
  /\ pool (PlayerManager_init TEST_CONFIG
             (set_playerTemplates (fst cleared)
                (PlayerManager_new None None None None)))
     = [].
Proof.
  refine (clear_takes_every_player_out (pressing ["space"; "q"])
            TEST_PLAYER_TEMPLATES allSprites 800 600
            (Selector.new "10px sans-serif" None) TEST_CONFIG
            (PlayerManager_new None None None None) _).
  repeat (constructor; [vm_compute; reflexivity |]). constructor.
Defined.

(** * Properties of the game settings *)

Lemma gt0_not_NaN (n : JsNumber) : gt0 n = true -> isNaN n = false.
Proof. now destruct n. Qed.

Lemma ge0_not_NaN (n : JsNumber) : ge0 n = true -> isNaN n = false.
Proof. now destruct n. Qed.

Lemma validateConfiguration_fields (c : GameConfiguration) :
  validateConfiguration c = true <->
  gt0 (GameConfiguration.maxRounds c) = true
  /\ gt0 (GameConfiguration.size c) = true
  /\ gt0 (GameConfiguration.speed c) = true
  /\ gt0 (GameConfiguration.curveSpeed c) = true
  /\ gt0 (GameConfiguration.holeRate c) = true
  /\ ge0 (GameConfiguration.holeRateRnd c) = true
  /\ gt0 (GameConfiguration.holeSize c) = true
  /\ ge0 (GameConfiguration.holeSizeRnd c) = true.
Proof.
  unfold validateConfiguration. rewrite !andb_true_iff. tauto.
Qed.

Lemma getConfiguration_spec {V : Type} (parseFloat : V -> JsNumber)
    (s : AdvancedSettings.t) (e : AdvancedSettings.Elements (V := V)) :
  AdvancedSettings.elements s = Some e ->
  let parsed := parsedInputs parseFloat (AdvancedSettings.inputs e) in
  if validateConfiguration parsed
  then AdvancedSettings.getConfiguration parseFloat s = inr parsed
  else exists message,
         AdvancedSettings.getConfiguration parseFloat s = inl message.
Proof.
  intros He parsed. unfold AdvancedSettings.getConfiguration. rewrite He.
  cbv zeta. fold (parsedInputs parseFloat (AdvancedSettings.inputs e)).
  fold parsed.
  change (parseFloat (AdvancedSettings.maxRounds (AdvancedSettings.inputs e)))
    with (GameConfiguration.maxRounds parsed).
  change (parseFloat (AdvancedSettings.size (AdvancedSettings.inputs e)))
    with (GameConfiguration.size parsed).
  change (parseFloat (AdvancedSettings.speed (AdvancedSettings.inputs e)))
    with (GameConfiguration.speed parsed).
  change (parseFloat (AdvancedSettings.curveSpeed (AdvancedSettings.inputs e)))
    with (GameConfiguration.curveSpeed parsed).
  change (parseFloat (AdvancedSettings.holeRate (AdvancedSettings.inputs e)))
    with (GameConfiguration.holeRate parsed).
  change (parseFloat (AdvancedSettings.holeRateRnd (AdvancedSettings.inputs e)))
    with (GameConfiguration.holeRateRnd parsed).
  change (parseFloat (AdvancedSettings.holeSize (AdvancedSettings.inputs e)))
    with (GameConfiguration.holeSize parsed).
  change (parseFloat (AdvancedSettings.holeSizeRnd (AdvancedSettings.inputs e)))
    with (GameConfiguration.holeSizeRnd parsed).
  destruct (validateConfiguration parsed) eqn:Hv.
  - apply validateConfiguration_fields in Hv.
    destruct Hv as (H1 & H2 & H3 & H4 & H5 & H6 & H7 & H8).
    rewrite (gt0_not_NaN _ H1), (gt0_not_NaN _ H2), (gt0_not_NaN _ H3),
      (gt0_not_NaN _ H4), (gt0_not_NaN _ H5), (ge0_not_NaN _ H6),
      (gt0_not_NaN _ H7), (ge0_not_NaN _ H8).
    reflexivity.
  - repeat match goal with
           | |- context [if isNaN ?n then _ else _] =>
               destruct (isNaN n); [eexists; reflexivity |]
           end.
    cbn [negb]. eexists. reflexivity.
Qed.

(** X29. [getConfiguration()] of the settings panel returns a
    configuration exactly when the panel is initialised and the parsed
    values of the eight inputs pass [validateConfiguration]; what it
    returns are these parsed values, so it never returns a configuration
    with a NaN, a non-positive size, speed, curve speed, hole rate, hole
    size or number of rounds, or a negative jitter.  In every other case
    it throws; before [initialize()] the error is the not-initialised
    one. *)
Theorem getConfiguration_returns_only_valid_settings {V : Type}
    (parseFloat : V -> JsNumber) (s : AdvancedSettings.t (V := V))
    (c : GameConfiguration) :
  (AdvancedSettings.getConfiguration parseFloat s = inr c <->
   exists e, AdvancedSettings.elements s = Some e
     /\ c = parsedInputs parseFloat (AdvancedSettings.inputs e)
     /\ validateConfiguration c = true)
  /\ (AdvancedSettings.elements s = None ->
      AdvancedSettings.getConfiguration parseFloat s
      = inl AdvancedSettings.notInitialized).
Proof.
  split.
  - destruct (AdvancedSettings.elements s) as [e |] eqn:He.
    + pose proof (getConfiguration_spec parseFloat s e He) as H.
      cbv zeta in H. split.
      * intros Hc. exists e. split; [reflexivity |].
        destruct (validateConfiguration
                    (parsedInputs parseFloat (AdvancedSettings.inputs e)))
          eqn:Hv.
        -- rewrite H in Hc. injection Hc as <-. split; [reflexivity | exact Hv].
        -- destruct H as [m Hm]. rewrite Hm in Hc. discriminate.
      * intros (e' & He' & -> & Hv). injection He' as <-.
        now rewrite Hv in H.
    + split.
      * unfold AdvancedSettings.getConfiguration. rewrite He. discriminate.
      * intros (e & He' & _). discriminate.
  - intros He. unfold AdvancedSettings.getConfiguration. now rewrite He.
Qed.

Lemma presets_valid (preset : PresetName) :
  validateConfiguration (configurations preset) = true.
Proof. destruct preset; reflexivity. Qed.

(** X30. The presets survive the form.  When parsing the text that
    [toString] gives for a finite number gives that number back, then
    after [initialize()] the panel returns the configuration of its
    default preset ([classic] unless configured), and after
    [setPreset(p)] it returns the configuration of [p], for each of
    [classic], [agility] and [strategy]: every preset passes the
    validation. *)
Theorem presets_survive_the_form {V : Type}
    (parseFloat : V -> JsNumber) (toString : JsNumber -> V)
    (s : AdvancedSettings.t) (e : AdvancedSettings.Elements)
    (preset : PresetName) :
  (forall q, parseFloat (toString (Finite q)) = Finite q) ->
  exists s1 s2,
    AdvancedSettings.initialize toString e s = inr s1
    /\ AdvancedSettings.getConfiguration parseFloat s1
       = inr (configurations (AdvancedSettings.defaultPreset s))
    /\ AdvancedSettings.setPreset toString preset s1 = inr s2
    /\ AdvancedSettings.getConfiguration parseFloat s2
       = inr (configurations preset)
    /\ AdvancedSettings.advancedPanelDisplay
         <$> AdvancedSettings.elements s2
       = Some (AdvancedSettings.advancedPanelDisplay e).
Proof.
  intros Hrt.
  assert (P : forall p (s0 : AdvancedSettings.t) e0,
             AdvancedSettings.elements s0 = Some e0 ->
             exists s', AdvancedSettings.setPreset toString p s0 = inr s'
               /\ AdvancedSettings.defaultPreset s'
                  = AdvancedSettings.defaultPreset s0
               /\ (exists e', AdvancedSettings.elements s' = Some e'
                     /\ AdvancedSettings.advancedPanelDisplay e'
                        = AdvancedSettings.advancedPanelDisplay e0)
               /\ AdvancedSettings.getConfiguration parseFloat s'
                  = inr (configurations p)).
  { intros p s0 e0 He0. unfold AdvancedSettings.setPreset. rewrite He0.
    eexists. split; [reflexivity |].
    unfold AdvancedSettings.populateFields. rewrite He0.
    split; [reflexivity |]. split; [eexists; split; reflexivity |].
    match goal with |- AdvancedSettings.getConfiguration _ ?s' = _ =>
      pose proof (getConfiguration_spec parseFloat s' _ eq_refl) as H end.
    cbv zeta in H.
    assert (E : parsedInputs parseFloat
                  (AdvancedSettings.inputs
                     {| AdvancedSettings.advancedPanelDisplay :=
                          AdvancedSettings.advancedPanelDisplay e0;
                        AdvancedSettings.inputs :=
                          {| AdvancedSettings.maxRounds :=
                               toString (GameConfiguration.maxRounds
                                           (configurations p));
                             AdvancedSettings.size :=
                               toString (GameConfiguration.size
                                           (configurations p));
                             AdvancedSettings.speed :=
                               toString (GameConfiguration.speed
                                           (configurations p));
                             AdvancedSettings.curveSpeed :=
                               toString (GameConfiguration.curveSpeed
                                           (configurations p));
                             AdvancedSettings.holeRate :=
                               toString (GameConfiguration.holeRate
                                           (configurations p));
                             AdvancedSettings.holeRateRnd :=
                               toString (GameConfiguration.holeRateRnd
                                           (configurations p));
                             AdvancedSettings.holeSize :=
                               toString (GameConfiguration.holeSize
                                           (configurations p));
                             AdvancedSettings.holeSizeRnd :=
                               toString (GameConfiguration.holeSizeRnd
                                           (configurations p)) |} |})
                = configurations p).
    { unfold parsedInputs. destruct p; cbn; now rewrite !Hrt. }
    cbn [AdvancedSettings.elements AdvancedSettings.set_elements] in H.
    rewrite E in H. now rewrite presets_valid in H. }
  unfold AdvancedSettings.initialize.
  destruct (P (AdvancedSettings.defaultPreset s)
              (AdvancedSettings.set_elements (Some e) s) e eq_refl)
    as (s1 & I1 & I2 & (e1 & I3 & I4) & I5).
  destruct (P preset s1 e1 I3) as (s2 & J1 & _ & (e2 & J3 & J4) & J5).
  exists s1, s2. cbn [AdvancedSettings.defaultPreset
    AdvancedSettings.set_elements] in *.
  repeat split; try assumption.
  rewrite J3. cbn. now rewrite J4, I4.
Qed.

Lemma presets_survive_the_form_witness :
  let e := {| AdvancedSettings.advancedPanelDisplay := "none";
              AdvancedSettings.inputs :=
                {| AdvancedSettings.maxRounds := NaN;
                   AdvancedSettings.size := NaN;
                   AdvancedSettings.speed := NaN;
                   AdvancedSettings.curveSpeed := NaN;
                   AdvancedSettings.holeRate := NaN;
                   AdvancedSettings.holeRateRnd := NaN;
                   AdvancedSettings.holeSize := NaN;
                   AdvancedSettings.holeSizeRnd := NaN |} |} in
  let s := AdvancedSettings.new None in
  exists s1 s2,
    AdvancedSettings.initialize id e s = inr s1
    /\ AdvancedSettings.getConfiguration id s1
       = inr (configurations (AdvancedSettings.defaultPreset s))
    /\ AdvancedSettings.setPreset id strategy s1 = inr s2
    /\ AdvancedSettings.getConfiguration id s2
       = inr (configurations strategy)
    /\ AdvancedSettings.advancedPanelDisplay
         <$> AdvancedSettings.elements s2
       = Some (AdvancedSettings.advancedPanelDisplay e).
Proof.
  intros e s.
  refine (presets_survive_the_form id id s e strategy _).
  intros q. reflexivity.
Defined.
